(** * supernote-companion: the .note to PDF conversion pipeline

    A shallow embedding of [src/api/note-parser.ts] (the TypeScript port of
    supernote_pdf): the bounds-checked [BinaryReader], file validation,
    metadata blocks, the RATTA_RLE decoder, layer compositing and the PDF
    emitter, followed by the properties of the design document that were
    checked against them.

    Conventions of the embedding
    - a [Uint8Array] is a [list byte]; an index read [a[i]] is [a !! i]
      ([None] is JavaScript's [undefined]); an index write is [<[i:=x]> a],
      which like a typed array ignores a write outside the array;
    - integer-valued JavaScript numbers are [Z]; a number that comes out of
      [parseInt] is a [number], which adds [NaN];
    - a thrown [Error] is the [Throw] result of the [Result] type; code that
      uses the [BinaryReader] or [console.warn] runs in the monad [M], which
      threads the reader position and the list of warnings;
    - what the host platform provides ([TextDecoder], [parseInt],
      [String.prototype.toLowerCase], the PNG decoder behind
      [createImageBitmap], the floating-point blend, [pako.deflate]) is the
      interface [Host]. *)

From Stdlib Require Import ZArith List String Ascii Lia.
From Stdlib Require Import Sorted Permutation.
From Stdlib Require Import DecimalString DecimalZ DecimalFacts.
From Stdlib.Strings Require Import Byte.
From stdpp Require Import base list strings.

Open Scope Z_scope.

(* ===================================================================== *)
(** ** Bytes and numbers *)
(* ===================================================================== *)

(** The numeric value of a byte read from a [Uint8Array]. *)
Definition byteZ (b : byte) : Z := Z.of_N (Byte.to_N b).

(** Storing an integer into a [Uint8Array] keeps it modulo 256. *)
Definition toUint8 (z : Z) : byte :=
  match Byte.of_N (Z.to_N (z mod 256)) with
  | Some b => b
  | None => x00
  end.

(** Storing a possibly [undefined] value into a [Uint8Array]:
    [undefined] converts to [NaN], which is stored as 0. *)
Definition storeU8 (v : option byte) : byte :=
  match v with
  | Some b => b
  | None => x00
  end.

(** A JavaScript number as [parseInt] produces it: an integer or [NaN]. *)
Inductive number :=
| Int (z : Z)
| NaN.

(** Comparisons with [NaN] are all false. *)
Definition num_lt (a b : number) : bool :=
  match a, b with Int x, Int y => x <? y | _, _ => false end.
Definition num_gt (a b : number) : bool :=
  match a, b with Int x, Int y => x >? y | _, _ => false end.
Definition num_le (a b : number) : bool :=
  match a, b with Int x, Int y => x <=? y | _, _ => false end.
Definition num_ge (a b : number) : bool :=
  match a, b with Int x, Int y => x >=? y | _, _ => false end.
Definition num_eq (a b : number) : bool :=
  match a, b with Int x, Int y => x =? y | _, _ => false end.
Definition num_add (a b : number) : number :=
  match a, b with Int x, Int y => Int (x + y) | _, _ => NaN end.
Definition num_sub (a b : number) : number :=
  match a, b with Int x, Int y => Int (x - y) | _, _ => NaN end.
Definition isNaN (a : number) : bool :=
  match a with NaN => true | Int _ => false end.

(** [data.slice(start, start + len)] for in-range integer arguments. *)
Definition slice (data : list byte) (start len : Z) : list byte :=
  take (Z.to_nat len) (drop (Z.to_nat start) data).

(* ===================================================================== *)
(** ** Text *)
(* ===================================================================== *)

Definition LF : string := String (ascii_of_nat 10) EmptyString.

(** [s.startsWith(prefix)] *)
Definition startsWith (s prefix : string) : bool := String.prefix prefix s.

(** [s.includes(needle)] *)
Fixpoint includes (s needle : string) : bool :=
  String.prefix needle s ||
  match s with
  | EmptyString => false
  | String _ rest => includes rest needle
  end.

(** Truthiness of a string: the empty string is falsy. *)
Definition truthy (s : string) : bool :=
  match s with EmptyString => false | _ => true end.

(** Decimal [toString] of an integer-valued number. *)
Definition toString (z : Z) : string := NilZero.string_of_int (Z.to_int z).

(** [s.padStart(n, '0')] *)
Definition padStart0 (n : nat) (s : string) : string :=
  string_of_list_ascii (replicate (n - String.length s)%nat "0"%char)
  +:+ s.

(** Reading back a run of decimal digits, as a PDF reader does with a
    cross-reference entry. *)
Definition readDecimal (s : string) : option Z :=
  option_map Z.of_uint (NilEmpty.uint_of_string s).

(** [TextEncoder.encode] on text whose characters are all below U+0100
    (every string the emitter writes is): a character below U+0080 is one
    byte, the others are two. *)
Definition encodeChar (c : ascii) : list byte :=
  let n := Z.of_N (N_of_ascii c) in
  if n <? 128 then [toUint8 n]
  else [toUint8 (Z.lor 0xC0 (Z.shiftr n 6)); toUint8 (Z.lor 0x80 (Z.land n 0x3F))].

Definition encode (s : string) : list byte :=
  flat_map encodeChar (list_ascii_of_string s).

(* ===================================================================== *)
(** ** Errors, warnings and the host platform *)
(* ===================================================================== *)

(** The [Error]s the module throws, one constructor per [throw] site. *)
Inductive Error :=
| SeekOutOfBounds (pos : number) (fileLength : Z)
| SeekEndOutOfBounds (offset fileLength : Z)
| ReadU32OutOfBounds (pos : number) (fileLength : Z)
| InvalidReadLength (len : Z)
| ReadBytesOutOfBounds (pos : number) (len fileLength : Z)
| FileEmpty
| FileTooSmall (fileLength : Z)
| DownloadedHTML
| InvalidSignature (signature : string)
| InvalidArrayLength (len : Z)
| FailedToRenderPage (pageNo : Z) (cause : Error).

(** The [console.warn] messages. *)
Inductive Diagnostic :=
| InvalidMetadataAddress (address : number) (fileLength : Z)
| InvalidBlockLength (blockLen : Z) (address : number) (fileLength : Z)
| PngNotDecoded
| UnknownLayerProtocol (protocol : string).

Inductive Result (A : Type) :=
| Ok (a : A)
| Throw (e : Error).
Arguments Ok {A} a.
Arguments Throw {A} e.

(** What the module takes from the platform it runs on. *)
Class Host := {
  (** [new TextDecoder().decode(bytes)] *)
  decodeText : list byte -> string;
  (** [s.toLowerCase()] *)
  toLowerCase : string -> string;
  (** [parseInt(s, 10)] *)
  parseInt : string -> number;
  (** [decodePNG(pngData, width, height)], which draws the image with the
      browser: RGBA pixels at the requested size, or [None] for [null] *)
  decodePNG : list byte -> Z -> Z -> option (list byte);
  (** [Math.round(src * (a / 255) + dst * (1 - a / 255))] as it is stored
      into the canvas, on possibly [undefined] operands *)
  blendChannel : option byte -> option byte -> option byte -> byte;
  (** [pako.deflate] *)
  deflate : list byte -> list byte
}.

(* ===================================================================== *)
(** ** BinaryReader *)
(* ===================================================================== *)

Record BinaryReader := {
  data : list byte;
  pos : number
}.

(** [new BinaryReader(buffer)] *)
Definition newReader (buffer : list byte) : BinaryReader :=
  {| data := buffer; pos := Int 0 |}.

(** [reader.length] *)
Definition fileLength (r : BinaryReader) : Z := Z.of_nat (length (data r)).

(** The mutable state of a conversion: the reader and the warnings logged
    so far. *)
Record State := {
  reader : BinaryReader;
  console : list Diagnostic
}.

Definition M (A : Type) : Type := State -> Result (A * State).

Definition ret {A} (a : A) : M A := fun s => Ok (a, s).
Definition throw {A} (e : Error) : M A := fun _ => Throw e.
Definition bind {A B} (m : M A) (k : A -> M B) : M B :=
  fun s => match m s with
           | Ok (a, s') => k a s'
           | Throw e => Throw e
           end.

Notation "'let*' x ':=' m 'in' k" := (bind m (fun x => k))
  (at level 10, x pattern, m at level 100, k at level 200).
Notation "m ';;' k" := (bind m (fun _ => k))
  (at level 100, k at level 200, right associativity).

Definition getLength : M Z := fun s => Ok (fileLength (reader s), s).
(** The state once the reader has moved to [p]. *)
Definition moveTo (s : State) (p : number) : State :=
  {| reader := {| data := data (reader s); pos := p |};
     console := console s |}.
Definition setPos (p : number) : M unit := fun s => Ok (tt, moveTo s p).
Definition warn (d : Diagnostic) : M unit :=
  fun s => Ok (tt, {| reader := reader s; console := console s ++ [d] |}).
Definition liftResult {A} (r : Result A) : M A :=
  fun s => match r with Ok a => Ok (a, s) | Throw e => Throw e end.

(** [checkBounds(pos, size)] *)
Definition checkBounds (r : BinaryReader) (p : number) (size : Z) : bool :=
  num_ge p (Int 0) && num_le (num_add p (Int size)) (Int (fileLength r)).

(** [seek(pos)] *)
Definition seek (p : number) : M unit :=
  let* len := getLength in
  if num_lt p (Int 0) || num_gt p (Int len) then throw (SeekOutOfBounds p len)
  else setPos p.

(** [seekEnd(offset)] *)
Definition seekEnd (offset : Z) : M unit :=
  let* len := getLength in
  let newPos := len + offset in
  if (newPos <? 0) || (newPos >? len) then throw (SeekEndOutOfBounds offset len)
  else setPos (Int newPos).

(** [view.getUint32(p, true)]: four bytes, least significant first. *)
Definition getUint32LE (d : list byte) (p : Z) : Z :=
  match slice d p 4 with
  | [b0; b1; b2; b3] =>
      byteZ b0 + byteZ b1 * 256 + byteZ b2 * 65536 + byteZ b3 * 16777216
  | _ => 0
  end.

(** [readU32LE()] *)
Definition readU32LE : M Z :=
  fun s =>
    let r := reader s in
    if negb (checkBounds r (pos r) 4) then Throw (ReadU32OutOfBounds (pos r) (fileLength r))
    else match pos r with
         | Int p =>
             Ok (getUint32LE (data r) p, moveTo s (Int (p + 4)))
         | NaN => Throw (ReadU32OutOfBounds NaN (fileLength r))
         end.

(** [readBytes(length)] *)
Definition readBytes (len : Z) : M (list byte) :=
  fun s =>
    let r := reader s in
    if len <? 0 then Throw (InvalidReadLength len)
    else if negb (checkBounds r (pos r) len) then
      Throw (ReadBytesOutOfBounds (pos r) len (fileLength r))
    else match pos r with
         | Int p =>
             Ok (slice (data r) p len, moveTo s (Int (p + len)))
         | NaN => Throw (ReadBytesOutOfBounds NaN len (fileLength r))
         end.

(** [readString(length)] *)
Definition readString `{Host} (len : Z) : M string :=
  let* bytes := readBytes len in
  ret (decodeText bytes).

(* ===================================================================== *)
(** ** File validation *)
(* ===================================================================== *)

Definition A5X_WIDTH : Z := 1404.
Definition A5X_HEIGHT : Z := 1872.
Definition A5X2_WIDTH : Z := 1920.
Definition A5X2_HEIGHT : Z := 2560.

Definition VALID_SIGNATURE_PREFIXES : list string :=
  ["noteSN_FILE_VER_"; "SN_FILE_VER_"; "SN_FILE_ASA_"]%string.

Definition MIN_NOTE_FILE_SIZE : Z := 100.

(** [getSignature(reader)] *)
Definition getSignature `{Host} : M string :=
  seek (Int 4);;
  readString 20.

(** [validateNoteFile(reader)] *)
Definition validateNoteFile `{Host} : M unit :=
  let* len := getLength in
  if len =? 0 then throw FileEmpty
  else if len <? MIN_NOTE_FILE_SIZE then throw (FileTooSmall len)
  else
    let* signature := getSignature in
    let isValid := existsb (fun prefix => startsWith signature prefix)
                           VALID_SIGNATURE_PREFIXES in
    if negb isValid then
      seek (Int 0);;
      let* bytes := readBytes (Z.min 50 len) in
      let firstBytes := decodeText bytes in
      if includes (toLowerCase firstBytes) "<!doctype"
         || includes (toLowerCase firstBytes) "<html"
      then throw DownloadedHTML
      else throw (InvalidSignature (String.substring 0 20 signature))
    else ret tt.

(* ===================================================================== *)
(** ** Metadata blocks *)
(* ===================================================================== *)

(** A [Map<string, string>]: entries in insertion order, keys unique. *)
Definition JSMap : Type := list (string * string).

(** [map.get(key)] *)
Fixpoint mapGet (m : JSMap) (key : string) : option string :=
  match m with
  | [] => None
  | (k, v) :: rest => if String.eqb k key then Some v else mapGet rest key
  end.

(** [map.set(key, value)]: a present key keeps its place. *)
Fixpoint mapSet (m : JSMap) (key value : string) : JSMap :=
  match m with
  | [] => [(key, value)]
  | (k, v) :: rest =>
      if String.eqb k key then (k, value) :: rest
      else (k, v) :: mapSet rest key value
  end.

(** The text before the first [c] and the text after it. *)
Fixpoint splitAtChar (c : ascii) (s : string) : option (string * string) :=
  match s with
  | EmptyString => None
  | String ch rest =>
      if Ascii.eqb ch c then Some (EmptyString, rest)
      else match splitAtChar c rest with
           | Some (before, after) => Some (String ch before, after)
           | None => None
           end
  end.

(** The successive matches of [METADATA_RE = /<([^:]+?):([^>]*?)>/g] in
    [content], as the [re.exec] loop finds them: at each position a match
    needs a [<], at least one character up to the next [:], and the
    characters up to the next [>]; after a match the search resumes behind
    it, after a failure one character further. *)
Fixpoint execAll (fuel : nat) (content : string) : list (string * string) :=
  match fuel with
  | O => []
  | S fuel =>
      match content with
      | EmptyString => []
      | String ch rest =>
          if Ascii.eqb ch "<" then
            match splitAtChar ":" rest with
            | Some (String k ks, afterColon) =>
                match splitAtChar ">" afterColon with
                | Some (value, afterMatch) =>
                    (String k ks, value) :: execAll fuel afterMatch
                | None => execAll fuel rest
                end
            | _ => execAll fuel rest
            end
          else execAll fuel rest
      end
  end.

Definition metadataMatches (content : string) : list (string * string) :=
  execAll (S (String.length content)) content.

(** [parseMetadataBlock(reader, address)] *)
Definition parseMetadataBlock `{Host} (address : number) : M JSMap :=
  if num_eq address (Int 0) then ret []
  else
    let* len := getLength in
    if num_lt address (Int 0) || num_gt address (Int (len - 4)) then
      warn (InvalidMetadataAddress address len);;
      ret []
    else
      seek address;;
      let* blockLen := readU32LE in
      if (blockLen <=? 0)
         || num_gt (Int blockLen) (num_sub (num_sub (Int len) address) (Int 4))
      then
        warn (InvalidBlockLength blockLen address len);;
        ret []
      else
        let* content := readString blockLen in
        ret (fold_left (fun map m => mapSet map (fst m) (snd m))
                       (metadataMatches content) []).

(** [detectDeviceDimensions(reader, footerMap)] *)
Definition detectDeviceDimensions `{Host} (footerMap : JSMap) : M (Z * Z) :=
  let fallback := ret (A5X_WIDTH, A5X_HEIGHT) in
  match mapGet footerMap "FILE_FEATURE" with
  | Some fileFeature =>
      if truthy fileFeature then
        let headerAddr := parseInt fileFeature in
        if negb (isNaN headerAddr) then
          let* headerMap := parseMetadataBlock headerAddr in
          match mapGet headerMap "APPLY_EQUIPMENT" with
          | Some equipment =>
              if String.eqb equipment "N5" then ret (A5X2_WIDTH, A5X2_HEIGHT)
              else fallback
          | None => fallback
          end
        else fallback
      else fallback
  | None => fallback
  end.

(* ===================================================================== *)
(** ** The notebook structure *)
(* ===================================================================== *)

Record Layer := {
  key : string;
  protocol : string;
  bitmapAddress : number
}.

Record Page := {
  addr : number;
  layers : list Layer
}.

Record Notebook := {
  signature : string;
  pages : list Page;
  width : Z;
  height : Z
}.

(** [s.split(',')] *)
Fixpoint splitComma (s : string) : list string :=
  match s with
  | EmptyString => [EmptyString]
  | String ch rest =>
      if Ascii.eqb ch "," then EmptyString :: splitComma rest
      else match splitComma rest with
           | piece :: pieces => String ch piece :: pieces
           | [] => [String ch EmptyString]
           end
  end.

(** [s.slice(n)] *)
Definition sliceFrom (n : nat) (s : string) : string :=
  String.substring n (String.length s - n) s.

(** The comparator [(a, b) => a[0] - b[0]] of the page sort is negative,
    zero or positive as the page numbers compare; [NaN] page numbers were
    filtered out before. *)
Definition pageBefore (a b : number * number) : bool :=
  num_le (fst a) (fst b).

(** [Array.prototype.sort] is stable: an entry is inserted behind the
    entries that do not come after it. *)
Fixpoint insertEntry (e : number * number) (sorted : list (number * number))
  : list (number * number) :=
  match sorted with
  | [] => [e]
  | x :: rest =>
      if pageBefore x e then x :: insertEntry e rest else e :: x :: rest
  end.

Definition sortEntries (entries : list (number * number))
  : list (number * number) :=
  fold_left (fun sorted e => insertEntry e sorted) entries [].

(** The [footerMap.forEach] that collects the [PAGE<n>] entries. *)
Definition pageEntries `{Host} (footerMap : JSMap) : list (number * number) :=
  flat_map (fun kv : string * string =>
              let (key, value) := kv in
              if startsWith key "PAGE" then
                let pageNum := parseInt (sliceFrom 4 key) in
                let addr := parseInt value in
                if negb (isNaN pageNum) && negb (isNaN addr)
                then [(pageNum, addr)] else []
              else [])
           footerMap.

Definition defaultLayerOrder : list string :=
  ["BGLAYER"; "MAINLAYER"; "LAYER1"; "LAYER2"; "LAYER3"]%string.

(** The inner loop of [parseNotebook] over the layer keys of one page. *)
Fixpoint parseLayers `{Host} (pageMap : JSMap) (layerOrder : list string)
  : M (list Layer) :=
  match layerOrder with
  | [] => ret []
  | layerKey :: rest =>
      match mapGet pageMap layerKey with
      | Some layerAddrStr =>
          if truthy layerAddrStr then
            let layerAddr := parseInt layerAddrStr in
            let* layerData := parseMetadataBlock layerAddr in
            let layer :=
              {| key := layerKey;
                 protocol := match mapGet layerData "LAYERPROTOCOL" with
                             | Some p => p
                             | None => EmptyString
                             end;
                 bitmapAddress :=
                   parseInt (match mapGet layerData "LAYERBITMAP" with
                             | Some b => if truthy b then b else "0"
                             | None => "0"
                             end) |} in
            let* more := parseLayers pageMap rest in
            ret (layer :: more)
          else parseLayers pageMap rest
      | None => parseLayers pageMap rest
      end
  end.

(** The outer loop of [parseNotebook] over the sorted page addresses. *)
Fixpoint parsePages `{Host} (addrs : list number) : M (list Page) :=
  match addrs with
  | [] => ret []
  | addr :: rest =>
      let* pageMap := parseMetadataBlock addr in
      let layerOrder :=
        match mapGet pageMap "LAYERSEQ" with
        | Some layerSeq =>
            if truthy layerSeq then splitComma layerSeq else defaultLayerOrder
        | None => defaultLayerOrder
        end in
      let* layers := parseLayers pageMap layerOrder in
      let* more := parsePages rest in
      ret ({| addr := addr; layers := layers |} :: more)
  end.

(** [parseNotebook(reader)] *)
Definition parseNotebook `{Host} : M Notebook :=
  let* signature := getSignature in
  seekEnd (-4);;
  let* footerAddr := readU32LE in
  let* footerMap := parseMetadataBlock (Int footerAddr) in
  let* dims := detectDeviceDimensions footerMap in
  let entries := sortEntries (pageEntries footerMap) in
  let* pages := parsePages (map snd entries) in
  ret {| signature := signature; pages := pages;
         width := fst dims; height := snd dims |}.

(* ===================================================================== *)
(** ** The RATTA_RLE decoder *)
(* ===================================================================== *)

(** [((lengthCode & 0x7f) + 1) << 7], the run announced by a held pair. *)
Definition heldLength (lengthCode : byte) : Z :=
  Z.shiftl (Z.land (byteZ lengthCode) 0x7f + 1) 7.

(** [for (j = 0; j < n; j++) decompressed.push(c)] *)
Definition pushRun (decompressed : list byte) (c : byte) (n : Z) : list byte :=
  decompressed ++ replicate (Z.to_nat n) c.

(** The [while] loop of [decodeRLE]: it consumes the input two bytes at a
    time and stops at the end of the input or at a last unpaired byte; the
    result is the pixels pushed so far and the pair still held. *)
Fixpoint rleLoop (compressedData : list byte) (holder : option (byte * byte))
    (decompressed : list byte) : list byte * option (byte * byte) :=
  match compressedData with
  | colorCode :: lengthCode :: rest =>
      match holder with
      | Some (prevColorCode, prevLengthCode) =>
          if Byte.eqb colorCode prevColorCode then
            rleLoop rest None
              (pushRun decompressed colorCode
                 (1 + byteZ lengthCode + heldLength prevLengthCode))
          else
            rleLoop rest None
              (pushRun
                 (pushRun decompressed prevColorCode (heldLength prevLengthCode))
                 colorCode (byteZ lengthCode + 1))
      | None =>
          if byteZ lengthCode =? 0xff then
            rleLoop rest None (pushRun decompressed colorCode 0x4000)
          else if negb (Z.land (byteZ lengthCode) 0x80 =? 0) then
            rleLoop rest (Some (colorCode, lengthCode)) decompressed
          else
            rleLoop rest None (pushRun decompressed colorCode (byteZ lengthCode + 1))
      end
  | _ => (decompressed, holder)
  end.

(** The pixels of the runs alone: the loop, then the flush of a pair still
    held at the end of the input, capped by the room left in the raster. *)
Definition rleRuns (compressedData : list byte) (expectedLen : Z) : list byte :=
  let (decompressed, holder) := rleLoop compressedData None [] in
  match holder with
  | Some (colorCode, lengthCode) =>
      let remainingLen := expectedLen - Z.of_nat (length decompressed) in
      let tailLength := Z.min (heldLength lengthCode) remainingLen in
      pushRun decompressed colorCode tailLength
  | None => decompressed
  end.

(** [decodeRLE(compressedData, width, height)]. Setting the length of an
    array to a negative number throws a [RangeError]. *)
Definition decodeRLE (compressedData : list byte) (width height : Z)
  : Result (list byte) :=
  let expectedLen := width * height in
  let decompressed := rleRuns compressedData expectedLen in
  let decompressed :=
    decompressed
    ++ replicate (Z.to_nat (expectedLen - Z.of_nat (length decompressed))) x62 in
  if Z.of_nat (length decompressed) >? expectedLen then
    if expectedLen <? 0 then Throw (InvalidArrayLength expectedLen)
    else Ok (take (Z.to_nat expectedLen) decompressed)
  else Ok decompressed.

(** [toRGBA(pixelByte)] *)
Definition toRGBA (pixelByte : byte) : byte * byte * byte * byte :=
  match pixelByte with
  | x61 => (x00, x00, x00, xff)
  | x65 => (xff, xff, xff, xff)
  | x62 => (x00, x00, x00, x00)
  | x63 | x9d | x9e => (x9d, x9d, x9d, xff)
  | x64 | xc9 | xca => (xc9, xc9, xc9, xff)
  | _ => (pixelByte, pixelByte, pixelByte, xff)
  end.

(** [toRGBA(layerPixels[i])] where the read may be outside the array:
    [undefined] falls to the default case. *)
Definition toRGBAat (v : option byte)
  : option byte * option byte * option byte * option byte :=
  match v with
  | Some pixelByte =>
      let '(r, g, b, a) := toRGBA pixelByte in (Some r, Some g, Some b, Some a)
  | None => (None, None, None, Some xff)
  end.

(* ===================================================================== *)
(** ** Rendering a page *)
(* ===================================================================== *)

(** The body of both compositing loops for the pixel at [idx = i * 4]. *)
Definition compositePixel `{Host} (canvas : list byte) (idx : nat)
    (r g b a : option byte) : list byte :=
  match a with
  | Some x00 => canvas
  | Some xff =>
      let canvas := <[(idx + 0)%nat := storeU8 r]> canvas in
      let canvas := <[(idx + 1)%nat := storeU8 g]> canvas in
      let canvas := <[(idx + 2)%nat := storeU8 b]> canvas in
      <[(idx + 3)%nat := xff]> canvas
  | _ =>
      let canvas :=
        <[(idx + 0)%nat := blendChannel r a (canvas !! (idx + 0)%nat)]> canvas in
      let canvas :=
        <[(idx + 1)%nat := blendChannel g a (canvas !! (idx + 1)%nat)]> canvas in
      <[(idx + 2)%nat := blendChannel b a (canvas !! (idx + 2)%nat)]> canvas
  end.

(** The compositing loop of a RATTA_RLE layer over [n = width * height]
    pixels. *)
Definition compositeRLE `{Host} (canvas layerPixels : list byte) (n : nat)
  : list byte :=
  fold_left (fun canvas i =>
               let '(r, g, b, a) := toRGBAat (layerPixels !! i) in
               compositePixel canvas (i * 4) r g b a)
            (seq 0 n) canvas.

(** The compositing loop of a PNG layer. *)
Definition compositePNG `{Host} (canvas layerPixels : list byte) (n : nat)
  : list byte :=
  fold_left (fun canvas i =>
               let idx := (i * 4)%nat in
               compositePixel canvas idx
                 (layerPixels !! (idx + 0)%nat) (layerPixels !! (idx + 1)%nat)
                 (layerPixels !! (idx + 2)%nat) (layerPixels !! (idx + 3)%nat))
            (seq 0 n) canvas.

(** [new Uint8Array(n)]: zero-filled; a negative length throws. *)
Definition newUint8Array (n : Z) : Result (list byte) :=
  if n <? 0 then Throw (InvalidArrayLength n)
  else Ok (replicate (Z.to_nat n) x00).

(** The white canvas [renderPage] starts from. *)
Definition whiteCanvas (width height : Z) : Result (list byte) :=
  match newUint8Array (width * height * 4) with
  | Ok canvas =>
      Ok (fold_left (fun canvas i =>
                       let canvas := <[(i * 4 + 0)%nat := xff]> canvas in
                       let canvas := <[(i * 4 + 1)%nat := xff]> canvas in
                       let canvas := <[(i * 4 + 2)%nat := xff]> canvas in
                       <[(i * 4 + 3)%nat := xff]> canvas)
                    (seq 0 (Z.to_nat (width * height))) canvas)
  | Throw e => Throw e
  end.

(** The three reads every layer with a bitmap starts with. *)
Definition readBitmapBlock (bitmapAddress : number) : M (list byte) :=
  seek bitmapAddress;;
  let* blockLen := readU32LE in
  readBytes blockLen.

(** One iteration of the layer loop of [renderPage]. *)
Definition renderLayer `{Host} (width height : Z) (canvas : list byte)
    (layer : Layer) : M (list byte) :=
  if num_eq (bitmapAddress layer) (Int 0) then ret canvas
  else
    let* compressedData := readBitmapBlock (bitmapAddress layer) in
    if String.eqb (protocol layer) "RATTA_RLE" then
      let* layerPixels := liftResult (decodeRLE compressedData width height) in
      ret (compositeRLE canvas layerPixels (Z.to_nat (width * height)))
    else if String.eqb (protocol layer) "PNG" then
      match decodePNG compressedData width height with
      | Some layerPixels =>
          ret (compositePNG canvas layerPixels (Z.to_nat (width * height)))
      | None => warn PngNotDecoded;; ret canvas
      end
    else
      warn (UnknownLayerProtocol (protocol layer));;
      ret canvas.

Fixpoint renderLayers `{Host} (width height : Z) (canvas : list byte)
    (layers : list Layer) : M (list byte) :=
  match layers with
  | [] => ret canvas
  | layer :: rest =>
      let* canvas := renderLayer width height canvas layer in
      renderLayers width height canvas rest
  end.

(** [renderPage(reader, page, width, height)] *)
Definition renderPage `{Host} (page : Page) (width height : Z) : M (list byte) :=
  let* canvas := liftResult (whiteCanvas width height) in
  renderLayers width height canvas (layers page).

(** [rgbaToRgb(rgba, width, height)] *)
Definition rgbaToRgb (rgba : list byte) (width height : Z) : Result (list byte) :=
  match newUint8Array (width * height * 3) with
  | Ok rgb =>
      Ok (fold_left (fun rgb i =>
                       let rgb := <[(i * 3 + 0)%nat := storeU8 (rgba !! (i * 4 + 0)%nat)]> rgb in
                       let rgb := <[(i * 3 + 1)%nat := storeU8 (rgba !! (i * 4 + 1)%nat)]> rgb in
                       <[(i * 3 + 2)%nat := storeU8 (rgba !! (i * 4 + 2)%nat)]> rgb)
                    (seq 0 (Z.to_nat (width * height))) rgb)
  | Throw e => Throw e
  end.

(* ===================================================================== *)
(** ** The PDF emitter *)
(* ===================================================================== *)

(** The three variables [buildPDF] closes over. *)
Record PdfWriter := {
  chunks : list (list byte);
  xrefOffsets : list Z;
  byteOffset : Z
}.

(** [write(data)] for bytes *)
Definition writeBytes (bytes : list byte) (w : PdfWriter) : PdfWriter :=
  {| chunks := chunks w ++ [bytes];
     xrefOffsets := xrefOffsets w;
     byteOffset := byteOffset w + Z.of_nat (length bytes) |}.

(** [write(data)] for a string *)
Definition write (text : string) (w : PdfWriter) : PdfWriter :=
  writeBytes (encode text) w.

(** [xrefOffsets.push(byteOffset)] *)
Definition pushOffset (w : PdfWriter) : PdfWriter :=
  {| chunks := chunks w;
     xrefOffsets := xrefOffsets w ++ [byteOffset w];
     byteOffset := byteOffset w |}.

(** [Math.round(pixels * 72 / DPI)]: the quotient is a multiple of 1/25,
    never within rounding distance of a half, so the rounding of the
    floating-point quotient is the rounding of the exact one. *)
Definition DPI : Z := 150.
Definition toPoints (pixels : Z) : Z := (2 * (pixels * 72) + DPI) / (2 * DPI).

(** [parts.join(sep)] *)
Fixpoint join (sep : string) (parts : list string) : string :=
  match parts with
  | [] => EmptyString
  | [part] => part
  | part :: rest => part +:+ sep +:+ join sep rest
  end.

Definition pdfHeader : string :=
  "%PDF-1.7" +:+ LF +:+ "%"
  +:+ string_of_list_ascii
        [ascii_of_nat 226; ascii_of_nat 227; ascii_of_nat 207; ascii_of_nat 211]
  +:+ LF.

Definition catalogObject : string :=
  "1 0 obj" +:+ LF +:+ "<< /Type /Catalog /Pages 2 0 R >>" +:+ LF
  +:+ "endobj" +:+ LF.

Definition pagesObject (pageCount : nat) : string :=
  let pageRefs :=
    join " " (map (fun i => toString (Z.of_nat i * 3 + 3) +:+ " 0 R")
                  (seq 0 pageCount)) in
  "2 0 obj" +:+ LF +:+ "<< /Type /Pages /Kids [ " +:+ pageRefs
  +:+ " ] /Count " +:+ toString (Z.of_nat pageCount) +:+ " >>" +:+ LF
  +:+ "endobj" +:+ LF.

Definition pageObject (pageObjId contentsObjId imageObjId pdfWidth pdfHeight : Z)
  : string :=
  toString pageObjId +:+ " 0 obj" +:+ LF +:+ "<< /Type /Page" +:+ LF
  +:+ "   /Parent 2 0 R" +:+ LF
  +:+ "   /MediaBox [0 0 " +:+ toString pdfWidth +:+ " " +:+ toString pdfHeight
  +:+ "]" +:+ LF
  +:+ "   /Contents " +:+ toString contentsObjId +:+ " 0 R" +:+ LF
  +:+ "   /Resources << /XObject << /Im1 " +:+ toString imageObjId
  +:+ " 0 R >> >>" +:+ LF
  +:+ ">>" +:+ LF +:+ "endobj" +:+ LF.

Definition pageContents (pdfWidth pdfHeight : Z) : string :=
  "q" +:+ LF +:+ toString pdfWidth +:+ " 0 0 " +:+ toString pdfHeight
  +:+ " 0 0 cm" +:+ LF +:+ "/Im1 Do" +:+ LF +:+ "Q" +:+ LF.

Definition contentsObject (contentsObjId : Z) (contents : string) : string :=
  toString contentsObjId +:+ " 0 obj" +:+ LF
  +:+ "<< /Length " +:+ toString (Z.of_nat (String.length contents)) +:+ " >>"
  +:+ LF +:+ "stream" +:+ LF +:+ contents +:+ LF +:+ "endstream" +:+ LF
  +:+ "endobj" +:+ LF.

Definition imageObjectHead (imageObjId width height compressedLength : Z)
  : string :=
  toString imageObjId +:+ " 0 obj" +:+ LF +:+ "<< /Type /XObject" +:+ LF
  +:+ "   /Subtype /Image" +:+ LF
  +:+ "   /Width " +:+ toString width +:+ LF
  +:+ "   /Height " +:+ toString height +:+ LF
  +:+ "   /ColorSpace /DeviceRGB" +:+ LF
  +:+ "   /BitsPerComponent 8" +:+ LF
  +:+ "   /Filter /FlateDecode" +:+ LF
  +:+ "   /Length " +:+ toString compressedLength +:+ " >>" +:+ LF
  +:+ "stream" +:+ LF.

Definition imageObjectTail : string :=
  LF +:+ "endstream" +:+ LF +:+ "endobj" +:+ LF.

(** One iteration of the page loop of [buildPDF], for page index [i]. *)
Definition emitPage `{Host} (width height : Z) (i : Z) (pageImage : list byte)
    (w : PdfWriter) : PdfWriter :=
  let pdfWidth := toPoints width in
  let pdfHeight := toPoints height in
  let pageObjId := i * 3 + 3 in
  let contentsObjId := i * 3 + 4 in
  let imageObjId := i * 3 + 5 in
  let compressedPixels := deflate pageImage in
  let w := pushOffset w in
  let w := write (pageObject pageObjId contentsObjId imageObjId pdfWidth pdfHeight) w in
  let contents := pageContents pdfWidth pdfHeight in
  let w := pushOffset w in
  let w := write (contentsObject contentsObjId contents) w in
  let w := pushOffset w in
  let w := write (imageObjectHead imageObjId width height
                    (Z.of_nat (length compressedPixels))) w in
  let w := writeBytes compressedPixels w in
  write imageObjectTail w.

Fixpoint emitPages `{Host} (width height : Z) (i : Z) (pageImages : list (list byte))
    (w : PdfWriter) : PdfWriter :=
  match pageImages with
  | [] => w
  | pageImage :: rest =>
      emitPages width height (i + 1) rest (emitPage width height i pageImage w)
  end.

(** The writer when all objects are written, before the cross-reference
    table. *)
Definition emitObjects `{Host} (pageImages : list (list byte)) (width height : Z)
  : PdfWriter :=
  let w := {| chunks := []; xrefOffsets := []; byteOffset := 0 |} in
  let w := write pdfHeader w in
  let w := pushOffset w in
  let w := write catalogObject w in
  let w := pushOffset w in
  let w := write (pagesObject (length pageImages)) w in
  emitPages width height 0 pageImages w.

(** One line of the cross-reference table. *)
Definition xrefEntry (offset : Z) : string :=
  padStart0 10 (toString offset) +:+ " 00000 n " +:+ LF.

(** The cross-reference table and the trailer. *)
Definition emitXref (w : PdfWriter) : PdfWriter :=
  let xrefStart := byteOffset w in
  let size := Z.of_nat (length (xrefOffsets w)) + 1 in
  let w := write ("xref" +:+ LF) w in
  let w := write ("0 " +:+ toString size +:+ LF) w in
  let w := write ("0000000000 65535 f " +:+ LF) w in
  let w := fold_left (fun w offset => write (xrefEntry offset) w) (xrefOffsets w) w in
  let w := write ("trailer" +:+ LF) w in
  let w := write ("<< /Size " +:+ toString size +:+ " /Root 1 0 R >>" +:+ LF) w in
  let w := write ("startxref" +:+ LF) w in
  let w := write (toString xrefStart +:+ LF) w in
  write ("%%EOF" +:+ LF) w.

(** [buildPDF(pageImages, width, height)]: the chunks, concatenated. *)
Definition buildPDF `{Host} (pageImages : list (list byte)) (width height : Z)
  : list byte :=
  concat (chunks (emitXref (emitObjects pageImages width height))).

(* ===================================================================== *)
(** ** The conversion *)
(* ===================================================================== *)

(** [try { body } catch (err) { throw wrap(err) }] *)
Definition rethrow {A} (wrap : Error -> Error) (body : M A) : M A :=
  fun s => match body s with
           | Ok r => Ok r
           | Throw e => Throw (wrap e)
           end.

(** The page loop of [convertNoteToPdf], from page index [i]. *)
Fixpoint renderPages `{Host} (width height : Z) (i : Z) (pages : list Page)
  : M (list (list byte)) :=
  match pages with
  | [] => ret []
  | page :: rest =>
      let* rgb :=
        rethrow (FailedToRenderPage (i + 1))
          (let* rgba := renderPage page width height in
           liftResult (rgbaToRgb rgba width height)) in
      let* more := renderPages width height (i + 1) rest in
      ret (rgb :: more)
  end.

Definition convertNoteToPdfM `{Host} : M (list byte) :=
  validateNoteFile;;
  let* notebook := parseNotebook in
  let* pageImages :=
    renderPages (width notebook) (height notebook) 0 (pages notebook) in
  ret (buildPDF pageImages (width notebook) (height notebook)).

Definition initialState (noteData : list byte) : State :=
  {| reader := newReader noteData; console := [] |}.

(** [convertNoteToPdf(noteData)]: the PDF bytes and the final state, or the
    error thrown. *)
Definition convertNoteToPdf `{Host} (noteData : list byte)
  : Result (list byte * State) :=
  convertNoteToPdfM (initialState noteData).

(** [getNoteInfo(noteData)] *)
Definition getNoteInfo `{Host} (noteData : list byte)
  : Result (string * Z * Z * Z) :=
  match (validateNoteFile;; parseNotebook) (initialState noteData) with
  | Ok (notebook, _) =>
      Ok (signature notebook, Z.of_nat (length (pages notebook)),
          width notebook, height notebook)
  | Throw e => Throw e
  end.

(* ===================================================================== *)
(** ** Notions used in the statements *)
(* ===================================================================== *)

(** A canvas of [n] pixels whose alpha bytes are all 255. *)
Definition opaqueCanvas (n : nat) (canvas : list byte) : Prop :=
  length canvas = (n * 4)%nat
  /\ forall i, (i < n)%nat -> canvas !! (i * 4 + 3)%nat = Some xff.

(** The RGBA bytes [toRGBA] gives to the colour codes of a layer. *)
Definition layerColors (layerPixels : list byte) : list byte :=
  flat_map (fun pixelByte => let '(r, g, b, a) := toRGBA pixelByte in [r; g; b; a])
           layerPixels.

(** Two runs agree when they throw the same error, or return the same
    value over the same buffer. *)
Definition agree {A} (r1 r2 : Result (A * State)) : Prop :=
  match r1, r2 with
  | Ok (a1, s1), Ok (a2, s2) => a1 = a2 /\ data (reader s1) = data (reader s2)
  | Throw e1, Throw e2 => e1 = e2
  | _, _ => False
  end.

(** The text an object starts with: ["N 0 obj"] and a line feed. *)
Definition objectDeclaration (n : Z) : string := toString n +:+ " 0 obj" +:+ LF.

(** The text of the cross-reference section for a list of offsets, with
    the trailer that follows it. *)
Definition xrefSection (offsets : list Z) (xrefStart : Z) : string :=
  let size := Z.of_nat (length offsets) + 1 in
  "xref" +:+ LF +:+ "0 " +:+ toString size +:+ LF
  +:+ "0000000000 65535 f " +:+ LF
  +:+ String.concat "" (map xrefEntry offsets)
  +:+ "trailer" +:+ LF
  +:+ "<< /Size " +:+ toString size +:+ " /Root 1 0 R >>" +:+ LF
  +:+ "startxref" +:+ LF +:+ toString xrefStart +:+ LF +:+ "%%EOF" +:+ LF.

(** The bytes written so far. *)
Definition written (w : PdfWriter) : list byte := concat (chunks w).

(** The writer counts the bytes written, and every offset recorded so far
    is a place in them where the declaration of its object starts. *)
Definition offsetsPointAtObjects (w : PdfWriter) : Prop :=
  byteOffset w = Z.of_nat (length (written w))
  /\ forall k offset,
       xrefOffsets w !! k = Some offset ->
       0 <= offset <= Z.of_nat (length (written w))
       /\ encode (objectDeclaration (Z.of_nat k + 1))
            `prefix_of` drop (Z.to_nat offset) (written w).

(** The writer only appends: to the bytes and to the offsets. *)
Definition extends (w w' : PdfWriter) : Prop :=
  (exists offsets, xrefOffsets w' = xrefOffsets w ++ offsets)
  /\ (exists bytes, written w' = written w ++ bytes).





(** An entry of the cross-reference table for an object in use at
    [offset]: decimal digits that read as [offset], ten of them as long as
    the offset has no more, then the generation 00000, the mark [n] and
    the two-byte end of line. *)
Definition tableEntry (entry : string) (offset : Z) : Prop :=
  exists digits,
    entry = digits +:+ " 00000 n " +:+ LF
    /\ readDecimal digits = Some offset
    /\ (10 <= String.length digits)%nat
    /\ (offset < 10 ^ 10 -> String.length digits = 10%nat).

(* ===================================================================== *)
(** ** Sample inputs *)
(* ===================================================================== *)

(** Lower case of the letters A to Z. *)
Definition asciiLower (c : ascii) : ascii :=
  let n := nat_of_ascii c in
  if (65 <=? n)%nat && (n <=? 90)%nat then ascii_of_nat (n + 32) else c.

Fixpoint mapString (f : ascii -> ascii) (s : string) : string :=
  match s with
  | EmptyString => EmptyString
  | String c rest => String (f c) (mapString f rest)
  end.

(** [TextDecoder] on bytes below 0x80, with the UTF-8 byte order mark it
    drops at the start. *)
Definition dropBOM (bytes : list byte) : list byte :=
  match bytes with
  | xef :: xbb :: xbf :: rest => rest
  | _ => bytes
  end.

(** The white space and the digits of [parseInt], among the characters
    below U+0080. *)
Definition isSpace (c : ascii) : bool :=
  let n := nat_of_ascii c in
  ((9 <=? n)%nat && (n <=? 13)%nat) || (n =? 32)%nat.

Definition isDigit (c : ascii) : bool :=
  let n := nat_of_ascii c in
  (48 <=? n)%nat && (n <=? 57)%nat.

Fixpoint skipSpaces (s : string) : string :=
  match s with
  | String c rest => if isSpace c then skipSpaces rest else s
  | EmptyString => s
  end.

Fixpoint takeDigits (s : string) : string :=
  match s with
  | String c rest => if isDigit c then String c (takeDigits rest) else EmptyString
  | EmptyString => EmptyString
  end.

(** [parseInt(s, 10)] on such text: leading white space is skipped, a sign
    is read, then the digits up to the first other character; without a
    digit the result is [NaN]. *)
Definition parseDecimal (s : string) : number :=
  let s := skipSpaces s in
  let '(negative, s) :=
    match s with
    | String "-" rest => (true, rest)
    | String "+" rest => (false, rest)
    | _ => (false, s)
    end in
  match takeDigits s with
  | EmptyString => NaN
  | digits =>
      match readDecimal digits with
      | Some z => Int (if negative then - z else z)
      | None => NaN
      end
  end.

(** A host for running the model on examples. It follows the platform on
    text below U+0080 and numbers below 2^53: bytes decode to the
    characters of the same code behind a byte order mark that is dropped,
    text is lower-cased letter by letter, [parseInt] reads white space, a
    sign and the leading digits. PNG data decodes to itself, blending
    keeps the source channel, and [deflate] stores the bytes unchanged. *)
Definition sampleHost : Host := {|
  decodeText bytes := string_of_list_byte (dropBOM bytes);
  toLowerCase s := mapString asciiLower s;
  parseInt s := parseDecimal s;
  decodePNG bytes _ _ := Some bytes;
  blendChannel src _ _ := storeU8 src;
  deflate bytes := bytes
|}.

(** A buffer that holds a bitmap block at address 1: the length 2, then
    one run of one black pixel. *)
Definition sampleBuffer : list byte := [x00; x02; x00; x00; x00; x61; x00].

(** A page with one RATTA_RLE layer at that block. *)
Definition samplePage : Page :=
  {| addr := Int 0;
     layers := [ {| key := "MAINLAYER"; protocol := "RATTA_RLE";
                    bitmapAddress := Int 1 |} ] |}.

(** A layer of a protocol the renderer does not know, at the same block. *)
Definition unknownLayer : Layer :=
  {| key := "LAYER1"; protocol := "RATTA_RLE2"; bitmapAddress := Int 1 |}.

(** The same layer with a bitmap address behind the end of the buffer. *)
Definition staleLayer : Layer :=
  {| key := "LAYER1"; protocol := "RATTA_RLE2"; bitmapAddress := Int 1000 |}.

(** A note file of 100 bytes: the signature at offset 4, at address 24 the
    record of a page whose main layer has an address that is not a number,
    at address 43 the footer that lists the page, and the address of the
    footer in the last four bytes. *)
Definition noteWithBadLayerAddress : list byte :=
  list_byte_of_string "noteSN_FILE_VER_20230015"
  ++ [x0f; x00; x00; x00] ++ list_byte_of_string "<MAINLAYER:abc>"
  ++ [x0a; x00; x00; x00] ++ list_byte_of_string "<PAGE1:24>"
  ++ replicate 39 x00
  ++ [x2b; x00; x00; x00].


(* ===================================================================== *)
(** ** Notions used in the further properties *)
(* ===================================================================== *)

(** The reader stands at an integer position inside the buffer or at its
    end. *)
Definition inBounds (s : State) : Prop :=
  exists p, pos (reader s) = Int p /\ 0 <= p <= fileLength (reader s).

(** [s] holds the character [c]. *)
Fixpoint hasChar (c : ascii) (s : string) : bool :=
  match s with
  | EmptyString => false
  | String ch rest => Ascii.eqb ch c || hasChar c rest
  end.

(** A key and a value that [METADATA_RE] can match: the key is not empty
    and holds no colon, the value holds no closing bracket. *)
Definition matchable (entry : string * string) : Prop :=
  fst entry <> EmptyString
  /\ hasChar ":" (fst entry) = false
  /\ hasChar ">" (snd entry) = false.

(** The text of a block that holds the entries, each as ["<key:value>"]. *)
Fixpoint blockText (entries : list (string * string)) : string :=
  match entries with
  | [] => EmptyString
  | (key, value) :: rest =>
      "<" +:+ key +:+ ":" +:+ value +:+ ">" +:+ blockText rest
  end.

(** The record [parseMetadataBlock] builds from the matches. *)
Definition recordOf (matches : list (string * string)) : JSMap :=
  fold_left (fun map m => mapSet map (fst m) (snd m)) matches [].

(** The error of a read at a position that is not a number. *)
Definition nanRead (s : State) : Error :=
  ReadU32OutOfBounds NaN (fileLength (reader s)).

(** The length of the run a pair stands for when no pair is held: 16384
    for the length code [0xff], one more than the code otherwise. *)
Definition runLength (lengthCode : byte) : Z :=
  if byteZ lengthCode =? 0xff then 0x4000 else byteZ lengthCode + 1.

(** A pair that neither starts nor resolves an escape. *)
Definition plainPair (pair : byte * byte) : Prop :=
  byteZ (snd pair) < 0x80 \/ byteZ (snd pair) = 0xff.

(** The bytes of a list of (colour, length) pairs. *)
Definition pairBytes (pairs : list (byte * byte)) : list byte :=
  flat_map (fun pair => [fst pair; snd pair]) pairs.

(** The pixels a pair still held stands for, and none for no pair. *)
Definition heldPixels (holder : option (byte * byte)) : Z :=
  match holder with
  | Some _ => 0x4000
  | None => 0
  end.

(** The three objects of the page of index [i], as bytes. *)
Definition pageObjects `{Host} (width height : Z) (i : Z) (pageImage : list byte)
  : list (list byte) :=
  [ encode (pageObject (i * 3 + 3) (i * 3 + 4) (i * 3 + 5)
              (toPoints width) (toPoints height));
    encode (contentsObject (i * 3 + 4)
              (pageContents (toPoints width) (toPoints height)));
    encode (imageObjectHead (i * 3 + 5) width height
              (Z.of_nat (length (deflate pageImage))))
    ++ deflate pageImage ++ encode imageObjectTail ].

Fixpoint pagesObjects `{Host} (width height : Z) (i : Z)
    (pageImages : list (list byte)) : list (list byte) :=
  match pageImages with
  | [] => []
  | pageImage :: rest =>
      pageObjects width height i pageImage
      ++ pagesObjects width height (i + 1) rest
  end.

(** The objects of a document, in the order of their numbers from 1. *)
Definition documentObjects `{Host} (pageImages : list (list byte))
    (width height : Z) : list (list byte) :=
  [encode catalogObject; encode (pagesObject (length pageImages))]
  ++ pagesObjects width height 0 pageImages.

(** The offsets of objects written one behind the other from [start]. *)
Fixpoint offsetsFrom (start : Z) (objects : list (list byte)) : list Z :=
  match objects with
  | [] => []
  | object :: rest =>
      start :: offsetsFrom (start + Z.of_nat (length object)) rest
  end.

(** The writer has written the header and then the objects, and recorded
    their offsets. *)
Definition wrote (objects : list (list byte)) (w : PdfWriter) : Prop :=
  written w = encode pdfHeader ++ concat objects
  /\ xrefOffsets w = offsetsFrom (Z.of_nat (length (encode pdfHeader))) objects
  /\ byteOffset w = Z.of_nat (length (written w)).

(** Text all of whose characters are below U+0080. *)
Definition asciiText (s : string) : Prop :=
  Forall (fun c => (N_of_ascii c < 128)%N) (list_ascii_of_string s).

(** A note file of 100 bytes whose footer, at address 24, lists no page. *)
Definition noteWithoutPages : list byte :=
  list_byte_of_string "noteSN_FILE_VER_20230015"
  ++ [x0b; x00; x00; x00] ++ list_byte_of_string "<FILE_ID:1>"
  ++ replicate 57 x00
  ++ [x18; x00; x00; x00].

(** A buffer that holds an empty bitmap block at address 1, and a
    RATTA_RLE layer at that block. *)
Definition emptyBlockBuffer : list byte := [x00; x00; x00; x00; x00].

Definition emptyLayer : Layer :=
  {| key := "MAINLAYER"; protocol := "RATTA_RLE"; bitmapAddress := Int 1 |}.

(** A layer without a record of its own: no protocol and no bitmap. *)
Definition absentLayer : Layer :=
  {| key := "BGLAYER"; protocol := ""; bitmapAddress := Int 0 |}.

(* ===================================================================== *)
(** * Properties *)
(* ===================================================================== *)

(** ** The reader *)

Lemma bind_Ok {A B} (m : M A) (k : A -> M B) s a s' :
  m s = Ok (a, s') -> bind m k s = k a s'.
Proof. unfold bind. by intros ->. Qed.

Lemma bind_Throw {A B} (m : M A) (k : A -> M B) s e :
  m s = Throw e -> bind m k s = Throw e.
Proof. unfold bind. by intros ->. Qed.

(** [step H] runs the first action of a sequence whose result [H] gives. *)
Ltac step H := rewrite (bind_Ok _ _ _ _ _ H).

(** Closes a case of [parseMetadataBlock] that returns: the run is the one
    computed, and the conditions of the other cases contradict this one. *)
Ltac returns_here :=
  eexists _, _; split; [reflexivity|]; repeat (split || intros); lia.

Lemma fileLength_moveTo s p : fileLength (reader (moveTo s p)) = fileLength (reader s).
Proof. reflexivity. Qed.

Lemma seek_in_bounds (p : Z) (s : State) :
  0 <= p <= fileLength (reader s) ->
  seek (Int p) s = Ok (tt, moveTo s (Int p)).
Proof.
  intros Hp. unfold seek, bind, getLength, setPos, throw. simpl.
  destruct (Z.ltb_spec p 0); [lia|].
  destruct (Z.gtb_spec p (fileLength (reader s))); [lia|]. reflexivity.
Qed.

Lemma readU32LE_in_bounds (p : Z) (s : State) :
  pos (reader s) = Int p -> 0 <= p -> p + 4 <= fileLength (reader s) ->
  readU32LE s = Ok (getUint32LE (data (reader s)) p, moveTo s (Int (p + 4))).
Proof.
  intros Hpos Hp Hlen. unfold readU32LE, checkBounds. rewrite Hpos. simpl.
  destruct (Z.geb_spec p 0); [|lia].
  destruct (Z.leb_spec (p + 4) (fileLength (reader s))); [|lia]. reflexivity.
Qed.

Lemma readBytes_in_bounds (len p : Z) (s : State) :
  pos (reader s) = Int p -> 0 <= p -> 0 <= len -> p + len <= fileLength (reader s) ->
  readBytes len s = Ok (slice (data (reader s)) p len, moveTo s (Int (p + len))).
Proof.
  intros Hpos Hp Hlen Hfit. unfold readBytes, checkBounds. rewrite Hpos. simpl.
  destruct (Z.ltb_spec len 0); [lia|].
  destruct (Z.geb_spec p 0); [|lia].
  destruct (Z.leb_spec (p + len) (fileLength (reader s))); [|lia]. reflexivity.
Qed.

(** ** File validation *)

(** What [validateNoteFile] does on a buffer, whatever the reader position
    and the warnings logged before. *)
Lemma validateNoteFile_run `{Host} (s : State) :
  let buffer := data (reader s) in
  let len := Z.of_nat (length buffer) in
  let signature := decodeText (slice buffer 4 20) in
  let firstBytes := decodeText (slice buffer 0 (Z.min 50 len)) in
  validateNoteFile s =
  if len =? 0 then Throw FileEmpty
  else if len <? MIN_NOTE_FILE_SIZE then Throw (FileTooSmall len)
  else if existsb (fun prefix => startsWith signature prefix) VALID_SIGNATURE_PREFIXES
  then Ok (tt, moveTo s (Int 24))
  else if includes (toLowerCase firstBytes) "<!doctype"
          || includes (toLowerCase firstBytes) "<html"
  then Throw DownloadedHTML
  else Throw (InvalidSignature (String.substring 0 20 signature)).
Proof.
  intros buffer len signature firstBytes.
  unfold validateNoteFile. unfold bind at 1. unfold getLength at 1.
  change (fileLength (reader s)) with len.
  destruct (Z.eqb_spec len 0) as [|Hne]; [reflexivity|].
  destruct (Z.ltb_spec len MIN_NOTE_FILE_SIZE) as [|Hge]; [reflexivity|].
  unfold MIN_NOTE_FILE_SIZE in Hge.
  assert (Hsig : getSignature s = Ok (signature, moveTo s (Int 24))).
  { unfold getSignature, readString.
    assert (Hseek : seek (Int 4) s = Ok (tt, moveTo s (Int 4))).
    { apply seek_in_bounds. unfold fileLength. fold buffer. lia. }
    step Hseek.
    assert (Hread : readBytes 20 (moveTo s (Int 4))
                    = Ok (slice buffer 4 20, moveTo (moveTo s (Int 4)) (Int (4 + 20)))).
    { apply readBytes_in_bounds; try reflexivity; try lia.
      unfold fileLength. simpl. fold buffer. lia. }
    step Hread. reflexivity. }
  step Hsig.
  destruct (existsb _ VALID_SIGNATURE_PREFIXES); simpl; [reflexivity|].
  assert (Hseek : seek (Int 0) (moveTo s (Int 24))
                  = Ok (tt, moveTo (moveTo s (Int 24)) (Int 0))).
  { apply seek_in_bounds. unfold fileLength. simpl. fold buffer. lia. }
  step Hseek.
  assert (Hread : readBytes (Z.min 50 len) (moveTo (moveTo s (Int 24)) (Int 0))
                  = Ok (slice buffer 0 (Z.min 50 len),
                        moveTo (moveTo (moveTo s (Int 24)) (Int 0))
                          (Int (0 + Z.min 50 len)))).
  { apply readBytes_in_bounds; try reflexivity; try lia.
    unfold fileLength. simpl. fold buffer. lia. }
  step Hread.
  fold firstBytes. by destruct (_ || _).
Qed.








(** ** Metadata blocks *)

Lemma splitAtChar_shorter c s before after :
  splitAtChar c s = Some (before, after) ->
  (String.length after < String.length s)%nat.
Proof.
  revert before. induction s as [|ch s IH]; intros before; simpl; [discriminate|].
  destruct (Ascii.eqb ch c).
  - intros [= _ <-]. lia.
  - destruct (splitAtChar c s) as [[b a]|]; [|discriminate].
    intros [= _ <-]. specialize (IH b eq_refl). lia.
Qed.

(** The fuel [metadataMatches] gives to [execAll] is enough: more fuel
    finds the same matches. *)
Lemma execAll_enough_fuel (n m : nat) :
  forall content,
    (String.length content < n)%nat -> (String.length content < m)%nat ->
    execAll n content = execAll m content.
Proof.
  revert m. induction n as [|n IH]; intros m content Hn Hm; [lia|].
  destruct m as [|m]; [lia|].
  destruct content as [|ch rest]; [reflexivity|].
  simpl in Hn, Hm. simpl.
  destruct (Ascii.eqb ch "<"); [|apply IH; lia].
  destruct (splitAtChar ":" rest) as [[[|k ks] afterColon]|] eqn:Hkey;
    try (apply IH; lia).
  destruct (splitAtChar ">" afterColon) as [[value afterMatch]|] eqn:Hvalue;
    [|apply IH; lia].
  f_equal. apply splitAtChar_shorter in Hkey, Hvalue.
  apply IH; lia.
Qed.

(** An address that is not a number passes both range checks of
    [parseMetadataBlock] and the check of [seek]; the read that follows
    throws. *)
Lemma parseMetadataBlock_NaN `{Host} (s : State) :
  parseMetadataBlock NaN s = Throw (ReadU32OutOfBounds NaN (fileLength (reader s))).
Proof. reflexivity. Qed.

(** [parseNotebook] passes such an address: the address of a layer is
    the [parseInt] of its text, unchecked, where the addresses of the header
    and of the pages are checked with [isNaN] first. *)
Lemma parseLayers_unparseable_address `{Host} pageMap layerKey layerAddrStr rest s :
  mapGet pageMap layerKey = Some layerAddrStr ->
  truthy layerAddrStr = true ->
  parseInt layerAddrStr = NaN ->
  parseLayers pageMap (layerKey :: rest) s
  = Throw (ReadU32OutOfBounds NaN (fileLength (reader s))).
Proof.
  intros Hget Htruthy Hnan. simpl. rewrite Hget, Htruthy, Hnan.
  apply bind_Throw. apply parseMetadataBlock_NaN.
Qed.

(** A file with such a layer address passes the validation and aborts the
    conversion, where a layer address out of range only logs a warning. *)
Example convertNoteToPdf_unparseable_layer_address :
  length noteWithBadLayerAddress = 100%nat
  /\ @validateNoteFile sampleHost (initialState noteWithBadLayerAddress)
     = Ok (tt, moveTo (initialState noteWithBadLayerAddress) (Int 24))
  /\ @convertNoteToPdf sampleHost noteWithBadLayerAddress
     = Throw (ReadU32OutOfBounds NaN 100).
Proof. repeat split; vm_compute; reflexivity. Qed.

(** On every integer address [parseMetadataBlock] returns a record: the
    empty one, silently, for address 0; the empty one and a warning for an
    address that is negative or leaves no room for the length prefix, and
    for a length prefix that is not positive or exceeds the rest of the
    buffer. *)
Lemma parseMetadataBlock_integer_address `{Host} (address : Z) (s : State) :
  let len := fileLength (reader s) in
  let blockLen := getUint32LE (data (reader s)) address in
  exists record s',
    parseMetadataBlock (Int address) s = Ok (record, s')
    /\ (address = 0 -> record = [] /\ s' = s)
    /\ (address <> 0 -> address < 0 \/ len - 4 < address ->
        record = []
        /\ s' = {| reader := reader s;
                   console := console s ++ [InvalidMetadataAddress (Int address) len] |})
    /\ (0 < address <= len - 4 ->
        blockLen <= 0 \/ len - address - 4 < blockLen ->
        record = []
        /\ console s' = console s ++ [InvalidBlockLength blockLen (Int address) len]).
Proof.
  intros len blockLen. unfold parseMetadataBlock. cbn [num_eq].
  destruct (Z.eqb_spec address 0) as [Hzero|Hnz].
  { returns_here. }
  unfold bind at 1. unfold getLength at 1. fold len. cbn [num_lt num_gt].
  destruct (Z.ltb_spec address 0) as [Hneg|Hpos]; simpl orb.
  { returns_here. }
  destruct (Z.gtb_spec address (len - 4)) as [Hbig|Hfit].
  { returns_here. }
  cbn [orb].
  assert (Hseek : seek (Int address) s = Ok (tt, moveTo s (Int address))).
  { apply seek_in_bounds. fold len. lia. }
  step Hseek.
  assert (Hread : readU32LE (moveTo s (Int address))
                  = Ok (blockLen, moveTo (moveTo s (Int address)) (Int (address + 4)))).
  { apply (readU32LE_in_bounds address (moveTo s (Int address))); try reflexivity; try lia.
    rewrite fileLength_moveTo. fold len. lia. }
  step Hread. cbn [num_sub num_gt]. fold blockLen.
  destruct (Z.leb_spec blockLen 0) as [Hnonpos|Hposlen]; simpl orb.
  { returns_here. }
  destruct (Z.gtb_spec blockLen (len - address - 4)) as [Hover|Hin].
  { returns_here. }
  cbn [orb]. unfold readString.
  assert (Hbytes : readBytes blockLen (moveTo (moveTo s (Int address)) (Int (address + 4)))
                   = Ok (slice (data (reader s)) (address + 4) blockLen,
                         moveTo (moveTo (moveTo s (Int address)) (Int (address + 4)))
                                (Int (address + 4 + blockLen)))).
  { apply (readBytes_in_bounds blockLen (address + 4)
                   (moveTo (moveTo s (Int address)) (Int (address + 4))));
      try reflexivity; try lia.
    rewrite !fileLength_moveTo. fold len. lia. }
  rewrite (bind_Ok _ _ _ _ _ (bind_Ok _ _ _ _ _ Hbytes)).
  returns_here.
Qed.

(** C6 fails on the code at the address [NaN]. For every buffer, reader
    position and log, [parseMetadataBlock] throws at that address instead
    of returning the empty record, although the address is what
    [parseInt] gives for the text of a layer address that is not a
    number. *)
Theorem parseMetadataBlock_throws_at_NaN `{Host} (s : State) :
  parseMetadataBlock NaN s = Throw (ReadU32OutOfBounds NaN (fileLength (reader s)))
  /\ forall record s', parseMetadataBlock NaN s <> Ok (record, s').
Proof. split; [reflexivity|]. intros record s'. discriminate. Qed.

(** ** The run-length decoder *)

(** Induction over a list two elements at a time, the way [rleLoop]
    consumes its input. *)
Lemma pairs_ind {A} (P : list A -> Prop) :
  P [] -> (forall x, P [x]) -> (forall x y l, P l -> P (x :: y :: l)) ->
  forall l, P l.
Proof.
  intros Hnil Hone Hstep l.
  assert (Hboth : P l /\ forall x, P (x :: l)).
  { induction l as [|y l [IH1 IH2]]; split; auto. }
  apply Hboth.
Qed.

(** A last unpaired byte is never read by the loop. *)
Lemma rleLoop_unpaired (compressedData : list byte) (b : byte) :
  Nat.Even (length compressedData) ->
  forall holder decompressed,
    rleLoop (compressedData ++ [b]) holder decompressed
    = rleLoop compressedData holder decompressed.
Proof.
  induction compressedData as [|x|x y l IH] using pairs_ind; intros Heven.
  - reflexivity.
  - destruct Heven as [k Hk]. simpl in Hk. lia.
  - assert (Hl : Nat.Even (length l)).
    { destruct Heven as [k Hk]. simpl in Hk. exists (k - 1)%nat. lia. }
    intros holder decompressed. simpl.
    destruct holder as [[prevColorCode prevLengthCode]|];
      repeat case_match; apply IH; assumption.
Qed.

(** C1. For every input byte sequence and every pair of pixel dimensions,
    [decodeRLE] throws nothing and returns exactly [width * height] pixels:
    the pixels of the runs followed by the transparent code [0x62] when
    the runs are too short, the first [width * height] pixels of the runs
    when they are too long. *)
Theorem decodeRLE_exact_length (compressedData : list byte) (width height : Z) :
  0 <= width -> 0 <= height ->
  let n := Z.to_nat (width * height) in
  let runs := rleRuns compressedData (width * height) in
  exists raster,
    decodeRLE compressedData width height = Ok raster
    /\ length raster = n
    /\ ((length runs <= n)%nat ->
        raster = runs ++ replicate (n - length runs) x62)
    /\ ((n <= length runs)%nat -> raster = take n runs).
Proof.
  intros Hw Hh n runs.
  assert (Hn : 0 <= width * height) by lia.
  unfold decodeRLE. fold runs.
  replace (Z.to_nat (width * height - Z.of_nat (length runs)))
    with (n - length runs)%nat by (unfold n; lia).
  destruct (Z.ltb_spec (width * height) 0) as [Hneg|_]; [lia|].
  rewrite length_app, length_replicate. fold n.
  destruct (Z.gtb_spec (Z.of_nat (length runs + (n - length runs))) (width * height))
    as [Hlong|Hfit].
  - assert (Hlt : (n < length runs)%nat) by (unfold n in *; lia).
    replace (n - length runs)%nat with 0%nat by lia.
    simpl. rewrite app_nil_r.
    exists (take n runs). repeat split.
    + rewrite length_take. lia.
    + intros ?. lia.
  - assert (Hle : (length runs <= n)%nat) by (unfold n in *; lia).
    exists (runs ++ replicate (n - length runs) x62). repeat split.
    + rewrite length_app, length_replicate. lia.
    + intros Hge. assert (Heq : n = length runs) by lia.
      rewrite Heq, Nat.sub_diag. simpl. rewrite app_nil_r.
      by rewrite firstn_all.
Qed.

Lemma decodeRLE_exact_length_witness :
  exists raster,
    decodeRLE [x61; x01; x65] 2 3 = Ok raster
    /\ length raster = 6%nat
    /\ ((length (rleRuns [x61; x01; x65] 6) <= 6)%nat ->
        raster = rleRuns [x61; x01; x65] 6
                 ++ replicate (6 - length (rleRuns [x61; x01; x65] 6)) x62)
    /\ ((6 <= length (rleRuns [x61; x01; x65] 6))%nat ->
        raster = take 6 (rleRuns [x61; x01; x65] 6)).
Proof.
  apply (decodeRLE_exact_length [x61; x01; x65] 2 3); lia.
Defined.

(** C2 (as amended). The pairs [(0x61, 0x85)] and [(0x61, 0x03)] decode to
    one run of [1 + 3 + (((0x85 & 0x7f) + 1) << 7)] pixels of colour
    [0x61], and that number is 772: the loop pushes these pixels and holds
    nothing at its end, and in a raster of 30 by 30 pixels they are
    followed by 128 pixels of padding. *)
Theorem escape_same_color_run :
  rleLoop [x61; x85; x61; x03] None []
  = (replicate (Z.to_nat (1 + 3 + Z.shiftl (Z.land 0x85 0x7f + 1) 7)) x61, None)
  /\ 1 + 3 + Z.shiftl (Z.land 0x85 0x7f + 1) 7 = 772
  /\ decodeRLE [x61; x85; x61; x03] 30 30
     = Ok (replicate 772 x61 ++ replicate 128 x62).
Proof. repeat split; vm_compute; reflexivity. Qed.

(** C2 as stated fails: the run is not 650 pixels long. *)
Lemma escape_same_color_not_650 :
  1 + 3 + Z.shiftl (Z.land 0x85 0x7f + 1) 7 <> 650
  /\ fst (rleLoop [x61; x85; x61; x03] None []) <> replicate 650 x61
  /\ length (fst (rleLoop [x61; x85; x61; x03] None [])) <> 650%nat
  /\ decodeRLE [x61; x85; x61; x03] 30 30
     <> Ok (replicate 650 x61 ++ replicate 250 x62).
Proof.
  split; [|split; [|split]].
  - vm_compute. discriminate.
  - intros Heq. apply (f_equal length) in Heq. vm_compute in Heq. discriminate.
  - vm_compute. discriminate.
  - intros Heq.
    assert (Hpixel : forall raster,
               decodeRLE [x61; x85; x61; x03] 30 30 = Ok raster ->
               raster !! 650%nat = Some x61).
    { intros raster. vm_compute. by intros [= <-]. }
    apply Hpixel in Heq. vm_compute in Heq. discriminate.
Qed.

(** C3 (as amended). The pairs [(0x61, 0x85)] and [(0x65, 0x03)] decode to
    [((0x85 & 0x7f) + 1) << 7] pixels of colour [0x61] immediately followed
    by 4 pixels of colour [0x65], and nothing else; that number is 768. In
    a raster of 30 by 30 pixels they are followed by 128 pixels of
    padding. *)
Theorem escape_flush_on_color_change :
  rleLoop [x61; x85; x65; x03] None []
  = (replicate (Z.to_nat (Z.shiftl (Z.land 0x85 0x7f + 1) 7)) x61
     ++ replicate 4 x65, None)
  /\ Z.shiftl (Z.land 0x85 0x7f + 1) 7 = 768
  /\ decodeRLE [x61; x85; x65; x03] 30 30
     = Ok (replicate 768 x61 ++ replicate 4 x65 ++ replicate 128 x62).
Proof. repeat split; vm_compute; reflexivity. Qed.

(** C3 as stated fails: the flushed run is not 640 pixels long, so the
    output neither is, nor starts with, 640 pixels of [0x61] followed by
    pixels of [0x65], and it holds more than 640 pixels of [0x61]. *)
Lemma escape_flush_not_640 :
  Z.shiftl (Z.land 0x85 0x7f + 1) 7 <> 640
  /\ fst (rleLoop [x61; x85; x65; x03] None [])
     <> replicate 640 x61 ++ replicate 4 x65
  /\ fst (rleLoop [x61; x85; x65; x03] None []) !! 640%nat = Some x61
  /\ length (List.filter (Byte.eqb x61)
               (fst (rleLoop [x61; x85; x65; x03] None []))) <> 640%nat.
Proof.
  split; [|split; [|split]].
  - vm_compute. discriminate.
  - intros Heq. apply (f_equal length) in Heq. vm_compute in Heq. discriminate.
  - vm_compute. reflexivity.
  - vm_compute. discriminate.
Qed.

(** C9. On an input of odd length the last byte contributes nothing:
    [decodeRLE] returns what it returns on the input without it. *)
Theorem decodeRLE_unpaired_byte (compressedData : list byte) (width height : Z) :
  Nat.Odd (length compressedData) ->
  decodeRLE compressedData width height
  = decodeRLE (removelast compressedData) width height.
Proof.
  intros Hodd.
  assert (Hne : compressedData <> []).
  { intros ->. destruct Hodd as [k Hk]. simpl in Hk. lia. }
  destruct (exists_last Hne) as [front [b Hsplit]]. subst compressedData.
  rewrite removelast_last.
  assert (Heven : Nat.Even (length front)).
  { rewrite length_app in Hodd. simpl in Hodd.
    rewrite Nat.add_1_r in Hodd. by apply Nat.Odd_succ. }
  unfold decodeRLE, rleRuns.
  by rewrite (rleLoop_unpaired front b Heven).
Qed.

Lemma decodeRLE_unpaired_byte_witness :
  Nat.Odd (length [x61; x01; x65])
  /\ decodeRLE [x61; x01; x65] 2 3 = decodeRLE [x61; x01] 2 3.
Proof.
  assert (Hodd : Nat.Odd (length [x61; x01; x65])) by (exists 1%nat; reflexivity).
  split; [exact Hodd|].
  exact (decodeRLE_unpaired_byte [x61; x01; x65] 2 3 Hodd).
Defined.

(** ** Rendering a page *)

Lemma fold_left_invariant {A B} (P : A -> Prop) (f : A -> B -> A) (l : list B) :
  (forall a b, P a -> P (f a b)) -> forall a, P a -> P (fold_left f l a).
Proof.
  intros Hstep. induction l as [|b l IH]; intros a Ha; simpl; auto.
Qed.

(** The three shapes of one compositing step. *)
Lemma compositePixel_cases `{Host} canvas idx r g b a :
  compositePixel canvas idx r g b a = canvas
  \/ compositePixel canvas idx r g b a
     = <[(idx + 3)%nat := xff]>
         (<[(idx + 2)%nat := storeU8 b]>
            (<[(idx + 1)%nat := storeU8 g]>
               (<[(idx + 0)%nat := storeU8 r]> canvas)))
  \/ exists x y z,
       compositePixel canvas idx r g b a
       = <[(idx + 2)%nat := z]>
           (<[(idx + 1)%nat := y]> (<[(idx + 0)%nat := x]> canvas)).
Proof.
  destruct a as [[]|]; simpl; first [by left | by (right; left) | by (right; right; eauto)].
Qed.

Lemma opaqueCanvas_insert_color n canvas k t v :
  (t < 3)%nat -> opaqueCanvas n canvas ->
  opaqueCanvas n (<[(k * 4 + t)%nat := v]> canvas).
Proof.
  intros Ht [Hlen Halpha]. split.
  - by rewrite length_insert.
  - intros i Hi. rewrite list_lookup_insert_ne by lia. by apply Halpha.
Qed.

Lemma opaqueCanvas_insert_alpha n canvas k :
  opaqueCanvas n canvas -> opaqueCanvas n (<[(k * 4 + 3)%nat := xff]> canvas).
Proof.
  intros [Hlen Halpha]. split.
  - by rewrite length_insert.
  - intros i Hi. destruct (decide (i = k)) as [->|Hne].
    + apply list_lookup_insert_eq. lia.
    + rewrite list_lookup_insert_ne by lia. by apply Halpha.
Qed.

Lemma compositePixel_opaque `{Host} n canvas k r g b a :
  opaqueCanvas n canvas -> opaqueCanvas n (compositePixel canvas (k * 4) r g b a).
Proof.
  intros Hc.
  destruct (compositePixel_cases canvas (k * 4) r g b a) as [->|[->|(x & y & z & ->)]].
  - exact Hc.
  - apply opaqueCanvas_insert_alpha.
    repeat apply opaqueCanvas_insert_color; auto with lia.
  - repeat apply opaqueCanvas_insert_color; auto with lia.
Qed.

Lemma compositeRLE_opaque `{Host} n canvas layerPixels m :
  opaqueCanvas n canvas -> opaqueCanvas n (compositeRLE canvas layerPixels m).
Proof.
  unfold compositeRLE. apply fold_left_invariant. intros c i Hc.
  destruct (toRGBAat (layerPixels !! i)) as [[[r g] b] a].
  by apply compositePixel_opaque.
Qed.

Lemma compositePNG_opaque `{Host} n canvas layerPixels m :
  opaqueCanvas n canvas -> opaqueCanvas n (compositePNG canvas layerPixels m).
Proof.
  unfold compositePNG. apply fold_left_invariant. intros c i Hc.
  by apply compositePixel_opaque.
Qed.

Lemma whiteCanvas_opaque width height canvas :
  whiteCanvas width height = Ok canvas ->
  opaqueCanvas (Z.to_nat (width * height)) canvas.
Proof.
  unfold whiteCanvas, newUint8Array.
  destruct (Z.ltb_spec (width * height * 4) 0) as [|Hn]; [discriminate|].
  intros [= <-].
  set (n := Z.to_nat (width * height)).
  replace (Z.to_nat (width * height * 4)) with (n * 4)%nat by lia.
  assert (Hk : forall k, (k <= n)%nat ->
             let c := fold_left
                        (fun canvas i =>
                           <[(i * 4 + 3)%nat := xff]>
                             (<[(i * 4 + 2)%nat := xff]>
                                (<[(i * 4 + 1)%nat := xff]>
                                   (<[(i * 4 + 0)%nat := xff]> canvas))))
                        (seq 0 k) (replicate (n * 4) x00) in
             length c = (n * 4)%nat
             /\ forall i, (i < k)%nat -> c !! (i * 4 + 3)%nat = Some xff).
  { induction k as [|k IH]; intros Hle.
    - simpl. split; [apply length_replicate|]. intros; lia.
    - rewrite seq_S, fold_left_app. simpl.
      destruct IH as [Hlen Halpha]; [lia|].
      split; [by rewrite !length_insert|].
      intros i Hi. destruct (decide (i = k)) as [->|Hne].
      + apply list_lookup_insert_eq. rewrite !length_insert. lia.
      + rewrite !list_lookup_insert_ne by lia. apply Halpha. lia. }
  exact (Hk n (le_n n)).
Qed.

Lemma bind_inv {A B} (m : M A) (k : A -> M B) s b s' :
  bind m k s = Ok (b, s') ->
  exists a s1, m s = Ok (a, s1) /\ k a s1 = Ok (b, s').
Proof.
  unfold bind. destruct (m s) as [[a s1]|e]; [eauto|discriminate].
Qed.

Lemma renderLayer_opaque `{Host} width height canvas layer s canvas' s' :
  opaqueCanvas (Z.to_nat (width * height)) canvas ->
  renderLayer width height canvas layer s = Ok (canvas', s') ->
  opaqueCanvas (Z.to_nat (width * height)) canvas'.
Proof.
  intros Hc. unfold renderLayer.
  destruct (num_eq (bitmapAddress layer) (Int 0)).
  { by intros [= <- _]. }
  intros Hrun. apply bind_inv in Hrun as (compressedData & s1 & _ & Hrun).
  destruct (String.eqb (protocol layer) "RATTA_RLE").
  { apply bind_inv in Hrun as (layerPixels & s2 & _ & Hrun).
    injection Hrun as <- _. by apply compositeRLE_opaque. }
  destruct (String.eqb (protocol layer) "PNG").
  { destruct (decodePNG compressedData width height) as [layerPixels|].
    - injection Hrun as <- _. by apply compositePNG_opaque.
    - by injection Hrun as <- _. }
  by injection Hrun as <- _.
Qed.

Lemma renderLayers_opaque `{Host} width height layers :
  forall canvas s canvas' s',
    opaqueCanvas (Z.to_nat (width * height)) canvas ->
    renderLayers width height canvas layers s = Ok (canvas', s') ->
    opaqueCanvas (Z.to_nat (width * height)) canvas'.
Proof.
  induction layers as [|layer rest IH]; intros canvas s canvas' s' Hc Hrun.
  - by injection Hrun as <- _.
  - simpl in Hrun. apply bind_inv in Hrun as (c1 & s1 & Hlayer & Hrest).
    eapply IH; [|exact Hrest].
    eapply renderLayer_opaque; eauto.
Qed.

(** C10. Whenever [renderPage] returns, the canvas it returns has
    [width * height] pixels of four bytes, and the alpha byte of every one
    of them is 255. *)
Theorem renderPage_alpha_opaque `{Host} (page : Page) (width height : Z)
    (s s' : State) (canvas : list byte) :
  renderPage page width height s = Ok (canvas, s') ->
  length canvas = (Z.to_nat (width * height) * 4)%nat
  /\ forall i, (i < Z.to_nat (width * height))%nat ->
               canvas !! (i * 4 + 3)%nat = Some xff.
Proof.
  unfold renderPage. intros Hrun.
  apply bind_inv in Hrun as (white & s1 & Hwhite & Hlayers).
  unfold liftResult in Hwhite.
  destruct (whiteCanvas width height) as [c|e] eqn:Hw; [|discriminate].
  injection Hwhite as -> ->.
  eapply renderLayers_opaque; [|exact Hlayers].
  by apply whiteCanvas_opaque.
Qed.

Lemma renderPage_alpha_opaque_witness :
  length [x00; x00; x00; xff] = (Z.to_nat (1 * 1) * 4)%nat
  /\ forall i, (i < Z.to_nat (1 * 1))%nat ->
               [x00; x00; x00; xff] !! (i * 4 + 3)%nat = Some xff.
Proof.
  apply (@renderPage_alpha_opaque sampleHost samplePage 1 1
           (initialState sampleBuffer)
           (moveTo (initialState sampleBuffer) (Int 7))).
  vm_compute. reflexivity.
Defined.

(** ** Opaque layers *)

Lemma fold_left_ext_in {A B} (f g : A -> B -> A) (l : list B) :
  (forall a b, In b l -> f a b = g a b) ->
  forall a, fold_left f l a = fold_left g l a.
Proof.
  induction l as [|b l IH]; intros Hext a; simpl; [reflexivity|].
  rewrite Hext by (by left). apply IH. intros a' b' Hin. apply Hext. by right.
Qed.

(** A loop of opaque steps writes its pixels over the whole canvas. *)
Lemma opaque_steps_overwrite `{Host} (R G B : nat -> option byte) (n : nat)
    (target canvas : list byte) :
  length canvas = (n * 4)%nat ->
  length target = (n * 4)%nat ->
  (forall i, (i < n)%nat ->
     target !! (i * 4 + 0)%nat = Some (storeU8 (R i))
     /\ target !! (i * 4 + 1)%nat = Some (storeU8 (G i))
     /\ target !! (i * 4 + 2)%nat = Some (storeU8 (B i))
     /\ target !! (i * 4 + 3)%nat = Some xff) ->
  fold_left (fun canvas i => compositePixel canvas (i * 4) (R i) (G i) (B i) (Some xff))
            (seq 0 n) canvas
  = target.
Proof.
  intros Hcanvas Htarget Hpix.
  assert (Hk : forall k, (k <= n)%nat ->
             let c := fold_left
                        (fun canvas i =>
                           compositePixel canvas (i * 4) (R i) (G i) (B i) (Some xff))
                        (seq 0 k) canvas in
             length c = (n * 4)%nat
             /\ forall j, (j < k * 4)%nat -> c !! j = target !! j).
  { induction k as [|k IH]; intros Hle.
    - simpl. split; [exact Hcanvas|]. intros; lia.
    - rewrite seq_S, fold_left_app.
      destruct IH as [Hlen Hsame]; [lia|].
      set (c := fold_left _ (seq 0 k) canvas) in *. simpl.
      destruct (Hpix k) as (H0 & H1 & H2 & H3); [lia|].
      split; [by rewrite !length_insert|].
      intros j Hj.
      destruct (decide (j = k * 4 + 3)%nat) as [->|N3].
      { rewrite H3. apply list_lookup_insert_eq. rewrite !length_insert. lia. }
      rewrite list_lookup_insert_ne by lia.
      destruct (decide (j = k * 4 + 2)%nat) as [->|N2].
      { rewrite H2. apply list_lookup_insert_eq. rewrite !length_insert. lia. }
      rewrite list_lookup_insert_ne by lia.
      destruct (decide (j = k * 4 + 1)%nat) as [->|N1].
      { rewrite H1. apply list_lookup_insert_eq. rewrite !length_insert. lia. }
      rewrite list_lookup_insert_ne by lia.
      destruct (decide (j = k * 4 + 0)%nat) as [->|N0].
      { rewrite H0. apply list_lookup_insert_eq. lia. }
      rewrite list_lookup_insert_ne by lia.
      apply Hsame. lia. }
  destruct (Hk n (le_n n)) as [Hlen Hsame].
  apply list_eq. intros j.
  destruct (decide (j < n * 4)%nat) as [Hj|Hj]; [by apply Hsame|].
  rewrite !lookup_ge_None_2 by lia. reflexivity.
Qed.

Lemma layerColors_lookup (layerPixels : list byte) (i : nat) (p : byte) :
  layerPixels !! i = Some p ->
  let '(r, g, b, a) := toRGBA p in
  layerColors layerPixels !! (i * 4 + 0)%nat = Some r
  /\ layerColors layerPixels !! (i * 4 + 1)%nat = Some g
  /\ layerColors layerPixels !! (i * 4 + 2)%nat = Some b
  /\ layerColors layerPixels !! (i * 4 + 3)%nat = Some a.
Proof.
  revert i. induction layerPixels as [|q l IH]; intros i Hi; [discriminate|].
  destruct i as [|i].
  - injection Hi as ->. unfold layerColors. simpl.
    destruct (toRGBA p) as [[[r g] b] a]. simpl. auto.
  - simpl in Hi. specialize (IH i Hi).
    destruct (toRGBA p) as [[[r g] b] a].
    unfold layerColors in *. simpl flat_map.
    destruct (toRGBA q) as [[[r' g'] b'] a']. simpl.
    exact IH.
Qed.

Lemma length_layerColors layerPixels :
  length (layerColors layerPixels) = (length layerPixels * 4)%nat.
Proof.
  induction layerPixels as [|q l IH]; [reflexivity|].
  unfold layerColors in *. simpl.
  destruct (toRGBA q) as [[[r g] b] a]. simpl. lia.
Qed.

Lemma compositePNG_opaque_layer `{Host} n canvas layerPixels :
  length canvas = (n * 4)%nat ->
  length layerPixels = (n * 4)%nat ->
  (forall i, (i < n)%nat -> layerPixels !! (i * 4 + 3)%nat = Some xff) ->
  compositePNG canvas layerPixels n = layerPixels.
Proof.
  intros Hcanvas Hlayer Halpha. unfold compositePNG.
  rewrite (fold_left_ext_in _
             (fun canvas i =>
                compositePixel canvas (i * 4)
                  (layerPixels !! (i * 4 + 0)%nat) (layerPixels !! (i * 4 + 1)%nat)
                  (layerPixels !! (i * 4 + 2)%nat) (Some xff))).
  - apply opaque_steps_overwrite; auto.
    intros i Hi.
    destruct (lookup_lt_is_Some_2 layerPixels (i * 4 + 0)) as [r Hr]; [lia|].
    destruct (lookup_lt_is_Some_2 layerPixels (i * 4 + 1)) as [g Hg]; [lia|].
    destruct (lookup_lt_is_Some_2 layerPixels (i * 4 + 2)) as [b Hb]; [lia|].
    rewrite Hr, Hg, Hb. simpl. auto.
  - intros c i Hin. apply in_seq in Hin. rewrite Halpha by lia. reflexivity.
Qed.

Lemma compositeRLE_opaque_layer `{Host} n canvas layerPixels :
  length canvas = (n * 4)%nat ->
  length layerPixels = n ->
  (forall i p, layerPixels !! i = Some p -> snd (toRGBA p) = xff) ->
  compositeRLE canvas layerPixels n = layerColors layerPixels.
Proof.
  intros Hcanvas Hlayer Halpha. unfold compositeRLE.
  rewrite (fold_left_ext_in _
             (fun canvas i =>
                compositePixel canvas (i * 4)
                  (fst (fst (fst (toRGBAat (layerPixels !! i)))))
                  (snd (fst (fst (toRGBAat (layerPixels !! i)))))
                  (snd (fst (toRGBAat (layerPixels !! i))))
                  (Some xff))).
  - apply opaque_steps_overwrite; auto.
    + rewrite length_layerColors. lia.
    + intros i Hi.
      destruct (lookup_lt_is_Some_2 layerPixels i) as [p Hp]; [lia|].
      pose proof (layerColors_lookup layerPixels i p Hp) as Hcol.
      pose proof (Halpha i p Hp) as Ha.
      rewrite Hp. unfold toRGBAat.
      destruct (toRGBA p) as [[[r g] b] a]. simpl in *. subst a. exact Hcol.
  - intros c i Hin. apply in_seq in Hin.
    destruct (lookup_lt_is_Some_2 layerPixels i) as [p Hp]; [lia|].
    pose proof (Halpha i p Hp) as Ha.
    rewrite Hp. unfold toRGBAat.
    destruct (toRGBA p) as [[[r g] b] a]. simpl in *. by subst a.
Qed.

(** C8. Compositing a layer whose alpha is 255 at every pixel over a
    canvas of the same size gives the colours of the layer at every pixel,
    and so the same canvas whatever the canvas held before: for a PNG layer
    the result is the RGBA pixels of the layer, for a RATTA_RLE layer the
    colours [toRGBA] gives to its codes. *)
Theorem opaque_layer_overwrites `{Host} (n : nat)
    (canvas canvas' pngPixels rlePixels : list byte) :
  length canvas = (n * 4)%nat ->
  length canvas' = (n * 4)%nat ->
  length pngPixels = (n * 4)%nat ->
  (forall i, (i < n)%nat -> pngPixels !! (i * 4 + 3)%nat = Some xff) ->
  length rlePixels = n ->
  (forall i p, rlePixels !! i = Some p -> snd (toRGBA p) = xff) ->
  compositePNG canvas pngPixels n = pngPixels
  /\ compositePNG canvas' pngPixels n = compositePNG canvas pngPixels n
  /\ compositeRLE canvas rlePixels n = layerColors rlePixels
  /\ compositeRLE canvas' rlePixels n = compositeRLE canvas rlePixels n.
Proof.
  intros Hc Hc' Hpng Hpnga Hrle Hrlea.
  rewrite !compositePNG_opaque_layer, !compositeRLE_opaque_layer by assumption.
  auto.
Qed.

Lemma opaque_layer_overwrites_witness :
  @compositePNG sampleHost [x01; x02; x03; xff] [x0a; x0b; x0c; xff] 1
  = [x0a; x0b; x0c; xff]
  /\ @compositePNG sampleHost [x09; x09; x09; xff] [x0a; x0b; x0c; xff] 1
     = @compositePNG sampleHost [x01; x02; x03; xff] [x0a; x0b; x0c; xff] 1
  /\ @compositeRLE sampleHost [x01; x02; x03; xff] [x61] 1 = layerColors [x61]
  /\ @compositeRLE sampleHost [x09; x09; x09; xff] [x61] 1
     = @compositeRLE sampleHost [x01; x02; x03; xff] [x61] 1.
Proof.
  apply (@opaque_layer_overwrites sampleHost 1
           [x01; x02; x03; xff] [x09; x09; x09; xff] [x0a; x0b; x0c; xff] [x61]);
    try reflexivity.
  - intros i Hi. assert (i = 0%nat) as -> by lia. reflexivity.
  - intros [|i] p Hp; simpl in Hp; [|discriminate].
    injection Hp as <-. reflexivity.
Defined.

(** ** Layers of an unknown protocol *)

Lemma agree_bind {A B} (m : M A) (k : A -> M B) s1 s2 :
  agree (m s1) (m s2) ->
  (forall a t1 t2, data (reader t1) = data (reader t2) -> agree (k a t1) (k a t2)) ->
  agree (bind m k s1) (bind m k s2).
Proof.
  unfold bind. intros Hm Hk.
  destruct (m s1) as [[a1 t1]|e1], (m s2) as [[a2 t2]|e2]; simpl in Hm; try done.
  destruct Hm as [<- Hdata]. by apply Hk.
Qed.

(** The reads depend on the buffer and the position alone. *)
Lemma seek_agree p s1 s2 :
  data (reader s1) = data (reader s2) ->
  match seek p s1, seek p s2 with
  | Ok (_, t1), Ok (_, t2) => reader t1 = reader t2 /\ t1 = moveTo s1 p
  | Throw e1, Throw e2 => e1 = e2
  | _, _ => False
  end.
Proof.
  intros Hdata. unfold seek, bind, getLength, setPos, throw, fileLength.
  rewrite Hdata. destruct (_ || _); [reflexivity|].
  split; [|reflexivity]. unfold moveTo. simpl. by rewrite Hdata.
Qed.

Lemma readU32LE_agree s1 s2 :
  reader s1 = reader s2 ->
  match readU32LE s1, readU32LE s2 with
  | Ok (v1, t1), Ok (v2, t2) => v1 = v2 /\ reader t1 = reader t2
  | Throw e1, Throw e2 => e1 = e2
  | _, _ => False
  end.
Proof.
  intros Hr. unfold readU32LE. rewrite Hr.
  destruct (negb _); [reflexivity|].
  destruct (pos (reader s2)); [|reflexivity].
  split; [reflexivity|]. unfold moveTo. simpl. by rewrite Hr.
Qed.

Lemma readBytes_agree len s1 s2 :
  reader s1 = reader s2 ->
  match readBytes len s1, readBytes len s2 with
  | Ok (v1, t1), Ok (v2, t2) => v1 = v2 /\ reader t1 = reader t2
  | Throw e1, Throw e2 => e1 = e2
  | _, _ => False
  end.
Proof.
  intros Hr. unfold readBytes. rewrite Hr.
  destruct (len <? 0); [reflexivity|].
  destruct (negb _); [reflexivity|].
  destruct (pos (reader s2)); [|reflexivity].
  split; [reflexivity|]. unfold moveTo. simpl. by rewrite Hr.
Qed.

Lemma readBitmapBlock_agree address s1 s2 :
  data (reader s1) = data (reader s2) ->
  agree (readBitmapBlock address s1) (readBitmapBlock address s2).
Proof.
  intros Hdata. unfold readBitmapBlock, bind.
  pose proof (seek_agree address s1 s2 Hdata) as Hseek.
  destruct (seek address s1) as [[[] t1]|e1], (seek address s2) as [[[] t2]|e2];
    try done.
  destruct Hseek as [Hr _].
  pose proof (readU32LE_agree t1 t2 Hr) as Hlen.
  destruct (readU32LE t1) as [[v1 u1]|e1], (readU32LE t2) as [[v2 u2]|e2]; try done.
  destruct Hlen as [<- Hr'].
  pose proof (readBytes_agree v1 u1 u2 Hr') as Hbytes.
  destruct (readBytes v1 u1) as [[b1 w1]|e1], (readBytes v1 u2) as [[b2 w2]|e2];
    try done.
  destruct Hbytes as [<- Hr'']. split; [reflexivity|]. by rewrite Hr''.
Qed.

(** The reads leave the buffer and the warnings as they were. *)
Lemma readBitmapBlock_frame address s bytes s' :
  readBitmapBlock address s = Ok (bytes, s') ->
  data (reader s') = data (reader s) /\ console s' = console s.
Proof.
  unfold readBitmapBlock. intros Hrun.
  apply bind_inv in Hrun as ([] & s1 & Hseek & Hrun).
  apply bind_inv in Hrun as (blockLen & s2 & Hlen & Hbytes).
  assert (H1 : data (reader s1) = data (reader s) /\ console s1 = console s).
  { unfold seek, bind, getLength, setPos, throw in Hseek.
    destruct (_ || _); [discriminate|]. by injection Hseek as <-. }
  assert (H2 : data (reader s2) = data (reader s1) /\ console s2 = console s1).
  { unfold readU32LE in Hlen. destruct (negb _); [discriminate|].
    destruct (pos (reader s1)); [|discriminate]. by injection Hlen as _ <-. }
  assert (H3 : data (reader s') = data (reader s2) /\ console s' = console s2).
  { unfold readBytes in Hbytes. destruct (blockLen <? 0); [discriminate|].
    destruct (negb _); [discriminate|].
    destruct (pos (reader s2)); [|discriminate]. by injection Hbytes as _ <-. }
  destruct H1, H2, H3. split; congruence.
Qed.

Lemma renderLayer_agree `{Host} width height canvas layer s1 s2 :
  data (reader s1) = data (reader s2) ->
  agree (renderLayer width height canvas layer s1)
        (renderLayer width height canvas layer s2).
Proof.
  intros Hdata. unfold renderLayer.
  destruct (num_eq (bitmapAddress layer) (Int 0)); [by split|].
  apply agree_bind; [by apply readBitmapBlock_agree|].
  intros compressedData t1 t2 Ht.
  destruct (String.eqb (protocol layer) "RATTA_RLE").
  { unfold bind, liftResult.
    destruct (decodeRLE compressedData width height); [by split|reflexivity]. }
  destruct (String.eqb (protocol layer) "PNG").
  { destruct (decodePNG compressedData width height); by split. }
  by split.
Qed.

Lemma renderLayer_buffer `{Host} width height canvas layer s canvas' s' :
  renderLayer width height canvas layer s = Ok (canvas', s') ->
  data (reader s') = data (reader s).
Proof.
  unfold renderLayer.
  destruct (num_eq (bitmapAddress layer) (Int 0)); [by intros [= _ <-]|].
  intros Hrun. apply bind_inv in Hrun as (compressedData & s1 & Hblock & Hrun).
  apply readBitmapBlock_frame in Hblock as [Hdata _]. rewrite <- Hdata.
  destruct (String.eqb (protocol layer) "RATTA_RLE").
  { apply bind_inv in Hrun as (layerPixels & s2 & Hdec & Hrun).
    unfold liftResult in Hdec.
    destruct (decodeRLE compressedData width height); [|discriminate].
    injection Hdec as _ <-. by injection Hrun as _ <-. }
  destruct (String.eqb (protocol layer) "PNG").
  { destruct (decodePNG compressedData width height);
      by injection Hrun as _ <-. }
  by injection Hrun as _ <-.
Qed.

Lemma renderLayers_agree `{Host} width height layers :
  forall canvas s1 s2,
    data (reader s1) = data (reader s2) ->
    agree (renderLayers width height canvas layers s1)
          (renderLayers width height canvas layers s2).
Proof.
  induction layers as [|layer rest IH]; intros canvas s1 s2 Hdata.
  - by split.
  - simpl. apply agree_bind; [by apply renderLayer_agree|].
    intros c t1 t2 Ht. by apply IH.
Qed.

Lemma renderLayers_buffer `{Host} width height layers :
  forall canvas s canvas' s',
    renderLayers width height canvas layers s = Ok (canvas', s') ->
    data (reader s') = data (reader s).
Proof.
  induction layers as [|layer rest IH]; intros canvas s canvas' s' Hrun.
  - by injection Hrun as _ <-.
  - simpl in Hrun. apply bind_inv in Hrun as (c1 & s1 & Hlayer & Hrest).
    apply IH in Hrest. apply renderLayer_buffer in Hlayer. congruence.
Qed.

Lemma renderLayers_app `{Host} width height pre post canvas s :
  renderLayers width height canvas (pre ++ post) s
  = bind (renderLayers width height canvas pre)
         (fun canvas => renderLayers width height canvas post) s.
Proof.
  revert canvas s. induction pre as [|layer pre IH]; intros canvas s.
  - reflexivity.
  - simpl. unfold bind.
    destruct (renderLayer width height canvas layer s) as [[c1 s1]|e]; [|reflexivity].
    rewrite IH. reflexivity.
Qed.

(** What one iteration does with a layer of unknown protocol. *)
Lemma renderLayer_unknown `{Host} width height canvas layer s :
  String.eqb (protocol layer) "RATTA_RLE" = false ->
  String.eqb (protocol layer) "PNG" = false ->
  renderLayer width height canvas layer s =
  if num_eq (bitmapAddress layer) (Int 0) then Ok (canvas, s)
  else match readBitmapBlock (bitmapAddress layer) s with
       | Ok (_, s1) =>
           Ok (canvas, {| reader := reader s1;
                          console := console s1
                                     ++ [UnknownLayerProtocol (protocol layer)] |})
       | Throw e => Throw e
       end.
Proof.
  intros Hrle Hpng. unfold renderLayer. rewrite Hrle, Hpng.
  destruct (num_eq _ _); [reflexivity|].
  unfold bind. by destruct (readBitmapBlock _ s) as [[d s1]|e].
Qed.

(** C7 (as amended). A layer whose protocol is neither RATTA_RLE nor PNG,
    and whose bitmap address is 0 or that of a block that can be read from
    the buffer, is skipped: its iteration of the layer loop returns the
    canvas as it was, throws nothing, and logs the unknown protocol when it
    has read the block; and a page renders with the layer as it renders
    without it, to the same canvas or to the same error. *)
Theorem unknown_protocol_skipped `{Host} (width height : Z) (layer : Layer)
    (s : State) :
  String.eqb (protocol layer) "RATTA_RLE" = false ->
  String.eqb (protocol layer) "PNG" = false ->
  (num_eq (bitmapAddress layer) (Int 0) = true
   \/ exists bytes s1, readBitmapBlock (bitmapAddress layer) s = Ok (bytes, s1)) ->
  (forall canvas, exists s',
      renderLayer width height canvas layer s = Ok (canvas, s')
      /\ data (reader s') = data (reader s)
      /\ console s'
         = if num_eq (bitmapAddress layer) (Int 0) then console s
           else console s ++ [UnknownLayerProtocol (protocol layer)])
  /\ (forall pageAddr before after,
        agree (renderPage {| addr := pageAddr; layers := before ++ layer :: after |}
                          width height s)
              (renderPage {| addr := pageAddr; layers := before ++ after |}
                          width height s)).
Proof.
  intros Hrle Hpng Hreadable.
  assert (Hskip : forall canvas t, data (reader t) = data (reader s) ->
            exists t', renderLayer width height canvas layer t = Ok (canvas, t')
                       /\ data (reader t') = data (reader s)).
  { intros canvas t Ht. rewrite renderLayer_unknown by assumption.
    destruct (num_eq (bitmapAddress layer) (Int 0)) eqn:Hzero; [by eauto|].
    destruct Hreadable as [|(bytes & s1 & Hblock)]; [discriminate|].
    pose proof (readBitmapBlock_agree (bitmapAddress layer) t s Ht) as Hagree.
    rewrite Hblock in Hagree.
    destruct (readBitmapBlock (bitmapAddress layer) t) as [[d t1]|e] eqn:Hblock';
      [|done].
    apply readBitmapBlock_frame in Hblock' as [Hdata _].
    eexists. split; [reflexivity|]. simpl. congruence. }
  split.
  - intros canvas. rewrite renderLayer_unknown by assumption.
    destruct (num_eq (bitmapAddress layer) (Int 0)) eqn:Hzero; [by eauto|].
    destruct Hreadable as [|(bytes & s1 & Hblock)]; [discriminate|].
    rewrite Hblock. apply readBitmapBlock_frame in Hblock as [Hdata Hlog].
    eexists. split; [reflexivity|]. simpl. by rewrite Hdata, Hlog.
  - intros pageAddr before after. unfold renderPage. simpl layers.
    unfold bind at 1 2. unfold liftResult.
    destruct (whiteCanvas width height) as [white|e]; [|reflexivity].
    rewrite !renderLayers_app. unfold bind at 1 2.
    destruct (renderLayers width height white before s) as [[c1 u1]|e] eqn:Hbefore;
      [|reflexivity].
    apply renderLayers_buffer in Hbefore.
    simpl. unfold bind.
    destruct (Hskip c1 u1 Hbefore) as (u1' & -> & Hu1').
    apply renderLayers_agree. congruence.
Qed.

Lemma unknown_protocol_skipped_witness :
  (forall canvas, exists s',
      @renderLayer sampleHost 1 1 canvas unknownLayer (initialState sampleBuffer)
      = Ok (canvas, s')
      /\ data (reader s') = data (reader (initialState sampleBuffer))
      /\ console s'
         = if num_eq (bitmapAddress unknownLayer) (Int 0)
           then console (initialState sampleBuffer)
           else console (initialState sampleBuffer)
                ++ [UnknownLayerProtocol (protocol unknownLayer)])
  /\ (forall pageAddr before after,
        agree (@renderPage sampleHost
                 {| addr := pageAddr; layers := before ++ unknownLayer :: after |}
                 1 1 (initialState sampleBuffer))
              (@renderPage sampleHost
                 {| addr := pageAddr; layers := before ++ after |}
                 1 1 (initialState sampleBuffer))).
Proof.
  apply (@unknown_protocol_skipped sampleHost 1 1 unknownLayer
           (initialState sampleBuffer)).
  - reflexivity.
  - reflexivity.
  - right. eexists _, _. vm_compute. reflexivity.
Defined.

(** C7 as stated fails: the bitmap block of a layer is read before its
    protocol is looked at, so a layer of an unknown protocol whose bitmap
    address lies behind the end of the buffer makes [renderPage] throw. *)
Lemma unknown_protocol_layer_aborts :
  String.eqb (protocol staleLayer) "RATTA_RLE" = false
  /\ String.eqb (protocol staleLayer) "PNG" = false
  /\ @renderPage sampleHost {| addr := Int 0; layers := [staleLayer] |} 1 1
        (initialState sampleBuffer)
      = Throw (SeekOutOfBounds (Int 1000) 7).
Proof. repeat split. Qed.

(** ** The PDF emitter *)

Lemma encode_app (a b : string) : encode (a +:+ b) = encode a ++ encode b.
Proof.
  unfold encode. induction a as [|c a IH]; [reflexivity|].
  simpl. by rewrite IH, app_assoc.
Qed.

Lemma written_writeBytes bytes w : written (writeBytes bytes w) = written w ++ bytes.
Proof. unfold written, writeBytes. simpl. by rewrite concat_app; simpl; rewrite app_nil_r. Qed.

Lemma written_write text w : written (write text w) = written w ++ encode text.
Proof. apply written_writeBytes. Qed.

Lemma writeBytes_offsets bytes w :
  offsetsPointAtObjects w -> offsetsPointAtObjects (writeBytes bytes w).
Proof.
  intros [Hoff Hobj]. split.
  - rewrite written_writeBytes, length_app. simpl. lia.
  - intros k offset Hk. simpl in Hk.
    destruct (Hobj k offset Hk) as [Hrange Hprefix].
    rewrite written_writeBytes, length_app. split; [lia|].
    rewrite drop_app_le by lia. by apply prefix_app_r.
Qed.

Lemma write_offsets text w :
  offsetsPointAtObjects w -> offsetsPointAtObjects (write text w).
Proof. apply writeBytes_offsets. Qed.

(** Pushing the offset and then writing an object that starts with the
    declaration of the next object number. *)
Lemma write_object_offsets (n : Z) (body : string) (w : PdfWriter) :
  offsetsPointAtObjects w ->
  n = Z.of_nat (length (xrefOffsets w)) + 1 ->
  offsetsPointAtObjects (write (objectDeclaration n +:+ body) (pushOffset w)).
Proof.
  intros [Hoff Hobj] Hn. split.
  - rewrite written_write, length_app. simpl. unfold written in *. simpl. lia.
  - intros k offset Hk. simpl in Hk.
    rewrite written_write, length_app.
    change (written (pushOffset w)) with (written w).
    apply lookup_app_Some in Hk as [Hk|[Hlen Hk]].
    + destruct (Hobj k offset Hk) as [Hrange Hprefix]. split; [lia|].
      rewrite drop_app_le by lia. by apply prefix_app_r.
    + destruct (k - length (xrefOffsets w))%nat as [|j] eqn:Hj; [|by destruct j].
      injection Hk as <-. split; [lia|].
      rewrite Hoff, Nat2Z.id, drop_app_length, encode_app.
      replace (Z.of_nat k + 1) with n by lia.
      by apply prefix_app_r.
Qed.

Lemma string_app_assoc (a b c : string) : a +:+ b +:+ c = (a +:+ b) +:+ c.
Proof.
  induction a as [|ch a IH]; [reflexivity|].
  change (String ch (a +:+ b +:+ c) = String ch ((a +:+ b) +:+ c)).
  by f_equal.
Qed.

Lemma string_length_app (a b : string) :
  String.length (a +:+ b) = (String.length a + String.length b)%nat.
Proof.
  induction a as [|ch a IH]; [reflexivity|].
  change (S (String.length (a +:+ b)) = S (String.length a + String.length b)).
  by rewrite IH.
Qed.

Lemma append_assoc3 (a b c r : string) :
  a +:+ b +:+ c +:+ r = (a +:+ b +:+ c) +:+ r.
Proof. by rewrite !string_app_assoc. Qed.

Lemma catalogObject_declaration :
  exists body, catalogObject = objectDeclaration 1 +:+ body.
Proof. eexists. reflexivity. Qed.

Lemma pagesObject_declaration n :
  exists body, pagesObject n = objectDeclaration 2 +:+ body.
Proof. eexists. reflexivity. Qed.

Lemma pageObject_declaration a b c d e :
  exists body, pageObject a b c d e = objectDeclaration a +:+ body.
Proof. eexists. unfold pageObject, objectDeclaration. apply append_assoc3. Qed.

Lemma contentsObject_declaration a contents :
  exists body, contentsObject a contents = objectDeclaration a +:+ body.
Proof. eexists. unfold contentsObject, objectDeclaration. apply append_assoc3. Qed.

Lemma imageObjectHead_declaration a b c d :
  exists body, imageObjectHead a b c d = objectDeclaration a +:+ body.
Proof. eexists. unfold imageObjectHead, objectDeclaration. apply append_assoc3. Qed.

Lemma emitPage_offsets `{Host} width height i pageImage w :
  0 <= i ->
  offsetsPointAtObjects w ->
  Z.of_nat (length (xrefOffsets w)) = i * 3 + 2 ->
  offsetsPointAtObjects (emitPage width height i pageImage w)
  /\ Z.of_nat (length (xrefOffsets (emitPage width height i pageImage w)))
     = (i + 1) * 3 + 2.
Proof.
  intros Hi Hw Hlen. unfold emitPage. cbv zeta.
  destruct (pageObject_declaration (i * 3 + 3) (i * 3 + 4) (i * 3 + 5)
              (toPoints width) (toPoints height)) as [body1 ->].
  destruct (contentsObject_declaration (i * 3 + 4)
              (pageContents (toPoints width) (toPoints height))) as [body2 ->].
  destruct (imageObjectHead_declaration (i * 3 + 5) width height
              (Z.of_nat (length (deflate pageImage)))) as [body3 ->].
  split.
  - apply write_offsets, writeBytes_offsets.
    apply write_object_offsets; [|simpl; rewrite !length_app; simpl; lia].
    apply write_object_offsets; [|simpl; rewrite !length_app; simpl; lia].
    apply write_object_offsets; [exact Hw|lia].
  - simpl. rewrite !length_app. simpl. lia.
Qed.

Lemma emitPages_offsets `{Host} width height pageImages :
  forall i w,
    0 <= i ->
    offsetsPointAtObjects w ->
    Z.of_nat (length (xrefOffsets w)) = i * 3 + 2 ->
    offsetsPointAtObjects (emitPages width height i pageImages w)
    /\ Z.of_nat (length (xrefOffsets (emitPages width height i pageImages w)))
       = (i + Z.of_nat (length pageImages)) * 3 + 2.
Proof.
  induction pageImages as [|pageImage rest IH]; intros i w Hi Hw Hlen.
  - simpl. split; [exact Hw|lia].
  - simpl emitPages.
    destruct (emitPage_offsets width height i pageImage w Hi Hw Hlen) as [Hw' Hlen'].
    destruct (IH (i + 1) _ ltac:(lia) Hw' Hlen') as [Hall Hcount].
    split; [exact Hall|]. rewrite Hcount. simpl length. lia.
Qed.

Lemma emitObjects_offsets `{Host} pageImages width height :
  offsetsPointAtObjects (emitObjects pageImages width height)
  /\ length (xrefOffsets (emitObjects pageImages width height))
     = (2 + 3 * length pageImages)%nat.
Proof.
  unfold emitObjects. cbv zeta.
  destruct catalogObject_declaration as [body1 ->].
  destruct (pagesObject_declaration (length pageImages)) as [body2 ->].
  edestruct (emitPages_offsets width height pageImages 0) as [Hall Hcount];
    [lia| | |split; [exact Hall|lia]].
  - apply write_object_offsets; [|reflexivity].
    apply write_object_offsets; [|reflexivity].
    apply write_offsets. split; [reflexivity|]. intros k offset Hk. discriminate.
  - reflexivity.
Qed.

(** The cross-reference section goes behind what is written. *)
Lemma written_xref_entries offsets w :
  written (fold_left (fun w offset => write (xrefEntry offset) w) offsets w)
  = written w ++ encode (String.concat "" (map xrefEntry offsets)).
Proof.
  revert w. induction offsets as [|offset rest IH]; intros w.
  - simpl. by rewrite app_nil_r.
  - simpl fold_left. rewrite IH, written_write, <- app_assoc. f_equal.
    destruct rest as [|offset' rest'].
    + simpl. by rewrite app_nil_r.
    + change (String.concat "" (map xrefEntry (offset :: offset' :: rest')))
        with (xrefEntry offset +:+ "" +:+ String.concat "" (map xrefEntry (offset' :: rest'))).
      by rewrite !encode_app.
Qed.

Lemma written_emitXref w :
  written (emitXref w)
  = written w ++ encode (xrefSection (xrefOffsets w) (byteOffset w)).
Proof.
  unfold emitXref, xrefSection. cbv zeta.
  rewrite !written_write, written_xref_entries, !written_write.
  rewrite !encode_app, <- !app_assoc. reflexivity.
Qed.

Lemma zeros_digits (k : nat) (d : Decimal.uint) :
  string_of_list_ascii (replicate k "0"%char) +:+ NilEmpty.string_of_uint d
  = NilEmpty.string_of_uint (Nat.iter k Decimal.D0 d).
Proof.
  induction k as [|k IH]; [reflexivity|].
  simpl. change (String "0" (string_of_list_ascii (replicate k "0"%char) +:+ NilEmpty.string_of_uint d) = String "0" (NilEmpty.string_of_uint (Nat.iter k Decimal.D0 d))).
  by f_equal.
Qed.

Lemma of_uint_zeros (k : nat) (d : Decimal.uint) :
  Z.of_uint (Nat.iter k Decimal.D0 d) = Z.of_uint d.
Proof. induction k as [|k IH]; [reflexivity|]. simpl. exact IH. Qed.

Lemma readDecimal_padStart0 (n : nat) (z : Z) :
  0 <= z -> readDecimal (padStart0 n (toString z)) = Some z.
Proof.
  intros Hz. unfold readDecimal, padStart0, toString.
  assert (Hstr : exists d, NilZero.string_of_int (Z.to_int z) = NilEmpty.string_of_uint d
                           /\ Z.of_uint d = z) .
  { destruct z as [|p|p]; [| |lia].
    - exists (Decimal.D0 Decimal.Nil). split; reflexivity.
    - exists (Pos.to_uint p). split.
      + simpl. unfold NilZero.string_of_uint.
        pose proof (DecimalPos.Unsigned.to_uint_nonnil p) as Hnil.
        by destruct (Pos.to_uint p).
      + pose proof (DecimalZ.of_to (Z.pos p)) as Hrt. exact Hrt. }
  destruct Hstr as (d & -> & Hd).
  rewrite zeros_digits, NilEmpty.usu. simpl. by rewrite of_uint_zeros, Hd.
Qed.

Lemma written_pushOffset w : written (pushOffset w) = written w.
Proof. reflexivity. Qed.

Lemma extends_refl w : extends w w.
Proof. split; exists []; by rewrite app_nil_r. Qed.

Lemma extends_trans w1 w2 w3 : extends w1 w2 -> extends w2 w3 -> extends w1 w3.
Proof.
  intros [[o1 Ho1] [b1 Hb1]] [[o2 Ho2] [b2 Hb2]]. split.
  - exists (o1 ++ o2). by rewrite Ho2, Ho1, app_assoc.
  - exists (b1 ++ b2). by rewrite Hb2, Hb1, app_assoc.
Qed.

Lemma writeBytes_extends bytes w : extends w (writeBytes bytes w).
Proof.
  split; [exists []; simpl; by rewrite app_nil_r|].
  exists bytes. apply written_writeBytes.
Qed.

Lemma pushOffset_extends w : extends w (pushOffset w).
Proof.
  split; [by exists [byteOffset w]|]. exists []. by rewrite app_nil_r.
Qed.

Lemma emitPage_extends `{Host} width height i pageImage w :
  extends w (emitPage width height i pageImage w).
Proof.
  unfold emitPage, write. cbv zeta.
  repeat first [ apply extends_refl
               | (eapply extends_trans; [|apply writeBytes_extends])
               | (eapply extends_trans; [|apply pushOffset_extends]) ].
Qed.

Lemma emitPages_extends `{Host} width height pageImages :
  forall i w, extends w (emitPages width height i pageImages w).
Proof.
  induction pageImages as [|pageImage rest IH]; intros i w.
  - apply extends_refl.
  - simpl. eapply extends_trans; [apply emitPage_extends|apply IH].
Qed.

(** Object 1, the catalog, is written right behind the header. *)
Lemma emitObjects_catalog `{Host} pageImages width height :
  let w := emitObjects pageImages width height in
  exists bytes,
    xrefOffsets w !! 0%nat = Some (Z.of_nat (length (encode pdfHeader)))
    /\ written w = encode pdfHeader ++ encode catalogObject ++ bytes.
Proof.
  unfold emitObjects. cbv zeta.
  match goal with
  | |- context [emitPages _ _ _ _ ?w0] =>
      destruct (emitPages_extends width height pageImages 0 w0)
        as [[offsets Hoffsets] [bytes Hbytes]];
      rewrite Hoffsets, Hbytes
  end.
  eexists. split; [reflexivity|].
  repeat (rewrite written_write || rewrite written_pushOffset).
  change (written {| chunks := []; xrefOffsets := []; byteOffset := 0 |})
    with (@nil byte).
  rewrite app_nil_l, <- !app_assoc. reflexivity.
Qed.

(** The offsets of a document of one page of one pixel. *)
Example buildPDF_single_page :
  xrefOffsets (@emitObjects sampleHost [[x01; x02; x03]] 1 1)
  = [19; 68; 127; 265; 342]
  /\ byteOffset (@emitObjects sampleHost [[x01; x02; x03]] 1 1) = 529
  /\ take 7 (drop 342 (@buildPDF sampleHost [[x01; x02; x03]] 1 1))
     = encode "5 0 obj".
Proof. repeat split; vm_compute; reflexivity. Qed.

Lemma of_uint_acc_bound (d : Decimal.uint) :
  forall acc, Z.pos acc * 10 ^ Z.of_nat (Decimal.nb_digits d)
              <= Z.pos (Pos.of_uint_acc d acc).
Proof.
  induction d as [|d IH|d IH|d IH|d IH|d IH|d IH|d IH|d IH|d IH|d IH];
    intros acc; cbn [Pos.of_uint_acc Decimal.nb_digits];
    [lia| | | | | | | | | |];
    rewrite Nat2Z.inj_succ, Z.pow_succ_r by lia;
    (etransitivity; [|apply IH]);
    pose proof (Z.pow_pos_nonneg 10 (Z.of_nat (Decimal.nb_digits d)) ltac:(lia) ltac:(lia));
    nia.
Qed.

Lemma length_string_of_uint (d : Decimal.uint) :
  String.length (NilEmpty.string_of_uint d) = Decimal.nb_digits d.
Proof. induction d; simpl; congruence. Qed.

Lemma to_uint_head (p : positive) (d : Decimal.uint) :
  Pos.to_uint p <> Decimal.D0 d.
Proof.
  intros Hd.
  pose proof (DecimalPos.Unsigned.of_to p) as Hof.
  pose proof (DecimalPos.Unsigned.to_of (Pos.to_uint p)) as Hnorm.
  rewrite Hof in Hnorm. cbn [N.to_uint] in Hnorm.
  rewrite Hd in Hof, Hnorm.
  unfold Decimal.unorm in Hnorm. cbn [Decimal.nzhead] in Hnorm.
  pose proof (DecimalFacts.nb_digits_nzhead d) as Hle.
  destruct (Decimal.nzhead d) eqn:Hnz;
    [injection Hnorm as ->; cbn in Hof; discriminate|..];
    rewrite <- Hnorm in Hle; cbn [Decimal.nb_digits] in Hle; lia.
Qed.

Lemma to_uint_digits (p : positive) :
  10 ^ (Z.of_nat (Decimal.nb_digits (Pos.to_uint p)) - 1) <= Z.pos p.
Proof.
  pose proof (DecimalPos.Unsigned.of_to p) as Hof.
  pose proof (to_uint_head p) as Hhead.
  destruct (Pos.to_uint p) as [|d|d|d|d|d|d|d|d|d|d];
    [simpl; lia | by destruct (Hhead d) | ..];
    cbn [Pos.of_uint] in Hof; injection Hof as Hof; rewrite <- Hof;
    cbn [Decimal.nb_digits]; rewrite Nat2Z.inj_succ;
    replace (Z.succ (Z.of_nat (Decimal.nb_digits d)) - 1)
      with (Z.of_nat (Decimal.nb_digits d)) by lia;
    (etransitivity; [|apply of_uint_acc_bound]); lia.
Qed.

Lemma length_toString (z : Z) :
  0 <= z < 10 ^ 10 -> (String.length (toString z) <= 10)%nat.
Proof.
  intros Hz. unfold toString. destruct z as [|p|p]; [simpl; lia| |lia].
  cbn [Z.to_int NilZero.string_of_int].
  assert (Hsame : NilZero.string_of_uint (Pos.to_uint p)
                  = NilEmpty.string_of_uint (Pos.to_uint p)).
  { pose proof (DecimalPos.Unsigned.to_uint_nonnil p) as Hnil.
    unfold NilZero.string_of_uint. by destruct (Pos.to_uint p). }
  rewrite Hsame, length_string_of_uint.
  pose proof (to_uint_digits p) as Hdigits.
  assert (Z.of_nat (Decimal.nb_digits (Pos.to_uint p)) - 1 < 10); [|lia].
  apply (Z.pow_lt_mono_r_iff 10); lia.
Qed.

Lemma length_padStart0 (n : nat) (s : string) :
  String.length (padStart0 n s) = Nat.max n (String.length s).
Proof.
  unfold padStart0. rewrite string_length_app.
  assert (Hrep : forall k, String.length (string_of_list_ascii (replicate k "0"%char)) = k).
  { induction k as [|k IH]; [reflexivity|]. simpl. by rewrite IH. }
  rewrite Hrep. lia.
Qed.

Lemma xrefEntry_tableEntry (offset : Z) :
  0 <= offset -> tableEntry (xrefEntry offset) offset.
Proof.
  intros Hoffset. exists (padStart0 10 (toString offset)).
  split; [reflexivity|]. split; [by apply readDecimal_padStart0|].
  rewrite length_padStart0. split; [lia|].
  intros Hsmall. pose proof (length_toString offset ltac:(lia)). lia.
Qed.

Lemma tableEntry_entries (offsets : list Z) :
  Forall (fun offset => 0 <= offset) offsets ->
  Forall2 tableEntry (map xrefEntry offsets) offsets.
Proof.
  induction 1 as [|offset rest Hoffset _ IH]; constructor; [|exact IH].
  by apply xrefEntry_tableEntry.
Qed.

(** C4. For every list of page images, [buildPDF] records one offset per
    object, the catalog, the page tree and three per page; the offset of
    object [k + 1] is a place in the emitted bytes where the text
    ["k+1 0 obj"] and a line feed start; object 1 is the catalog; and the
    bytes from the offset that [startxref] names on are the
    cross-reference section: the head with the number of entries, the
    entry of the free object 0, then for each object in turn an entry
    whose digits read back as the offset recorded for it (ten digits, as
    long as the offset has no more) followed by [" 00000 n "] and a line
    feed, then the trailer with the number of objects and the catalog as
    root, and that offset itself. *)
Theorem buildPDF_xref_offsets `{Host} (pageImages : list (list byte))
    (width height : Z) :
  let w := emitObjects pageImages width height in
  let out := buildPDF pageImages width height in
  let offsets := xrefOffsets w in
  let xrefStart := byteOffset w in
  let size := Z.of_nat (length offsets) + 1 in
  length offsets = (2 + 3 * length pageImages)%nat
  /\ (forall k offset,
        offsets !! k = Some offset ->
        0 <= offset
        /\ encode (objectDeclaration (Z.of_nat k + 1))
             `prefix_of` drop (Z.to_nat offset) out)
  /\ (exists offset,
        offsets !! 0%nat = Some offset
        /\ encode catalogObject `prefix_of` drop (Z.to_nat offset) out)
  /\ 0 <= xrefStart
  /\ exists entries,
       Forall2 tableEntry entries offsets
       /\ drop (Z.to_nat xrefStart) out
          = encode ("xref" +:+ LF +:+ "0 " +:+ toString size +:+ LF
                    +:+ "0000000000 65535 f " +:+ LF)
            ++ encode (String.concat "" entries)
            ++ encode ("trailer" +:+ LF
                       +:+ "<< /Size " +:+ toString size +:+ " /Root 1 0 R >>" +:+ LF
                       +:+ "startxref" +:+ LF +:+ toString xrefStart +:+ LF
                       +:+ "%%EOF" +:+ LF).
Proof.
  intros w out offsets xrefStart size.
  destruct (emitObjects_offsets pageImages width height) as [[Hoff Hobj] Hcount].
  fold w in Hoff, Hobj, Hcount. fold offsets in Hobj, Hcount. fold xrefStart in Hoff.
  assert (Hout : out = written w ++ encode (xrefSection offsets xrefStart)).
  { unfold out, buildPDF. apply written_emitXref. }
  split; [exact Hcount|]. split; [|split; [|split]].
  - intros k offset Hk. destruct (Hobj k offset Hk) as [Hrange Hprefix].
    split; [lia|].
    rewrite Hout, drop_app_le by lia. by apply prefix_app_r.
  - destruct (emitObjects_catalog pageImages width height) as (bytes & Hfirst & Hw).
    fold w in Hfirst, Hw. fold offsets in Hfirst.
    eexists. split; [exact Hfirst|].
    rewrite Hout, Hw, Nat2Z.id, <- app_assoc, drop_app_length, <- app_assoc.
    by apply prefix_app_r.
  - lia.
  - exists (map xrefEntry offsets). split.
    + apply tableEntry_entries, Forall_lookup. intros k offset Hk.
      destruct (Hobj k offset Hk). lia.
    + rewrite Hout, Hoff, Nat2Z.id, drop_app_length.
      unfold xrefSection. cbv zeta. fold size.
      rewrite !encode_app, <- !app_assoc. reflexivity.
Qed.

(* ===================================================================== *)
(** * Further properties *)
(* ===================================================================== *)

(** ** More on the reader *)

Lemma byteZ_range (b : byte) : 0 <= byteZ b < 256.
Proof.
  unfold byteZ. pose proof (Byte.to_N_bounded b). lia.
Qed.

Lemma length_slice (d : list byte) (p len : Z) :
  0 <= p -> 0 <= len -> p + len <= Z.of_nat (length d) ->
  Z.of_nat (length (slice d p len)) = len.
Proof.
  intros Hp Hlen Hfit. unfold slice. rewrite length_take, length_drop. lia.
Qed.

Lemma readBytes_Ok_inv (len : Z) (s s' : State) (bytes : list byte) :
  readBytes len s = Ok (bytes, s') ->
  exists p,
    pos (reader s) = Int p
    /\ 0 <= p /\ 0 <= len /\ p + len <= fileLength (reader s)
    /\ bytes = slice (data (reader s)) p len
    /\ Z.of_nat (length bytes) = len
    /\ s' = moveTo s (Int (p + len)).
Proof.
  unfold readBytes, checkBounds.
  destruct (Z.ltb_spec len 0) as [|Hlen]; [discriminate|].
  destruct (pos (reader s)) as [p|] eqn:Hpos; simpl; [|discriminate].
  destruct (Z.geb_spec p 0) as [Hp|]; simpl; [|discriminate].
  destruct (Z.leb_spec (p + len) (fileLength (reader s))) as [Hfit|]; simpl;
    [|discriminate].
  intros [= <- <-]. exists p. repeat split; try lia.
  apply length_slice; unfold fileLength in Hfit; lia.
Qed.

(** X1. A successful [readBytes(length)] never returns fewer bytes than it
    was asked for: the position was an integer inside the buffer, the
    length was not negative and the range fitted; the result is exactly
    that range of the buffer, [length] bytes long, and the position has
    advanced by [length]. *)
Theorem readBytes_exact (len : Z) (s s' : State) (bytes : list byte) :
  readBytes len s = Ok (bytes, s') ->
  exists p,
    pos (reader s) = Int p
    /\ 0 <= p /\ 0 <= len /\ p + len <= fileLength (reader s)
    /\ bytes = slice (data (reader s)) p len
    /\ Z.of_nat (length bytes) = len
    /\ s' = moveTo s (Int (p + len)).
Proof. apply readBytes_Ok_inv. Qed.

Lemma readBytes_exact_witness :
  exists p,
    pos (reader (initialState sampleBuffer)) = Int p
    /\ 0 <= p /\ 0 <= 3 /\ p + 3 <= fileLength (reader (initialState sampleBuffer))
    /\ [x00; x02; x00] = slice (data (reader (initialState sampleBuffer))) p 3
    /\ Z.of_nat (length [x00; x02; x00]) = 3
    /\ moveTo (initialState sampleBuffer) (Int 3)
       = moveTo (initialState sampleBuffer) (Int (p + 3)).
Proof.
  apply (readBytes_exact 3 (initialState sampleBuffer)
           (moveTo (initialState sampleBuffer) (Int 3)) [x00; x02; x00]).
  reflexivity.
Defined.

(** The four bytes [readU32LE] puts together. *)
Lemma getUint32LE_bytes (d : list byte) (p : Z) :
  0 <= p -> p + 4 <= Z.of_nat (length d) ->
  exists b0 b1 b2 b3,
    d !! Z.to_nat p = Some b0
    /\ d !! Z.to_nat (p + 1) = Some b1
    /\ d !! Z.to_nat (p + 2) = Some b2
    /\ d !! Z.to_nat (p + 3) = Some b3
    /\ getUint32LE d p
       = byteZ b0 + byteZ b1 * 256 + byteZ b2 * 65536 + byteZ b3 * 16777216.
Proof.
  intros Hp Hfit. unfold getUint32LE, slice.
  replace (Z.to_nat 4) with 4%nat by reflexivity.
  assert (Hlen : (4 <= length (drop (Z.to_nat p) d))%nat)
    by (rewrite length_drop; lia).
  assert (Hlook : forall k, drop (Z.to_nat p) d !! k = d !! (Z.to_nat p + k)%nat)
    by (intros k; apply lookup_drop).
  destruct (drop (Z.to_nat p) d) as [|b0 [|b1 [|b2 [|b3 rest]]]];
    simpl in Hlen; try lia.
  exists b0, b1, b2, b3. simpl.
  replace (Z.to_nat (p + 1)) with (Z.to_nat p + 1)%nat by lia.
  replace (Z.to_nat (p + 2)) with (Z.to_nat p + 2)%nat by lia.
  replace (Z.to_nat (p + 3)) with (Z.to_nat p + 3)%nat by lia.
  rewrite <- (Hlook 1%nat), <- (Hlook 2%nat), <- (Hlook 3%nat).
  pose proof (Hlook 0%nat) as H0. rewrite Nat.add_0_r in H0. rewrite <- H0.
  repeat split.
Qed.

Lemma readU32LE_Ok_inv (s s' : State) (value : Z) :
  readU32LE s = Ok (value, s') ->
  exists p b0 b1 b2 b3,
    pos (reader s) = Int p
    /\ 0 <= p /\ p + 4 <= fileLength (reader s)
    /\ data (reader s) !! Z.to_nat p = Some b0
    /\ data (reader s) !! Z.to_nat (p + 1) = Some b1
    /\ data (reader s) !! Z.to_nat (p + 2) = Some b2
    /\ data (reader s) !! Z.to_nat (p + 3) = Some b3
    /\ value = byteZ b0 + byteZ b1 * 256 + byteZ b2 * 65536 + byteZ b3 * 16777216
    /\ 0 <= value < 4294967296
    /\ s' = moveTo s (Int (p + 4)).
Proof.
  unfold readU32LE, checkBounds.
  destruct (pos (reader s)) as [p|] eqn:Hpos; simpl; [|discriminate].
  destruct (Z.geb_spec p 0) as [Hp|]; simpl; [|discriminate].
  destruct (Z.leb_spec (p + 4) (fileLength (reader s))) as [Hfit|]; simpl;
    [|discriminate].
  intros [= <- <-].
  destruct (getUint32LE_bytes (data (reader s)) p) as (b0 & b1 & b2 & b3 & H0 & H1 & H2 & H3 & Hv);
    [lia|exact Hfit|].
  exists p, b0, b1, b2, b3.
  pose proof (byteZ_range b0). pose proof (byteZ_range b1).
  pose proof (byteZ_range b2). pose proof (byteZ_range b3).
  repeat split; try assumption; try lia.
Qed.

(** X2. A successful [readU32LE] had four bytes left at an integer
    position; its value is those bytes with the least significant one
    first, an unsigned number below 2^32, and the position has advanced by
    four. *)
Theorem readU32LE_little_endian (s s' : State) (value : Z) :
  readU32LE s = Ok (value, s') ->
  exists p b0 b1 b2 b3,
    pos (reader s) = Int p
    /\ 0 <= p /\ p + 4 <= fileLength (reader s)
    /\ data (reader s) !! Z.to_nat p = Some b0
    /\ data (reader s) !! Z.to_nat (p + 1) = Some b1
    /\ data (reader s) !! Z.to_nat (p + 2) = Some b2
    /\ data (reader s) !! Z.to_nat (p + 3) = Some b3
    /\ value = byteZ b0 + byteZ b1 * 256 + byteZ b2 * 65536 + byteZ b3 * 16777216
    /\ 0 <= value < 4294967296
    /\ s' = moveTo s (Int (p + 4)).
Proof. apply readU32LE_Ok_inv. Qed.

Lemma readU32LE_little_endian_witness :
  exists p b0 b1 b2 b3,
    pos (reader (moveTo (initialState sampleBuffer) (Int 1))) = Int p
    /\ 0 <= p /\ p + 4 <= fileLength (reader (moveTo (initialState sampleBuffer) (Int 1)))
    /\ data (reader (moveTo (initialState sampleBuffer) (Int 1))) !! Z.to_nat p = Some b0
    /\ data (reader (moveTo (initialState sampleBuffer) (Int 1))) !! Z.to_nat (p + 1) = Some b1
    /\ data (reader (moveTo (initialState sampleBuffer) (Int 1))) !! Z.to_nat (p + 2) = Some b2
    /\ data (reader (moveTo (initialState sampleBuffer) (Int 1))) !! Z.to_nat (p + 3) = Some b3
    /\ 2 = byteZ b0 + byteZ b1 * 256 + byteZ b2 * 65536 + byteZ b3 * 16777216
    /\ 0 <= 2 < 4294967296
    /\ moveTo (initialState sampleBuffer) (Int 5)
       = moveTo (moveTo (initialState sampleBuffer) (Int 1)) (Int (p + 4)).
Proof.
  apply (readU32LE_little_endian (moveTo (initialState sampleBuffer) (Int 1))
           (moveTo (initialState sampleBuffer) (Int 5)) 2).
  reflexivity.
Defined.

(** X3. After a successful [seek] to an integer position, [seekEnd],
    [readU32LE] or [readBytes], the reader stands at an integer position
    between 0 and the length of the buffer, and neither the buffer nor the
    warnings have changed. *)
Theorem reader_stays_in_bounds (s s' : State) :
  (exists p, seek (Int p) s = Ok (tt, s'))
  \/ (exists offset, seekEnd offset s = Ok (tt, s'))
  \/ (exists value, readU32LE s = Ok (value, s'))
  \/ (exists len bytes, readBytes len s = Ok (bytes, s')) ->
  inBounds s'
  /\ data (reader s') = data (reader s)
  /\ console s' = console s.
Proof.
  intros [[p Hrun]|[[offset Hrun]|[[value Hrun]|(len & bytes & Hrun)]]].
  - unfold seek, bind, getLength, setPos, throw in Hrun. simpl in Hrun.
    destruct (Z.ltb_spec p 0); [discriminate|].
    destruct (Z.gtb_spec p (fileLength (reader s))); [discriminate|].
    injection Hrun as <-. repeat split. exists p. split; [reflexivity|].
    rewrite fileLength_moveTo. lia.
  - unfold seekEnd, bind, getLength, setPos, throw in Hrun.
    destruct (Z.ltb_spec (fileLength (reader s) + offset) 0); [discriminate|].
    destruct (Z.gtb_spec (fileLength (reader s) + offset) (fileLength (reader s)));
      [discriminate|].
    injection Hrun as <-. repeat split. eexists. split; [reflexivity|].
    rewrite fileLength_moveTo. lia.
  - apply readU32LE_Ok_inv in Hrun
      as (p & b0 & b1 & b2 & b3 & Hpos & Hp & Hfit & _ & _ & _ & _ & _ & _ & ->).
    repeat split. eexists. split; [reflexivity|]. rewrite fileLength_moveTo. lia.
  - apply readBytes_Ok_inv in Hrun as (p & Hpos & Hp & Hlen & Hfit & _ & _ & ->).
    repeat split. eexists. split; [reflexivity|]. rewrite fileLength_moveTo. lia.
Qed.

Lemma reader_stays_in_bounds_witness :
  inBounds (moveTo (initialState sampleBuffer) (Int 7))
  /\ data (reader (moveTo (initialState sampleBuffer) (Int 7)))
     = data (reader (initialState sampleBuffer))
  /\ console (moveTo (initialState sampleBuffer) (Int 7))
     = console (initialState sampleBuffer).
Proof.
  apply (reader_stays_in_bounds (initialState sampleBuffer)
           (moveTo (initialState sampleBuffer) (Int 7))).
  right. left. exists 0. reflexivity.
Defined.

(** ** More on metadata blocks *)

Lemma string_cons_app ch a b : String ch a +:+ b = String ch (a +:+ b).
Proof. reflexivity. Qed.

Lemma splitAtChar_found c a rest :
  hasChar c a = false ->
  splitAtChar c (a +:+ String c rest) = Some (a, rest).
Proof.
  induction a as [|ch a IH]; intros Hno.
  - change (EmptyString +:+ String c rest) with (String c rest).
    simpl. by rewrite Ascii.eqb_refl.
  - simpl in Hno. apply orb_false_elim in Hno as [Hch Ha].
    rewrite string_cons_app. simpl. rewrite Hch, (IH Ha). reflexivity.
Qed.

Lemma splitAtChar_before c s before after :
  splitAtChar c s = Some (before, after) ->
  hasChar c before = false /\ s = before +:+ String c after.
Proof.
  revert before. induction s as [|ch s IH]; intros before; simpl; [discriminate|].
  destruct (Ascii.eqb ch c) eqn:Hch.
  - intros [= <- <-]. apply Ascii.eqb_eq in Hch as ->. by split.
  - destruct (splitAtChar c s) as [[b a]|]; [|discriminate].
    intros [= <- <-]. destruct (IH b eq_refl) as [Hb ->].
    split; [simpl; by rewrite Hch|reflexivity].
Qed.

Lemma execAll_matchable (fuel : nat) :
  forall content, Forall matchable (execAll fuel content).
Proof.
  induction fuel as [|fuel IH]; intros content; [constructor|].
  destruct content as [|ch rest]; [constructor|]. simpl.
  destruct (Ascii.eqb ch "<"); [|apply IH].
  destruct (splitAtChar ":" rest) as [[[|k ks] afterColon]|] eqn:Hkey;
    try apply IH.
  destruct (splitAtChar ">" afterColon) as [[value afterMatch]|] eqn:Hvalue;
    [|apply IH].
  constructor; [|apply IH].
  apply splitAtChar_before in Hkey as [Hk _].
  apply splitAtChar_before in Hvalue as [Hv _].
  repeat split; [discriminate|exact Hk|exact Hv].
Qed.

(** X6. Every match of [METADATA_RE] in a text has a key that is not empty
    and holds no colon, and a value that holds no closing bracket. *)
Theorem metadataMatches_matchable (content : string) :
  Forall matchable (metadataMatches content).
Proof. apply execAll_matchable. Qed.

Lemma execAll_blockText (entries : list (string * string)) :
  Forall matchable entries ->
  forall fuel, (String.length (blockText entries) < fuel)%nat ->
               execAll fuel (blockText entries) = entries.
Proof.
  induction 1 as [|[key value] rest (Hne & Hkey & Hvalue) _ IH]; intros fuel Hfuel.
  - destruct fuel; [lia|reflexivity].
  - simpl in Hne, Hkey, Hvalue.
    destruct fuel as [|fuel]; [lia|].
    change (blockText ((key, value) :: rest))
      with (String "<" (key +:+ String ":" (value +:+ String ">" (blockText rest)))).
    change (blockText ((key, value) :: rest))
      with (String "<" (key +:+ String ":" (value +:+ String ">" (blockText rest))))
      in Hfuel.
    simpl in Hfuel. rewrite !string_length_app in Hfuel. simpl in Hfuel.
    rewrite string_length_app in Hfuel. simpl in Hfuel.
    simpl. rewrite (splitAtChar_found ":" key _ Hkey).
    destruct key as [|k ks]; [done|].
    rewrite (splitAtChar_found ">" value _ Hvalue).
    f_equal. apply IH. lia.
Qed.

Lemma metadataMatches_blockText_from (entries : list (string * string)) :
  Forall matchable entries ->
  metadataMatches (blockText entries) = entries.
Proof.
  intros Hwf. unfold metadataMatches. apply execAll_blockText; [exact Hwf|lia].
Qed.

(** X7. Round trip of the block syntax: in the text that writes each entry
    as ["<key:value>"], the matches of [METADATA_RE] are the entries, in
    their order, provided every key is non-empty without a colon and every
    value is without a closing bracket. *)
Theorem metadataMatches_blockText (entries : list (string * string)) :
  Forall matchable entries ->
  metadataMatches (blockText entries) = entries.
Proof. apply metadataMatches_blockText_from. Qed.

Lemma metadataMatches_blockText_witness :
  metadataMatches (blockText [("PAGE1", "24"); ("FILE_FEATURE", "")]%string)
  = [("PAGE1", "24"); ("FILE_FEATURE", "")]%string.
Proof.
  apply (metadataMatches_blockText [("PAGE1", "24"); ("FILE_FEATURE", "")]%string).
  repeat constructor; simpl; discriminate.
Defined.

(** X5. [validateNoteFile] accepts a buffer exactly when it holds at least
    100 bytes and the text decoded from the 20 bytes at offset 4 starts
    with one of the three prefixes; it then leaves the reader at offset 24
    and logs nothing. *)
Theorem validateNoteFile_accepts `{Host} (s s' : State) :
  validateNoteFile s = Ok (tt, s') <->
  MIN_NOTE_FILE_SIZE <= fileLength (reader s)
  /\ existsb (fun prefix => startsWith (decodeText (slice (data (reader s)) 4 20)) prefix)
       VALID_SIGNATURE_PREFIXES = true
  /\ s' = moveTo s (Int 24).
Proof.
  rewrite validateNoteFile_run. cbv zeta. unfold fileLength, MIN_NOTE_FILE_SIZE.
  destruct (Z.eqb_spec (Z.of_nat (length (data (reader s)))) 0) as [Hz|Hnz].
  { split; [discriminate|]. intros [Hlen _]. lia. }
  destruct (Z.ltb_spec (Z.of_nat (length (data (reader s)))) 100) as [Hsmall|Hbig].
  { split; [discriminate|]. intros [Hlen _]. lia. }
  destruct (existsb _ VALID_SIGNATURE_PREFIXES).
  - split.
    + intros [= <-]. auto.
    + intros (_ & _ & ->). reflexivity.
  - split.
    + destruct (_ || _); discriminate.
    + intros (_ & Hfalse & _). discriminate.
Qed.

(** ** Reading a block back *)

Lemma mapGet_mapSet_eq m k v : mapGet (mapSet m k v) k = Some v.
Proof.
  induction m as [|[k' v'] m IH]; simpl.
  - by rewrite String.eqb_refl.
  - destruct (String.eqb k' k) eqn:Hk; simpl; rewrite Hk; [reflexivity|exact IH].
Qed.

Lemma mapGet_mapSet_ne m k v k' :
  k <> k' -> mapGet (mapSet m k v) k' = mapGet m k'.
Proof.
  intros Hne. induction m as [|[k0 v0] m IH]; simpl.
  - destruct (String.eqb_spec k k'); [done|reflexivity].
  - destruct (String.eqb_spec k0 k) as [->|Hk0]; simpl.
    + destruct (String.eqb_spec k k'); [done|reflexivity].
    + destruct (String.eqb k0 k'); [reflexivity|exact IH].
Qed.

Lemma mapSet_fresh m k v :
  mapGet m k = None -> mapSet m k v = m ++ [(k, v)].
Proof.
  induction m as [|[k' v'] m IH]; simpl; [reflexivity|].
  destruct (String.eqb k' k); [discriminate|]. intros Hm. by rewrite IH.
Qed.

Lemma mapGet_app_None m1 m2 k :
  mapGet (m1 ++ m2) k = None <-> mapGet m1 k = None /\ mapGet m2 k = None.
Proof.
  induction m1 as [|[k' v'] m1 IH]; simpl.
  - tauto.
  - destruct (String.eqb k' k); [|exact IH]. split; [discriminate|]. by intros [? _].
Qed.

Lemma mapGet_None_keys m k : mapGet m k = None <-> ~ In k (map fst m).
Proof.
  induction m as [|[k' v'] m IH]; simpl; [tauto|].
  destruct (String.eqb_spec k' k) as [->|Hne].
  - split; [discriminate|]. intros Hnot. exfalso. apply Hnot. by left.
  - rewrite IH. split; [intros Hnot [Heq|Hin]; [done|by apply Hnot]|].
    intros Hnot Hin. apply Hnot. by right.
Qed.

Lemma recordOf_distinct_keys_from (entries m0 : JSMap) :
  List.NoDup (map fst (m0 ++ entries)) ->
  fold_left (fun map m => mapSet map (fst m) (snd m)) entries m0 = m0 ++ entries.
Proof.
  revert m0. induction entries as [|[k v] rest IH]; intros m0 Hnodup.
  - simpl. by rewrite app_nil_r.
  - simpl. rewrite mapSet_fresh.
    + rewrite IH; [by rewrite <- app_assoc|]. by rewrite <- app_assoc.
    + apply mapGet_None_keys. intros Hin.
      rewrite map_app in Hnodup. simpl in Hnodup.
      apply List.NoDup_remove_2 in Hnodup. apply Hnodup.
      apply in_or_app. by left.
Qed.

Lemma recordOf_distinct_keys (entries : JSMap) :
  List.NoDup (map fst entries) -> recordOf entries = entries.
Proof. intros Hnodup. unfold recordOf. by apply recordOf_distinct_keys_from. Qed.

Lemma find_app_first {A} (f : A -> bool) (l1 l2 : list A) :
  List.find f (l1 ++ l2)
  = match List.find f l1 with Some x => Some x | None => List.find f l2 end.
Proof.
  induction l1 as [|x l1 IH]; [reflexivity|]. simpl. by destruct (f x).
Qed.

(** The value the record holds under a key is that of the last match with
    the key. *)
Lemma mapGet_fold_mapSet (matches : list (string * string)) (k : string) :
  forall m0,
    mapGet (fold_left (fun map m => mapSet map (fst m) (snd m)) matches m0) k
    = match List.find (fun m => String.eqb (fst m) k) (rev matches) with
      | Some m => Some (snd m)
      | None => mapGet m0 k
      end.
Proof.
  induction matches as [|[k' v'] rest IH]; intros m0; [reflexivity|].
  simpl fold_left. rewrite IH. simpl rev.
  rewrite find_app_first.
  destruct (List.find _ (rev rest)); [reflexivity|].
  simpl. destruct (String.eqb_spec k' k) as [->|Hne].
  - apply mapGet_mapSet_eq.
  - by apply mapGet_mapSet_ne.
Qed.

(** A run of [parseMetadataBlock] on an integer address: it returns, over
    the same buffer, and only adds to the warnings. *)
Lemma parseMetadataBlock_Int `{Host} (address : Z) (s : State) :
  exists record s',
    parseMetadataBlock (Int address) s = Ok (record, s')
    /\ data (reader s') = data (reader s)
    /\ (exists warnings, console s' = console s ++ warnings).
Proof.
  set (len := fileLength (reader s)).
  set (blockLen := getUint32LE (data (reader s)) address).
  unfold parseMetadataBlock. cbn [num_eq].
  destruct (Z.eqb_spec address 0) as [Hzero|Hnz].
  { exists [], s. repeat split. exists []. by rewrite app_nil_r. }
  unfold bind at 1. unfold getLength at 1. fold len. cbn [num_lt num_gt].
  destruct (Z.ltb_spec address 0) as [Hneg|Hpos]; simpl orb.
  { eexists _, _. split; [reflexivity|]. split; [reflexivity|]. by eexists. }
  destruct (Z.gtb_spec address (len - 4)) as [Hbig|Hfit].
  { eexists _, _. split; [reflexivity|]. split; [reflexivity|]. by eexists. }
  cbn [orb].
  assert (Hseek : seek (Int address) s = Ok (tt, moveTo s (Int address))).
  { apply seek_in_bounds. fold len. lia. }
  step Hseek.
  assert (Hread : readU32LE (moveTo s (Int address))
                  = Ok (blockLen, moveTo (moveTo s (Int address)) (Int (address + 4)))).
  { apply (readU32LE_in_bounds address (moveTo s (Int address))); try reflexivity; try lia.
    rewrite fileLength_moveTo. fold len. lia. }
  step Hread. cbn [num_sub num_gt]. fold blockLen.
  destruct (Z.leb_spec blockLen 0) as [Hnonpos|Hposlen]; simpl orb.
  { eexists _, _. split; [reflexivity|]. split; [reflexivity|]. by eexists. }
  destruct (Z.gtb_spec blockLen (len - address - 4)) as [Hover|Hin].
  { eexists _, _. split; [reflexivity|]. split; [reflexivity|]. by eexists. }
  cbn [orb]. unfold readString.
  assert (Hbytes : readBytes blockLen (moveTo (moveTo s (Int address)) (Int (address + 4)))
                   = Ok (slice (data (reader s)) (address + 4) blockLen,
                         moveTo (moveTo (moveTo s (Int address)) (Int (address + 4)))
                                (Int (address + 4 + blockLen)))).
  { apply (readBytes_in_bounds blockLen (address + 4)
                   (moveTo (moveTo s (Int address)) (Int (address + 4))));
      try reflexivity; try lia.
    rewrite !fileLength_moveTo. fold len. lia. }
  rewrite (bind_Ok _ _ _ _ _ (bind_Ok _ _ _ _ _ Hbytes)).
  eexists _, _. split; [reflexivity|]. split; [reflexivity|].
  exists []. by rewrite app_nil_r.
Qed.

(** X4. On every integer address [parseMetadataBlock] returns a record
    and throws nothing; it leaves the buffer as it was and only adds to the
    warnings; and the record is empty whenever the address is not positive
    or leaves no room for the length prefix, or the length prefix is not
    positive or exceeds the rest of the buffer. *)
Theorem parseMetadataBlock_returns_on_integers `{Host} (address : Z) (s : State) :
  let len := fileLength (reader s) in
  let blockLen := getUint32LE (data (reader s)) address in
  exists record s',
    parseMetadataBlock (Int address) s = Ok (record, s')
    /\ data (reader s') = data (reader s)
    /\ (exists warnings, console s' = console s ++ warnings)
    /\ (address <= 0 \/ len - 4 < address
        \/ blockLen <= 0 \/ len - address - 4 < blockLen ->
        record = []).
Proof.
  intros len blockLen.
  destruct (parseMetadataBlock_Int address s) as (record & s' & Hrun & Hdata & Hlog).
  exists record, s'. split; [exact Hrun|]. split; [exact Hdata|]. split; [exact Hlog|].
  destruct (parseMetadataBlock_integer_address address s)
    as (record' & s'' & Hrun' & Hzero & Hrange & Hblock).
  rewrite Hrun in Hrun'. injection Hrun' as <- <-.
  fold len in Hrange, Hblock. fold blockLen in Hblock.
  intros Hbad.
  destruct (Z.eq_dec address 0) as [Ha|Ha]; [by apply Hzero|].
  destruct (Z.lt_ge_cases address 0) as [Hneg|Hpos]; [by apply Hrange; auto|].
  destruct (Z.lt_ge_cases (len - 4) address) as [Hbig|Hfit];
    [by apply Hrange; auto|].
  apply Hblock; lia.
Qed.

(** X8. [parseMetadataBlock] reads back a block that lies within the
    buffer: at a positive address whose length prefix is the positive
    length of the block and whose bytes decode to the text of the entries,
    it returns the record of the entries, logs nothing and leaves the reader
    behind the block; the record is the list of entries itself when their
    keys are distinct. *)
Theorem parseMetadataBlock_reads_block `{Host} (address blockLen : Z)
    (entries : list (string * string)) (s : State) :
  0 < address ->
  address + 4 + blockLen <= fileLength (reader s) ->
  0 < blockLen ->
  getUint32LE (data (reader s)) address = blockLen ->
  decodeText (slice (data (reader s)) (address + 4) blockLen) = blockText entries ->
  Forall matchable entries ->
  parseMetadataBlock (Int address) s
  = Ok (recordOf entries, moveTo s (Int (address + 4 + blockLen)))
  /\ (List.NoDup (map fst entries) -> recordOf entries = entries).
Proof.
  intros Haddr Hfit Hlen Hprefix Htext Hwf.
  split; [|apply recordOf_distinct_keys].
  set (len := fileLength (reader s)) in *.
  unfold parseMetadataBlock. cbn [num_eq].
  destruct (Z.eqb_spec address 0) as [|_]; [lia|].
  unfold bind at 1. unfold getLength at 1. fold len. cbn [num_lt num_gt].
  destruct (Z.ltb_spec address 0) as [|_]; [lia|].
  destruct (Z.gtb_spec address (len - 4)) as [|_]; [lia|].
  cbn [orb].
  assert (Hseek : seek (Int address) s = Ok (tt, moveTo s (Int address))).
  { apply seek_in_bounds. fold len. lia. }
  step Hseek.
  assert (Hread : readU32LE (moveTo s (Int address))
                  = Ok (blockLen, moveTo (moveTo s (Int address)) (Int (address + 4)))).
  { rewrite <- Hprefix.
    apply (readU32LE_in_bounds address (moveTo s (Int address))); try reflexivity; try lia.
    rewrite fileLength_moveTo. fold len. lia. }
  step Hread. cbn [num_sub num_gt].
  destruct (Z.leb_spec blockLen 0) as [|_]; [lia|].
  destruct (Z.gtb_spec blockLen (len - address - 4)) as [|_]; [lia|].
  cbn [orb]. unfold readString.
  assert (Hbytes : readBytes blockLen (moveTo (moveTo s (Int address)) (Int (address + 4)))
                   = Ok (slice (data (reader s)) (address + 4) blockLen,
                         moveTo (moveTo (moveTo s (Int address)) (Int (address + 4)))
                                (Int (address + 4 + blockLen)))).
  { apply (readBytes_in_bounds blockLen (address + 4)
                   (moveTo (moveTo s (Int address)) (Int (address + 4))));
      try reflexivity; try lia.
    rewrite !fileLength_moveTo. fold len. lia. }
  rewrite (bind_Ok _ _ _ _ _ (bind_Ok _ _ _ _ _ Hbytes)).
  rewrite Htext, (metadataMatches_blockText_from entries Hwf).
  reflexivity.
Qed.

Lemma parseMetadataBlock_reads_block_witness :
  @parseMetadataBlock sampleHost (Int 43) (initialState noteWithBadLayerAddress)
  = Ok (recordOf [("PAGE1", "24")]%string,
        moveTo (initialState noteWithBadLayerAddress) (Int (43 + 4 + 10)))
  /\ (List.NoDup (map fst [("PAGE1", "24")]%string) ->
      recordOf [("PAGE1", "24")]%string = [("PAGE1", "24")]%string).
Proof.
  apply (@parseMetadataBlock_reads_block sampleHost 43 10
           [("PAGE1", "24")]%string (initialState noteWithBadLayerAddress)).
  - lia.
  - vm_compute. discriminate.
  - lia.
  - reflexivity.
  - reflexivity.
  - repeat constructor; simpl; discriminate.
Defined.

(** X9. Of several matches with one key the record keeps the value of the
    last: a lookup in the record [parseMetadataBlock] builds finds the value
    of the last match with the key, and nothing for a key without a
    match. *)
Theorem recordOf_last_match (matches : list (string * string)) (k : string) :
  mapGet (recordOf matches) k
  = option_map snd (List.find (fun m => String.eqb (fst m) k) (rev matches)).
Proof.
  unfold recordOf. rewrite mapGet_fold_mapSet.
  by destruct (List.find _ (rev matches)).
Qed.

(** ** The notebook *)

Lemma detectDeviceDimensions_run `{Host} (footerMap : JSMap) (s : State) :
  exists dims s',
    detectDeviceDimensions footerMap s = Ok (dims, s')
    /\ (dims = (A5X_WIDTH, A5X_HEIGHT) \/ dims = (A5X2_WIDTH, A5X2_HEIGHT))
    /\ data (reader s') = data (reader s).
Proof.
  unfold detectDeviceDimensions.
  destruct (mapGet footerMap "FILE_FEATURE") as [fileFeature|];
    [|by eexists _, _; eauto].
  destruct (truthy fileFeature); [|by eexists _, _; eauto].
  destruct (parseInt fileFeature) as [headerAddr|]; simpl;
    [|by eexists _, _; eauto].
  destruct (parseMetadataBlock_Int headerAddr s) as (headerMap & s1 & Hrun & Hdata & _).
  rewrite (bind_Ok _ _ _ _ _ Hrun).
  destruct (mapGet headerMap "APPLY_EQUIPMENT") as [equipment|];
    [|by eexists _, _; eauto].
  destruct (String.eqb equipment "N5"); by eexists _, _; eauto.
Qed.

(** X10. [detectDeviceDimensions] never throws, whatever the footer holds,
    and returns one of two sizes, 1404 by 1872 or 1920 by 2560, over the
    same buffer: the header address is checked with [isNaN] before it is
    used. *)
Theorem detectDeviceDimensions_two_sizes `{Host} (footerMap : JSMap) (s : State) :
  exists dims s',
    detectDeviceDimensions footerMap s = Ok (dims, s')
    /\ (dims = (1404, 1872) \/ dims = (1920, 2560))
    /\ data (reader s') = data (reader s).
Proof. apply detectDeviceDimensions_run. Qed.

(** *** The order of the pages *)

Lemma pageEntries_numbers `{Host} (footerMap : JSMap) :
  Forall (fun e : number * number => isNaN (fst e) = false /\ isNaN (snd e) = false)
         (pageEntries footerMap).
Proof.
  unfold pageEntries. induction footerMap as [|[k v] rest IH]; [constructor|].
  simpl. destruct (startsWith k "PAGE"); [|exact IH].
  destruct (isNaN (parseInt (sliceFrom 4 k))) eqn:Hk; [exact IH|].
  destruct (isNaN (parseInt v)) eqn:Hv; [exact IH|].
  simpl. constructor; [by split|exact IH].
Qed.

Lemma insertEntry_perm e sorted : Permutation (insertEntry e sorted) (e :: sorted).
Proof.
  induction sorted as [|x rest IH]; [reflexivity|]. simpl.
  destruct (pageBefore x e); [|reflexivity].
  rewrite IH. apply perm_swap.
Qed.

Lemma insertEntry_sorted e sorted :
  isNaN (fst e) = false ->
  Forall (fun x : number * number => isNaN (fst x) = false) sorted ->
  StronglySorted (fun a b => pageBefore a b = true) sorted ->
  StronglySorted (fun a b => pageBefore a b = true) (insertEntry e sorted).
Proof.
  intros He Hnum Hsorted.
  induction Hsorted as [|x rest Hrest IH Hx]; simpl.
  - repeat constructor.
  - apply Forall_cons in Hnum as [Hxnum Hnum].
    destruct (pageBefore x e) eqn:Hxe.
    + constructor; [by apply IH|].
      rewrite insertEntry_perm. constructor; [exact Hxe|exact Hx].
    + constructor; [by constructor|].
      assert (Hex : pageBefore e x = true).
      { unfold pageBefore, num_le in *.
        destruct (fst e), (fst x); try discriminate. lia. }
      constructor; [exact Hex|].
      eapply Forall_impl; [exact Hx|].
      intros y Hxy. unfold pageBefore, num_le in *.
      destruct (fst e), (fst x), (fst y); try discriminate. lia.
Qed.

Lemma sortEntries_from (entries acc : list (number * number)) :
  Forall (fun x : number * number => isNaN (fst x) = false) entries ->
  Forall (fun x : number * number => isNaN (fst x) = false) acc ->
  StronglySorted (fun a b => pageBefore a b = true) acc ->
  let sorted := fold_left (fun sorted e => insertEntry e sorted) entries acc in
  StronglySorted (fun a b => pageBefore a b = true) sorted
  /\ Permutation sorted (acc ++ entries)
  /\ Forall (fun x : number * number => isNaN (fst x) = false) sorted.
Proof.
  revert acc. induction entries as [|e rest IH]; intros acc Hnum Hacc Hsorted.
  - simpl. rewrite app_nil_r. auto.
  - apply Forall_cons in Hnum as [He Hnum]. simpl.
    destruct (IH (insertEntry e acc) Hnum) as (Hs & Hp & Hn).
    + rewrite insertEntry_perm. by constructor.
    + by apply insertEntry_sorted.
    + split; [exact Hs|]. split; [|exact Hn].
      rewrite Hp, insertEntry_perm.
      change (e :: acc) with ([e] ++ acc).
      rewrite (Permutation_app_comm [e] acc), <- app_assoc. reflexivity.
Qed.

Lemma filter_none {A} (f : A -> bool) (l : list A) :
  Forall (fun y => f y = false) l -> List.filter f l = [].
Proof.
  induction 1 as [|y l Hy _ IH]; [reflexivity|]. simpl. by rewrite Hy.
Qed.

(** Entries of one page number keep the order they were declared in. *)
Lemma insertEntry_stable (k : number) e sorted :
  isNaN (fst e) = false ->
  Forall (fun x : number * number => isNaN (fst x) = false) sorted ->
  StronglySorted (fun a b => pageBefore a b = true) sorted ->
  List.filter (fun x => num_eq (fst x) k) (insertEntry e sorted)
  = List.filter (fun x => num_eq (fst x) k) sorted
    ++ List.filter (fun x => num_eq (fst x) k) [e].
Proof.
  intros He Hnum Hsorted.
  induction Hsorted as [|x rest Hrest IH Hx]; [by rewrite app_nil_l|].
  apply Forall_cons in Hnum as [Hxnum Hnum]. simpl insertEntry.
  destruct (pageBefore x e) eqn:Hxe.
  - simpl. rewrite (IH Hnum). simpl.
    by destruct (num_eq (fst x) k).
  - cbn [List.filter]. destruct (num_eq (fst e) k) eqn:Hek; [|by rewrite app_nil_r].
    assert (Hnone : Forall (fun y : number * number => num_eq (fst y) k = false)
                           (x :: rest)).
    { constructor.
      - unfold pageBefore, num_le, num_eq in *.
        destruct (fst e), (fst x), k; try discriminate; try reflexivity. lia.
      - eapply Forall_impl; [exact Hx|]. intros y Hxy.
        unfold pageBefore, num_le, num_eq in *.
        destruct (fst e), (fst x), (fst y), k; try discriminate; try reflexivity. lia. }
    apply filter_none in Hnone. cbn [List.filter] in Hnone. rewrite Hnone.
    reflexivity.
Qed.

Lemma sortEntries_stable_from (k : number) (entries acc : list (number * number)) :
  Forall (fun x : number * number => isNaN (fst x) = false) entries ->
  Forall (fun x : number * number => isNaN (fst x) = false) acc ->
  StronglySorted (fun a b => pageBefore a b = true) acc ->
  List.filter (fun x => num_eq (fst x) k)
              (fold_left (fun sorted e => insertEntry e sorted) entries acc)
  = List.filter (fun x => num_eq (fst x) k) acc
    ++ List.filter (fun x => num_eq (fst x) k) entries.
Proof.
  revert acc. induction entries as [|e rest IH]; intros acc Hnum Hacc Hsorted.
  - simpl. by rewrite app_nil_r.
  - apply Forall_cons in Hnum as [He Hnum]. simpl fold_left.
    rewrite IH; [|exact Hnum| |by apply insertEntry_sorted].
    + rewrite (insertEntry_stable k e acc He Hacc Hsorted), <- app_assoc.
      f_equal. cbn [List.filter]. by destruct (num_eq (fst e) k).
    + rewrite insertEntry_perm. by constructor.
Qed.

(** X11. The page entries [parseNotebook] walks are the [PAGE<n>] entries
    of the footer in ascending page number: the sorted list is sorted, is a
    permutation of the declared entries, and keeps entries of one page
    number in the order of their declaration. *)
Theorem pages_in_ascending_order `{Host} (footerMap : JSMap) :
  let declared := pageEntries footerMap in
  let sorted := sortEntries declared in
  StronglySorted (fun a b => num_le (fst a) (fst b) = true) sorted
  /\ Permutation sorted declared
  /\ forall pageNum,
       List.filter (fun e => num_eq (fst e) pageNum) sorted
       = List.filter (fun e => num_eq (fst e) pageNum) declared.
Proof.
  intros declared sorted.
  assert (Hnum : Forall (fun x : number * number => isNaN (fst x) = false) declared).
  { eapply Forall_impl; [apply pageEntries_numbers|]. by intros e [He _]. }
  destruct (sortEntries_from declared [] Hnum) as (Hs & Hp & _);
    [constructor|constructor|].
  split; [exact Hs|]. split; [exact Hp|].
  intros pageNum. unfold sorted, sortEntries.
  rewrite (sortEntries_stable_from pageNum declared [] Hnum); [reflexivity| |];
    constructor.
Qed.

Lemma fileLength_same_data s1 s2 :
  data (reader s1) = data (reader s2) -> fileLength (reader s1) = fileLength (reader s2).
Proof. unfold fileLength. by intros ->. Qed.

Lemma parseMetadataBlock_number `{Host} (address : number) (s : State) :
  match parseMetadataBlock address s with
  | Ok (_, s') => isNaN address = false /\ data (reader s') = data (reader s)
  | Throw e => address = NaN /\ e = nanRead s
  end.
Proof.
  destruct address as [a|].
  - destruct (parseMetadataBlock_Int a s) as (record & s' & -> & Hdata & _).
    by split.
  - rewrite parseMetadataBlock_NaN. by split.
Qed.

Lemma parseLayers_run `{Host} (pageMap : JSMap) (layerOrder : list string) :
  forall s,
    match parseLayers pageMap layerOrder s with
    | Ok (layers, s') =>
        sublist (map key layers) layerOrder
        /\ Forall (fun layer => exists text, mapGet pageMap (key layer) = Some text
                                             /\ truthy text = true) layers
        /\ data (reader s') = data (reader s)
    | Throw e => e = nanRead s
    end.
Proof.
  induction layerOrder as [|layerKey rest IH]; intros s.
  - simpl. repeat split; constructor.
  - simpl.
    assert (Hskip : match parseLayers pageMap rest s with
                    | Ok (layers, s') =>
                        sublist (map key layers) (layerKey :: rest)
                        /\ Forall (fun layer => exists text,
                                       mapGet pageMap (key layer) = Some text
                                       /\ truthy text = true) layers
                        /\ data (reader s') = data (reader s)
                    | Throw e => e = nanRead s
                    end).
    { specialize (IH s). destruct (parseLayers pageMap rest s) as [[layers s']|e];
        [|exact IH].
      destruct IH as (Hsub & Hall & Hdata). repeat split; auto.
      by apply sublist_cons. }
    destruct (mapGet pageMap layerKey) as [layerAddrStr|] eqn:Hget; [|exact Hskip].
    destruct (truthy layerAddrStr) eqn:Htruthy; [|exact Hskip].
    clear Hskip. unfold bind at 1.
    pose proof (parseMetadataBlock_number (parseInt layerAddrStr) s) as Hblock.
    destruct (parseMetadataBlock (parseInt layerAddrStr) s) as [[layerData s1]|e];
      [|by destruct Hblock].
    destruct Hblock as [_ Hdata1].
    unfold bind at 1. specialize (IH s1).
    destruct (parseLayers pageMap rest s1) as [[more s2]|e].
    + destruct IH as (Hsub & Hall & Hdata2). simpl. repeat split.
      * by apply sublist_skip.
      * constructor; [|exact Hall]. simpl. eauto.
      * congruence.
    + rewrite IH. unfold nanRead. f_equal. by apply fileLength_same_data.
Qed.

(** X12. The layers of a page follow the layer order: when the layer loop
    returns, the keys of the layers are a sub-sequence of the order it was
    given, so a page has at most as many layers as the order has keys, and
    each layer's key has a non-empty address text in the page record. *)
Theorem parseLayers_follows_order `{Host} (pageMap : JSMap)
    (layerOrder : list string) (s s' : State) (layers : list Layer) :
  parseLayers pageMap layerOrder s = Ok (layers, s') ->
  sublist (map key layers) layerOrder
  /\ (length layers <= length layerOrder)%nat
  /\ Forall (fun layer => exists text, mapGet pageMap (key layer) = Some text
                                       /\ truthy text = true) layers.
Proof.
  intros Hrun. pose proof (parseLayers_run pageMap layerOrder s) as Hspec.
  rewrite Hrun in Hspec. destruct Hspec as (Hsub & Hall & _).
  split; [exact Hsub|]. split; [|exact Hall].
  apply sublist_length in Hsub. by rewrite length_map in Hsub.
Qed.

Lemma parsePages_run `{Host} (addrs : list number) :
  Forall (fun a => isNaN a = false) addrs ->
  forall s,
    match parsePages addrs s with
    | Ok (pages, s') =>
        map addr pages = addrs /\ data (reader s') = data (reader s)
    | Throw e => e = nanRead s
    end.
Proof.
  induction 1 as [|a rest Ha _ IH]; intros s.
  - by split.
  - simpl. unfold bind at 1.
    pose proof (parseMetadataBlock_number a s) as Hblock.
    destruct (parseMetadataBlock a s) as [[pageMap s1]|e].
    2:{ destruct Hblock as [-> _]. discriminate. }
    destruct Hblock as [_ Hdata1].
    unfold bind at 1.
    match goal with
    | |- context [parseLayers pageMap ?order s1] =>
        pose proof (parseLayers_run pageMap order s1) as Hlayers;
        destruct (parseLayers pageMap order s1) as [[layers s2]|e]
    end.
    2:{ rewrite Hlayers. unfold nanRead. f_equal. by apply fileLength_same_data. }
    destruct Hlayers as (_ & _ & Hdata2).
    unfold bind at 1. specialize (IH s2).
    destruct (parsePages rest s2) as [[more s3]|e].
    + destruct IH as [Hmap Hdata3]. simpl. split; [by rewrite Hmap|congruence].
    + rewrite IH. unfold nanRead. f_equal. apply fileLength_same_data. congruence.
Qed.

Lemma parseNotebook_run `{Host} (s : State) :
  24 <= fileLength (reader s) ->
  match parseNotebook s with
  | Ok (notebook, s') =>
      ((width notebook, height notebook) = (A5X_WIDTH, A5X_HEIGHT)
       \/ (width notebook, height notebook) = (A5X2_WIDTH, A5X2_HEIGHT))
      /\ signature notebook = decodeText (slice (data (reader s)) 4 20)
      /\ data (reader s') = data (reader s)
  | Throw e => e = nanRead s
  end.
Proof.
  intros Hlen. unfold parseNotebook.
  assert (Hsig : getSignature s
                 = Ok (decodeText (slice (data (reader s)) 4 20), moveTo s (Int 24))).
  { unfold getSignature, readString.
    rewrite (bind_Ok _ _ _ _ _ (seek_in_bounds 4 s ltac:(lia))).
    rewrite (bind_Ok _ _ _ _ _
               (readBytes_in_bounds 20 4 (moveTo s (Int 4)) eq_refl ltac:(lia)
                  ltac:(lia) ltac:(rewrite fileLength_moveTo; lia))).
    reflexivity. }
  step Hsig.
  set (len := fileLength (reader s)) in *.
  assert (Hend : seekEnd (-4) (moveTo s (Int 24))
                 = Ok (tt, moveTo (moveTo s (Int 24)) (Int (len + -4)))).
  { unfold seekEnd, bind, getLength, setPos, throw. rewrite fileLength_moveTo.
    fold len. destruct (Z.ltb_spec (len + -4) 0); [lia|].
    destruct (Z.gtb_spec (len + -4) len); [lia|]. reflexivity. }
  step Hend.
  set (s1 := moveTo (moveTo s (Int 24)) (Int (len + -4))).
  assert (Hfooter : readU32LE s1
                    = Ok (getUint32LE (data (reader s1)) (len + -4),
                          moveTo s1 (Int (len + -4 + 4)))).
  { apply readU32LE_in_bounds; [reflexivity|lia|].
    unfold s1. rewrite !fileLength_moveTo. fold len. lia. }
  step Hfooter.
  set (s2 := moveTo s1 (Int (len + -4 + 4))).
  destruct (parseMetadataBlock_Int (getUint32LE (data (reader s1)) (len + -4)) s2)
    as (footerMap & s3 & Hblock & Hdata3 & _).
  step Hblock.
  destruct (detectDeviceDimensions_run footerMap s3) as (dims & s4 & Hdims & Hsize & Hdata4).
  step Hdims.
  unfold bind at 1.
  assert (Haddrs : Forall (fun a => isNaN a = false)
                          (map snd (sortEntries (pageEntries footerMap)))).
  { destruct (sortEntries_from (pageEntries footerMap) []) as (_ & Hperm & _);
      [|constructor|constructor|].
    - eapply Forall_impl; [apply pageEntries_numbers|]. by intros e [He _].
    - apply List.Forall_forall. intros a Hin. apply in_map_iff in Hin as (e & <- & Hin).
      pose proof (pageEntries_numbers footerMap) as Hnum.
      rewrite List.Forall_forall in Hnum.
      apply (Hnum e). eapply Permutation_in; [exact Hperm|exact Hin]. }
  pose proof (parsePages_run _ Haddrs s4) as Hpages.
  assert (Hsame : data (reader s4) = data (reader s)).
  { rewrite Hdata4, Hdata3. reflexivity. }
  destruct (parsePages _ s4) as [[pages s5]|e].
  - destruct Hpages as [_ Hdata5]. simpl.
    split; [|split; [reflexivity|congruence]].
    destruct dims as [w h]. simpl. exact Hsize.
  - rewrite Hpages. unfold nanRead. f_equal. by apply fileLength_same_data.
Qed.

(** X13. On a buffer of at least 24 bytes the only error [parseNotebook]
    can throw is the read at the position [NaN]: no read at an integer
    position outside the buffer, and no other reader error, escapes
    it. *)
Theorem parseNotebook_only_error `{Host} (s : State) (e : Error) :
  24 <= fileLength (reader s) ->
  parseNotebook s = Throw e ->
  e = ReadU32OutOfBounds NaN (fileLength (reader s)).
Proof.
  intros Hlen Hrun. pose proof (parseNotebook_run s Hlen) as Hspec.
  by rewrite Hrun in Hspec.
Qed.

(** ** More on colours and compositing *)

(** X14. [toRGBA] always returns a grey (red, green and blue are equal);
    the alpha is 0 for the code [0x62] and 255 for every other code; and a
    code outside the nine codes of the table is its own intensity. *)
Theorem toRGBA_grey (pixelByte : byte) :
  let '(r, g, b, a) := toRGBA pixelByte in
  r = g /\ g = b
  /\ (a = x00 <-> pixelByte = x62)
  /\ (a = xff <-> pixelByte <> x62)
  /\ (~ In pixelByte [x61; x62; x63; x64; x65; x9d; x9e; xc9; xca] -> r = pixelByte).
Proof.
  destruct pixelByte; simpl;
    (repeat split; try reflexivity; try discriminate; try congruence;
     intros Hnot; try reflexivity; exfalso; apply Hnot; simpl; tauto).
Qed.

Lemma toRGBAat_alpha (v : option byte) :
  snd (toRGBAat v) = Some x00 \/ snd (toRGBAat v) = Some xff.
Proof.
  destruct v as [p|]; [|by right].
  unfold toRGBAat. destruct p; simpl; auto.
Qed.

Lemma compositePixel_no_blend (H1 H2 : Host) canvas idx r g b a :
  a = Some x00 \/ a = Some xff ->
  @compositePixel H1 canvas idx r g b a = @compositePixel H2 canvas idx r g b a.
Proof. by intros [-> | ->]. Qed.

Lemma fold_left_ext {A B} (f g : A -> B -> A) (l : list B) :
  (forall a b, f a b = g a b) -> forall a, fold_left f l a = fold_left g l a.
Proof.
  intros Hext. induction l as [|b l IH]; intros a; simpl; [reflexivity|].
  by rewrite Hext, IH.
Qed.

(** X15. The compositing of a RATTA_RLE layer never reaches the alpha
    blend: its result is the same for any two implementations of the
    blend (and of the rest of the host). *)
Theorem compositeRLE_never_blends (H1 H2 : Host) (canvas layerPixels : list byte)
    (n : nat) :
  @compositeRLE H1 canvas layerPixels n = @compositeRLE H2 canvas layerPixels n.
Proof.
  unfold compositeRLE. apply fold_left_ext. intros c i.
  pose proof (toRGBAat_alpha (layerPixels !! i)) as Halpha.
  destruct (toRGBAat (layerPixels !! i)) as [[[r g] b] a].
  by apply compositePixel_no_blend.
Qed.

Lemma fold_left_id_in {A B} (f : A -> B -> A) (l : list B) :
  (forall a b, In b l -> f a b = a) -> forall a, fold_left f l a = a.
Proof.
  induction l as [|b l IH]; intros Hid a; simpl; [reflexivity|].
  rewrite Hid by (by left). apply IH. intros a' b' Hin. apply Hid. by right.
Qed.

Lemma compositeRLE_transparent `{Host} canvas layerPixels n :
  (forall i, (i < n)%nat -> layerPixels !! i = Some x62) ->
  compositeRLE canvas layerPixels n = canvas.
Proof.
  intros Hclear. unfold compositeRLE. apply fold_left_id_in.
  intros c i Hin. apply in_seq in Hin. rewrite Hclear by lia. reflexivity.
Qed.

Lemma compositePNG_transparent `{Host} canvas layerPixels n :
  (forall i, (i < n)%nat -> layerPixels !! (i * 4 + 3)%nat = Some x00) ->
  compositePNG canvas layerPixels n = canvas.
Proof.
  intros Hclear. unfold compositePNG. apply fold_left_id_in.
  intros c i Hin. apply in_seq in Hin. rewrite Hclear by lia. reflexivity.
Qed.

(** X16. A layer that is transparent at every pixel leaves the canvas as
    it was: a PNG layer whose alpha bytes are all 0, and a RATTA_RLE layer
    whose codes are all [0x62]. *)
Theorem transparent_layer_keeps_canvas `{Host} (n : nat)
    (canvas pngPixels rlePixels : list byte) :
  (forall i, (i < n)%nat -> pngPixels !! (i * 4 + 3)%nat = Some x00) ->
  (forall i, (i < n)%nat -> rlePixels !! i = Some x62) ->
  compositePNG canvas pngPixels n = canvas
  /\ compositeRLE canvas rlePixels n = canvas.
Proof.
  intros Hpng Hrle. split.
  - by apply compositePNG_transparent.
  - by apply compositeRLE_transparent.
Qed.

Lemma transparent_layer_keeps_canvas_witness :
  @compositePNG sampleHost [x01; x02; x03; xff] [x0a; x0b; x0c; x00] 1
  = [x01; x02; x03; xff]
  /\ @compositeRLE sampleHost [x01; x02; x03; xff] [x62] 1 = [x01; x02; x03; xff].
Proof.
  apply (@transparent_layer_keeps_canvas sampleHost 1
           [x01; x02; x03; xff] [x0a; x0b; x0c; x00] [x62]).
  - intros i Hi. assert (i = 0%nat) as -> by lia. reflexivity.
  - intros i Hi. assert (i = 0%nat) as -> by lia. reflexivity.
Defined.

(** An empty run of RLE data decodes to a transparent raster. *)
Lemma decodeRLE_empty (width height : Z) :
  0 <= width -> 0 <= height ->
  decodeRLE [] width height = Ok (replicate (Z.to_nat (width * height)) x62).
Proof.
  intros Hw Hh. unfold decodeRLE, rleRuns. cbn [rleLoop].
  change (Z.of_nat (length (@nil byte))) with 0.
  rewrite Z.sub_0_r, app_nil_l, length_replicate.
  destruct (Z.gtb_spec (Z.of_nat (Z.to_nat (width * height))) (width * height));
    [lia|reflexivity].
Qed.

(** X17. A RATTA_RLE layer whose bitmap block is empty draws nothing: its
    iteration of the layer loop returns the canvas as it was, for any
    page size that is not negative. *)
Theorem empty_RLE_layer_draws_nothing `{Host} (width height : Z)
    (canvas : list byte) (layer : Layer) (s s1 : State) :
  0 <= width -> 0 <= height ->
  protocol layer = "RATTA_RLE"%string ->
  num_eq (bitmapAddress layer) (Int 0) = false ->
  readBitmapBlock (bitmapAddress layer) s = Ok ([], s1) ->
  renderLayer width height canvas layer s = Ok (canvas, s1).
Proof.
  intros Hw Hh Hproto Haddr Hblock. unfold renderLayer.
  rewrite Haddr, Hproto. step Hblock.
  change (String.eqb "RATTA_RLE" "RATTA_RLE") with true. cbv iota.
  rewrite decodeRLE_empty by assumption. unfold bind, liftResult, ret.
  f_equal. f_equal. apply compositeRLE_transparent.
  intros i Hi. by apply lookup_replicate_2.
Qed.

(** ** The white canvas and the RGB image *)

Lemma whiteCanvas_white (width height : Z) (canvas : list byte) :
  whiteCanvas width height = Ok canvas ->
  canvas = replicate (Z.to_nat (width * height) * 4) xff.
Proof.
  intros Hwhite. pose proof (whiteCanvas_opaque _ _ _ Hwhite) as [Hlen _].
  revert Hwhite. unfold whiteCanvas, newUint8Array.
  destruct (Z.ltb_spec (width * height * 4) 0) as [|Hn]; [discriminate|].
  intros [= Hc].
  set (n := Z.to_nat (width * height)) in *.
  assert (Hk : forall k, (k <= n)%nat ->
             let c := fold_left
                        (fun canvas i =>
                           <[(i * 4 + 3)%nat := xff]>
                             (<[(i * 4 + 2)%nat := xff]>
                                (<[(i * 4 + 1)%nat := xff]>
                                   (<[(i * 4 + 0)%nat := xff]> canvas))))
                        (seq 0 k) (replicate (Z.to_nat (width * height * 4)) x00) in
             length c = (n * 4)%nat
             /\ forall j, (j < k * 4)%nat -> c !! j = Some xff).
  { induction k as [|k IH]; intros Hle.
    - simpl. split; [rewrite length_replicate; lia|]. intros; lia.
    - rewrite seq_S, fold_left_app.
      destruct IH as [Hl Hset]; [lia|].
      set (c := fold_left _ (seq 0 k) _) in *. simpl.
      split; [by rewrite !length_insert|].
      intros j Hj.
      destruct (decide (j = k * 4 + 3)%nat) as [->|N3].
      { apply list_lookup_insert_eq. rewrite !length_insert. lia. }
      rewrite list_lookup_insert_ne by lia.
      destruct (decide (j = k * 4 + 2)%nat) as [->|N2].
      { apply list_lookup_insert_eq. rewrite !length_insert. lia. }
      rewrite list_lookup_insert_ne by lia.
      destruct (decide (j = k * 4 + 1)%nat) as [->|N1].
      { apply list_lookup_insert_eq. rewrite !length_insert. lia. }
      rewrite list_lookup_insert_ne by lia.
      destruct (decide (j = k * 4 + 0)%nat) as [->|N0].
      { apply list_lookup_insert_eq. lia. }
      rewrite list_lookup_insert_ne by lia.
      apply Hset. lia. }
  destruct (Hk n (le_n n)) as [_ Hall]. rewrite Hc in Hall.
  apply list_eq. intros j.
  destruct (decide (j < n * 4)%nat) as [Hj|Hj].
  - rewrite Hall by exact Hj. symmetry. by apply lookup_replicate_2.
  - rewrite !lookup_ge_None_2; [reflexivity|rewrite length_replicate; lia|lia].
Qed.

Lemma renderLayers_no_bitmaps `{Host} width height layers :
  Forall (fun layer => num_eq (bitmapAddress layer) (Int 0) = true) layers ->
  forall canvas s, renderLayers width height canvas layers s = Ok (canvas, s).
Proof.
  induction 1 as [|layer rest Hzero _ IH]; intros canvas s; [reflexivity|].
  simpl. unfold bind, renderLayer. rewrite Hzero. simpl. apply IH.
Qed.

(** X18. A page none of whose layers has a bitmap (all bitmap addresses are
    0, or there is no layer) renders to the white canvas, every byte 255,
    without touching the reader or the log. *)
Theorem page_without_bitmaps_is_white `{Host} (page : Page) (width height : Z)
    (s : State) :
  0 <= width -> 0 <= height ->
  Forall (fun layer => num_eq (bitmapAddress layer) (Int 0) = true) (layers page) ->
  renderPage page width height s
  = Ok (replicate (Z.to_nat (width * height) * 4) xff, s).
Proof.
  intros Hw Hh Hzero. unfold renderPage, bind, liftResult.
  destruct (whiteCanvas width height) as [canvas|e] eqn:Hwhite.
  - apply whiteCanvas_white in Hwhite as ->. by apply renderLayers_no_bitmaps.
  - exfalso. revert Hwhite. unfold whiteCanvas, newUint8Array.
    destruct (Z.ltb_spec (width * height * 4) 0); [lia|discriminate].
Qed.

Lemma rgbaToRgb_run (rgba : list byte) (width height : Z) :
  0 <= width * height ->
  exists rgb,
    rgbaToRgb rgba width height = Ok rgb
    /\ length rgb = (Z.to_nat (width * height) * 3)%nat
    /\ forall i k, (i < Z.to_nat (width * height))%nat -> (k < 3)%nat ->
         rgb !! (i * 3 + k)%nat = Some (storeU8 (rgba !! (i * 4 + k)%nat)).
Proof.
  intros Hn. unfold rgbaToRgb, newUint8Array.
  destruct (Z.ltb_spec (width * height * 3) 0); [lia|].
  eexists. split; [reflexivity|].
  set (n := Z.to_nat (width * height)).
  assert (Hk : forall m, (m <= n)%nat ->
             let c := fold_left
                        (fun rgb i =>
                           <[(i * 3 + 2)%nat := storeU8 (rgba !! (i * 4 + 2)%nat)]>
                             (<[(i * 3 + 1)%nat := storeU8 (rgba !! (i * 4 + 1)%nat)]>
                                (<[(i * 3 + 0)%nat := storeU8 (rgba !! (i * 4 + 0)%nat)]> rgb)))
                        (seq 0 m) (replicate (Z.to_nat (width * height * 3)) x00) in
             length c = (n * 3)%nat
             /\ forall i k, (i < m)%nat -> (k < 3)%nat ->
                  c !! (i * 3 + k)%nat = Some (storeU8 (rgba !! (i * 4 + k)%nat))).
  { induction m as [|m IH]; intros Hle.
    - simpl. split; [rewrite length_replicate; lia|]. intros; lia.
    - rewrite seq_S, fold_left_app.
      destruct IH as [Hl Hset]; [lia|].
      set (c := fold_left _ (seq 0 m) _) in *. simpl.
      split; [by rewrite !length_insert|].
      intros i k Hi Hk3.
      destruct (decide (i = m)) as [->|Hne].
      + assert (Hcases : (k = 0 \/ k = 1 \/ k = 2)%nat) by lia.
        destruct Hcases as [-> | [-> | ->]].
        * rewrite !list_lookup_insert_ne by lia.
          apply list_lookup_insert_eq. lia.
        * rewrite list_lookup_insert_ne by lia.
          apply list_lookup_insert_eq. rewrite !length_insert. lia.
        * apply list_lookup_insert_eq. rewrite !length_insert. lia.
      + rewrite !list_lookup_insert_ne by lia. apply Hset; lia. }
  exact (Hk n (le_n n)).
Qed.

(** X19. [rgbaToRgb] keeps the three colour bytes of every pixel and drops
    the fourth: on an RGBA image of [width * height] pixels it returns
    [width * height * 3] bytes, and byte [k < 3] of pixel [i] of the result
    is byte [k] of pixel [i] of the input. *)
Theorem rgbaToRgb_drops_alpha (rgba : list byte) (width height : Z) :
  0 <= width * height ->
  length rgba = (Z.to_nat (width * height) * 4)%nat ->
  exists rgb,
    rgbaToRgb rgba width height = Ok rgb
    /\ length rgb = (Z.to_nat (width * height) * 3)%nat
    /\ forall i k, (i < Z.to_nat (width * height))%nat -> (k < 3)%nat ->
         rgb !! (i * 3 + k)%nat = rgba !! (i * 4 + k)%nat.
Proof.
  intros Hn Hlen.
  destruct (rgbaToRgb_run rgba width height Hn) as (rgb & Hrun & Hl & Hpix).
  exists rgb. split; [exact Hrun|]. split; [exact Hl|].
  intros i k Hi Hk. rewrite (Hpix i k Hi Hk).
  destruct (lookup_lt_is_Some_2 rgba (i * 4 + k)) as [v ->]; [lia|]. reflexivity.
Qed.

(** ** More on the run-length decoder *)

Lemma rleLoop_app (front back : list byte) :
  Nat.Even (length front) ->
  forall holder decompressed,
    rleLoop (front ++ back) holder decompressed
    = rleLoop back (snd (rleLoop front holder decompressed))
                   (fst (rleLoop front holder decompressed)).
Proof.
  induction front as [|x|x y l IH] using pairs_ind; intros Heven.
  - reflexivity.
  - destruct Heven as [k Hk]. simpl in Hk. lia.
  - assert (Hl : Nat.Even (length l)).
    { destruct Heven as [k Hk]. simpl in Hk. exists (k - 1)%nat. lia. }
    intros holder decompressed. simpl.
    destruct holder as [[prevColorCode prevLengthCode]|];
      repeat case_match; apply IH; assumption.
Qed.

(** X20. Decoding goes on where it stopped: the loop on an input of even
    length followed by more input is the loop on the rest, started from
    the pixels and the held pair the first part ends with. *)
Theorem rleLoop_resumes (front back : list byte) (holder : option (byte * byte))
    (decompressed : list byte) :
  Nat.Even (length front) ->
  rleLoop (front ++ back) holder decompressed
  = rleLoop back (snd (rleLoop front holder decompressed))
                 (fst (rleLoop front holder decompressed)).
Proof. intros Heven. by apply rleLoop_app. Qed.

Lemma rleLoop_resumes_witness :
  rleLoop ([x61; x85] ++ [x61; x03]) None []
  = rleLoop [x61; x03] (snd (rleLoop [x61; x85] None []))
                       (fst (rleLoop [x61; x85] None [])).
Proof.
  apply (rleLoop_resumes [x61; x85] [x61; x03] None []).
  exists 1%nat. reflexivity.
Defined.

Lemma rleLoop_plain (pairs : list (byte * byte)) :
  Forall plainPair pairs ->
  forall decompressed,
    rleLoop (pairBytes pairs) None decompressed
    = (decompressed
       ++ flat_map (fun pair => replicate (Z.to_nat (runLength (snd pair))) (fst pair))
                   pairs,
       None).
Proof.
  induction 1 as [|[c l] rest Hplain _ IH]; intros decompressed.
  - simpl. by rewrite app_nil_r.
  - simpl in Hplain. cbn [pairBytes flat_map fst snd app rleLoop].
    unfold runLength.
    destruct (Z.eqb_spec (byteZ l) 0xff) as [Hff|Hnff].
    + fold (pairBytes rest). rewrite IH. unfold pushRun. by rewrite <- app_assoc.
    + assert (Hlow : Z.land (byteZ l) 0x80 = 0).
      { destruct Hplain as [Hlt|]; [|done].
        revert Hlt. unfold byteZ. destruct l; vm_compute; congruence. }
      rewrite Hlow. simpl negb. cbv iota.
      fold (pairBytes rest). rewrite IH. unfold pushRun. by rewrite <- app_assoc.
Qed.

(** X21. An input whose length codes are all below [0x80] or equal to
    [0xff] decodes run by run: each pair gives [lengthCode + 1] pixels of
    its colour, or 16384 pixels for the code [0xff], and nothing is
    held. *)
Theorem decode_plain_runs (pairs : list (byte * byte)) (expectedLen : Z) :
  Forall plainPair pairs ->
  rleRuns (pairBytes pairs) expectedLen
  = flat_map (fun pair => replicate (Z.to_nat (runLength (snd pair))) (fst pair))
             pairs.
Proof.
  intros Hplain. unfold rleRuns.
  by rewrite (rleLoop_plain pairs Hplain []).
Qed.

Lemma decode_plain_runs_witness :
  rleRuns (pairBytes [(x61, x02); (x65, xff)]) 0
  = flat_map (fun pair => replicate (Z.to_nat (runLength (snd pair))) (fst pair))
             [(x61, x02); (x65, xff)].
Proof.
  apply (decode_plain_runs [(x61, x02); (x65, xff)] 0).
  constructor; [left; vm_compute; reflexivity|].
  constructor; [right; vm_compute; reflexivity|].
  constructor.
Defined.

Lemma heldLength_range (lengthCode : byte) : 128 <= heldLength lengthCode <= 0x4000.
Proof. destruct lengthCode; vm_compute; split; discriminate. Qed.

Lemma length_pushRun_le decompressed c n bound :
  n <= bound -> 0 <= bound ->
  Z.of_nat (length (pushRun decompressed c n))
  <= Z.of_nat (length decompressed) + bound.
Proof.
  intros Hn Hb. unfold pushRun. rewrite length_app, length_replicate. lia.
Qed.

Lemma rleLoop_growth (compressedData : list byte) :
  forall holder decompressed,
    Z.of_nat (length (fst (rleLoop compressedData holder decompressed)))
    + heldPixels (snd (rleLoop compressedData holder decompressed))
    <= Z.of_nat (length decompressed) + heldPixels holder
       + 0x2000 * Z.of_nat (length compressedData).
Proof.
  induction compressedData as [|x|c l rest IH] using pairs_ind;
    intros holder decompressed.
  - simpl. lia.
  - simpl. lia.
  - pose proof (byteZ_range l) as Hl.
    cbn [rleLoop]. cbn [length].
    destruct holder as [[prevColorCode prevLengthCode]|].
    + pose proof (heldLength_range prevLengthCode) as Hheld.
      destruct (Byte.eqb c prevColorCode).
      * etransitivity; [apply IH|]. cbn [heldPixels].
        pose proof (length_pushRun_le decompressed c
                      (1 + byteZ l + heldLength prevLengthCode) (256 + 0x4000)
                      ltac:(lia) ltac:(lia)).
        lia.
      * etransitivity; [apply IH|]. cbn [heldPixels].
        pose proof (length_pushRun_le decompressed prevColorCode
                      (heldLength prevLengthCode) 0x4000 ltac:(lia) ltac:(lia)).
        pose proof (length_pushRun_le
                      (pushRun decompressed prevColorCode (heldLength prevLengthCode))
                      c (byteZ l + 1) 256 ltac:(lia) ltac:(lia)).
        lia.
    + destruct (byteZ l =? 0xff).
      * etransitivity; [apply IH|]. cbn [heldPixels].
        pose proof (length_pushRun_le decompressed c 0x4000 0x4000
                      ltac:(lia) ltac:(lia)).
        lia.
      * destruct (negb _).
        -- etransitivity; [apply IH|]. cbn [heldPixels]. lia.
        -- etransitivity; [apply IH|]. cbn [heldPixels].
           pose proof (length_pushRun_le decompressed c (byteZ l + 1) 256
                         ltac:(lia) ltac:(lia)).
           lia.
Qed.

(** X22. The decoder's working array stays bounded by its input: before
    padding and truncation the decoded pixels number at most 8192 times the
    bytes of the input (16384 per pair), whatever the input and the size
    asked for. *)
Theorem rleRuns_bounded (compressedData : list byte) (expectedLen : Z) :
  Z.of_nat (length (rleRuns compressedData expectedLen))
  <= 8192 * Z.of_nat (length compressedData).
Proof.
  unfold rleRuns.
  pose proof (rleLoop_growth compressedData None []) as Hgrow.
  destruct (rleLoop compressedData None []) as [decompressed holder].
  simpl in Hgrow.
  destruct holder as [[colorCode lengthCode]|]; [|simpl in Hgrow; lia].
  pose proof (heldLength_range lengthCode) as Hheld.
  pose proof (length_pushRun_le decompressed colorCode
                (Z.min (heldLength lengthCode)
                       (expectedLen - Z.of_nat (length decompressed)))
                0x4000 ltac:(lia) ltac:(lia)).
  simpl in Hgrow. lia.
Qed.

(** ** The layout of the document *)

Lemma offsetsFrom_app start objects more :
  offsetsFrom start (objects ++ more)
  = offsetsFrom start objects
    ++ offsetsFrom (start + Z.of_nat (length (concat objects))) more.
Proof.
  revert start. induction objects as [|o rest IH]; intros start; simpl.
  - by rewrite Z.add_0_r.
  - rewrite IH, length_app. do 3 f_equal. lia.
Qed.

(** Pushing the offset and writing the chunks of one object. *)
Lemma wrote_object objects w object w' :
  wrote objects w ->
  written w' = written w ++ object ->
  xrefOffsets w' = xrefOffsets w ++ [byteOffset w] ->
  byteOffset w' = byteOffset w + Z.of_nat (length object) ->
  wrote (objects ++ [object]) w'.
Proof.
  intros (Hw & Hoff & Hcount) Hw' Hoff' Hcount'. repeat split.
  - rewrite Hw', Hw, concat_app.
    change (concat [object]) with (object ++ []).
    by rewrite app_nil_r, <- app_assoc.
  - rewrite Hoff', Hoff, offsetsFrom_app. cbn [offsetsFrom]. do 2 f_equal.
    rewrite Hcount, Hw, length_app. lia.
  - rewrite Hcount', Hcount, Hw', length_app. lia.
Qed.

(** One object written as a single text behind its pushed offset. *)
Lemma wrote_text objects w text :
  wrote objects w ->
  wrote (objects ++ [encode text]) (write text (pushOffset w)).
Proof.
  intros Hw. apply (wrote_object objects w); [exact Hw| | |]; reflexivity || idtac.
  exact (written_write text (pushOffset w)).
Qed.

Lemma emitPage_wrote `{Host} width height i pageImage objects w :
  wrote objects w ->
  wrote (objects ++ pageObjects width height i pageImage)
        (emitPage width height i pageImage w).
Proof.
  intros Hw. unfold emitPage, pageObjects. cbv zeta.
  change (objects ++ [?a; ?b; ?c]) with (objects ++ [a] ++ [b] ++ [c]).
  rewrite !app_assoc.
  apply wrote_text with (text := pageObject (i * 3 + 3) (i * 3 + 4) (i * 3 + 5)
                                   (toPoints width) (toPoints height)) in Hw.
  apply wrote_text with (text := contentsObject (i * 3 + 4)
                                   (pageContents (toPoints width) (toPoints height)))
    in Hw.
  eapply wrote_object; [exact Hw| | |].
  - rewrite written_write, written_writeBytes.
    rewrite (written_write _ (pushOffset _)), <- !app_assoc. reflexivity.
  - reflexivity.
  - cbn [byteOffset write writeBytes pushOffset]. rewrite !length_app. lia.
Qed.

Lemma emitPages_wrote `{Host} width height pageImages :
  forall i objects w,
    wrote objects w ->
    wrote (objects ++ pagesObjects width height i pageImages)
          (emitPages width height i pageImages w).
Proof.
  induction pageImages as [|pageImage rest IH]; intros i objects w Hw.
  - cbn [emitPages pagesObjects]. by rewrite app_nil_r.
  - cbn [emitPages pagesObjects]. rewrite app_assoc. apply IH.
    by apply emitPage_wrote.
Qed.

Lemma emitObjects_wrote `{Host} pageImages width height :
  wrote (documentObjects pageImages width height)
        (emitObjects pageImages width height).
Proof.
  unfold emitObjects, documentObjects. cbv zeta.
  change ([?a; ?b] ++ ?rest) with (([] ++ [a]) ++ [b] ++ rest).
  rewrite app_assoc.
  apply emitPages_wrote.
  apply wrote_text, wrote_text.
  by repeat split.
Qed.

Lemma length_pagesObjects `{Host} width height pageImages :
  forall i, length (pagesObjects width height i pageImages)
            = (3 * length pageImages)%nat.
Proof.
  induction pageImages as [|p rest IH]; intros i; [reflexivity|].
  cbn [pagesObjects]. rewrite length_app, IH. simpl. lia.
Qed.

(** X23. The bytes [buildPDF] returns are the header, then the objects of
    the document one behind the other in the order of their numbers, then
    the cross-reference section whose offsets are the running sums of the
    object sizes from the end of the header and whose [startxref] is the
    size of header and objects; there are two objects and three more per
    page. *)
Theorem buildPDF_layout `{Host} (pageImages : list (list byte)) (width height : Z) :
  let objects := documentObjects pageImages width height in
  let body := encode pdfHeader ++ concat objects in
  buildPDF pageImages width height
  = body
    ++ encode (xrefSection (offsetsFrom (Z.of_nat (length (encode pdfHeader))) objects)
                           (Z.of_nat (length body)))
  /\ length objects = (2 + 3 * length pageImages)%nat.
Proof.
  intros objects body.
  destruct (emitObjects_wrote pageImages width height) as (Hw & Hoff & Hcount).
  fold objects in Hw, Hoff. fold body in Hw.
  split.
  - unfold buildPDF. fold (written (emitXref (emitObjects pageImages width height))).
    rewrite written_emitXref, Hoff, Hcount, Hw. reflexivity.
  - unfold objects, documentObjects.
    rewrite length_app, length_pagesObjects. simpl. lia.
Qed.

Lemma pagesObjects_split `{Host} width height pageImages :
  forall i k pageImage,
    pageImages !! k = Some pageImage ->
    pagesObjects width height i pageImages
    = pagesObjects width height i (take k pageImages)
      ++ pageObjects width height (i + Z.of_nat k) pageImage
      ++ pagesObjects width height (i + Z.of_nat k + 1) (drop (S k) pageImages).
Proof.
  induction pageImages as [|p rest IH]; intros i k pageImage Hk; [done|].
  destruct k as [|k].
  - injection Hk as ->. cbn [take drop pagesObjects app]. rewrite Z.add_0_r.
    reflexivity.
  - simpl in Hk. cbn [take drop pagesObjects]. rewrite (IH (i + 1) k pageImage Hk).
    rewrite <- app_assoc.
    replace (i + 1 + Z.of_nat k) with (i + Z.of_nat (S k)) by lia.
    reflexivity.
Qed.

Lemma length_offsetsFrom (objects : list (list byte)) :
  forall start, length (offsetsFrom start objects) = length objects.
Proof.
  induction objects as [|o rest IH]; intros start; [reflexivity|].
  cbn [offsetsFrom length]. by rewrite IH.
Qed.

(** X24. In the bytes [buildPDF] returns, the three objects of the page
    of index [i] stand one behind the other: the page object, numbered
    [3i + 3], which names object [3i + 4] as contents and object [3i + 5]
    as image, then the content stream, numbered [3i + 4], then the image
    object, numbered [3i + 5], which holds the deflated bytes of that page
    between its head and tail with their number as length; and the
    offsets recorded for the objects [3i + 3], [3i + 4] and [3i + 5] are
    the places where the three start. *)
Theorem page_objects_numbered `{Host} (pageImages : list (list byte))
    (width height : Z) (i : nat) (pageImage : list byte) :
  pageImages !! i = Some pageImage ->
  let out := buildPDF pageImages width height in
  let offsets := xrefOffsets (emitObjects pageImages width height) in
  let n := Z.of_nat i * 3 in
  let page := encode (pageObject (n + 3) (n + 4) (n + 5)
                                 (toPoints width) (toPoints height)) in
  let contents := encode (contentsObject (n + 4)
                            (pageContents (toPoints width) (toPoints height))) in
  let image := encode (imageObjectHead (n + 5) width height
                         (Z.of_nat (length (deflate pageImage))))
               ++ deflate pageImage ++ encode imageObjectTail in
  exists front back,
    out = front ++ page ++ contents ++ image ++ back
    /\ offsets !! (3 * i + 2)%nat = Some (Z.of_nat (length front))
    /\ offsets !! (3 * i + 3)%nat = Some (Z.of_nat (length (front ++ page)))
    /\ offsets !! (3 * i + 4)%nat
       = Some (Z.of_nat (length (front ++ page ++ contents))).
Proof.
  intros Hi out offsets n page contents image.
  destruct (emitObjects_wrote pageImages width height) as (Hw & Hoff & Hcount).
  set (w := emitObjects pageImages width height) in *.
  set (before := [encode catalogObject; encode (pagesObject (length pageImages))]
                 ++ pagesObjects width height 0 (take i pageImages)).
  set (after := pagesObjects width height (0 + Z.of_nat i + 1) (drop (S i) pageImages)).
  assert (Hobjects : documentObjects pageImages width height
                     = before ++ [page; contents; image] ++ after).
  { unfold documentObjects, before, after.
    rewrite (pagesObjects_split width height pageImages 0 i pageImage Hi).
    rewrite <- app_assoc. reflexivity. }
  assert (Hbefore : length before = (3 * i + 2)%nat).
  { unfold before. rewrite length_app, length_pagesObjects, length_take.
    apply lookup_lt_Some in Hi. simpl. lia. }
  exists (encode pdfHeader ++ concat before),
         (concat after ++ encode (xrefSection (xrefOffsets w) (byteOffset w))).
  split.
  - change out with (written (emitXref w)).
    rewrite written_emitXref, Hw, Hobjects, !concat_app. cbn [concat].
    rewrite app_nil_r, <- !app_assoc. reflexivity.
  - unfold offsets. rewrite Hoff, Hobjects, offsetsFrom_app.
    cbn [app offsetsFrom].
    rewrite !lookup_app_r by (rewrite length_offsetsFrom; lia).
    rewrite length_offsetsFrom, Hbefore.
    replace (3 * i + 2 - (3 * i + 2))%nat with 0%nat by lia.
    replace (3 * i + 3 - (3 * i + 2))%nat with 1%nat by lia.
    replace (3 * i + 4 - (3 * i + 2))%nat with 2%nat by lia.
    cbn [lookup list_lookup]. rewrite !length_app.
    repeat split; f_equal; lia.
Qed.

(** *** Stream lengths *)

Lemma encode_ascii (s : string) :
  asciiText s -> length (encode s) = String.length s.
Proof.
  unfold asciiText, encode. induction s as [|c s IH]; [reflexivity|].
  simpl. intros Hall. apply Forall_cons in Hall as [Hc Hall].
  rewrite length_app, (IH Hall). unfold encodeChar.
  destruct (Z.ltb_spec (Z.of_N (N_of_ascii c)) 128); [reflexivity|lia].
Qed.

Lemma asciiText_app (a b : string) : asciiText a -> asciiText b -> asciiText (a +:+ b).
Proof.
  unfold asciiText. induction a as [|c a IH]; intros Ha Hb; [exact Hb|].
  simpl in Ha. apply Forall_cons in Ha as [Hc Ha].
  change (String c a +:+ b) with (String c (a +:+ b)). simpl.
  constructor; [exact Hc|by apply IH].
Qed.

Lemma asciiText_digits (d : Decimal.uint) : asciiText (NilEmpty.string_of_uint d).
Proof.
  unfold asciiText. induction d; simpl; constructor; try exact IHd;
    vm_compute; reflexivity.
Qed.

Lemma asciiText_toString (z : Z) : asciiText (toString z).
Proof.
  unfold toString.
  assert (Hu : forall d, asciiText (NilZero.string_of_uint d)).
  { intros d. destruct d; try apply asciiText_digits.
    unfold asciiText. simpl. constructor; [vm_compute; reflexivity|constructor]. }
  destruct (Z.to_int z) as [d|d]; simpl.
  - apply Hu.
  - unfold asciiText. simpl. constructor; [vm_compute; reflexivity|apply Hu].
Qed.

Lemma asciiText_literal (s : string) :
  forallb (fun c => (N_of_ascii c <? 128)%N) (list_ascii_of_string s) = true ->
  asciiText s.
Proof.
  unfold asciiText. intros Hall. apply List.Forall_forall. intros c Hin.
  rewrite forallb_forall in Hall. apply N.ltb_lt. by apply Hall.
Qed.

Lemma asciiText_pageContents (pdfWidth pdfHeight : Z) :
  asciiText (pageContents pdfWidth pdfHeight).
Proof.
  unfold pageContents.
  repeat first [ apply asciiText_toString
               | (apply asciiText_literal; reflexivity)
               | apply asciiText_app ].
Qed.

(** X25. The [/Length] a content stream declares, the number of
    characters of the content, is the number of bytes between [stream] and
    [endstream]: the content is plain ASCII whatever the page size. *)
Theorem contents_length_exact (contentsObjId pdfWidth pdfHeight : Z) :
  let contents := pageContents pdfWidth pdfHeight in
    encode (contentsObject contentsObjId contents)
    = encode (toString contentsObjId +:+ " 0 obj" +:+ LF +:+ "<< ")
      ++ encode ("/Length " +:+ toString (Z.of_nat (length (encode contents)))
                 +:+ " >>" +:+ LF +:+ "stream" +:+ LF)
      ++ encode contents
      ++ encode (LF +:+ "endstream" +:+ LF +:+ "endobj" +:+ LF).
Proof.
  intros contents.
  rewrite (encode_ascii contents) by apply asciiText_pageContents.
  rewrite <- !encode_app. f_equal.
  unfold contentsObject. rewrite <- !string_app_assoc. reflexivity.
Qed.

(** ** The conversion as a whole *)

Lemma renderPage_buffer `{Host} page width height s canvas s' :
  renderPage page width height s = Ok (canvas, s') ->
  data (reader s') = data (reader s).
Proof.
  unfold renderPage. intros Hrun.
  apply bind_inv in Hrun as (white & s1 & Hwhite & Hlayers).
  unfold liftResult in Hwhite.
  destruct (whiteCanvas width height); [|discriminate].
  injection Hwhite as _ <-. by apply renderLayers_buffer in Hlayers.
Qed.

Lemma rgbaToRgb_length rgba width height rgb :
  rgbaToRgb rgba width height = Ok rgb ->
  length rgb = (Z.to_nat (width * height) * 3)%nat.
Proof.
  intros Hrun. destruct (Z.le_gt_cases 0 (width * height)) as [Hn|Hn].
  - destruct (rgbaToRgb_run rgba width height Hn) as (rgb' & Hrun' & Hlen & _).
    congruence.
  - revert Hrun. unfold rgbaToRgb, newUint8Array.
    destruct (Z.ltb_spec (width * height * 3) 0); [discriminate|lia].
Qed.

Lemma renderPages_run `{Host} (width height : Z) (pages : list Page) :
  forall i s,
    match renderPages width height i pages s with
    | Ok (pageImages, s') =>
        length pageImages = length pages
        /\ Forall (fun image => length image = (Z.to_nat (width * height) * 3)%nat)
                  pageImages
        /\ data (reader s') = data (reader s)
    | Throw e =>
        exists pageNo cause,
          e = FailedToRenderPage pageNo cause
          /\ i < pageNo <= i + Z.of_nat (length pages)
    end.
Proof.
  induction pages as [|page rest IH]; intros i s.
  - simpl. by repeat split.
  - cbn [renderPages]. unfold bind at 1. unfold rethrow, bind at 1.
    destruct (renderPage page width height s) as [[rgba s1]|e] eqn:Hpage.
    2:{ exists (i + 1), e. split; [reflexivity|]. simpl length. lia. }
    unfold liftResult.
    destruct (rgbaToRgb rgba width height) as [rgb|e] eqn:Hrgb.
    2:{ exists (i + 1), e. split; [reflexivity|]. simpl length. lia. }
    apply renderPage_buffer in Hpage. apply rgbaToRgb_length in Hrgb.
    unfold bind at 1. specialize (IH (i + 1) s1).
    destruct (renderPages width height (i + 1) rest s1) as [[more s2]|e].
    + destruct IH as (Hlen & Hall & Hdata). simpl. repeat split.
      * by rewrite Hlen.
      * by constructor.
      * congruence.
    + destruct IH as (pageNo & cause & -> & Hrange).
      exists pageNo, cause. split; [reflexivity|]. simpl length. lia.
Qed.

(** X26. An error thrown while a page is rendered reaches the caller
    wrapped with the number of the page, counted from 1: the page loop
    throws nothing but [FailedToRenderPage] errors, with a page number
    within the pages it was given. *)
Theorem renderPages_reports_page `{Host} (width height i : Z) (pages : list Page)
    (s : State) (e : Error) :
  renderPages width height i pages s = Throw e ->
  exists pageNo cause,
    e = FailedToRenderPage pageNo cause
    /\ i < pageNo <= i + Z.of_nat (length pages).
Proof.
  intros Hrun. pose proof (renderPages_run width height pages i s) as Hspec.
  by rewrite Hrun in Hspec.
Qed.

Lemma convertNoteToPdfM_run `{Host} (noteData : list byte) :
  let len := Z.of_nat (length noteData) in
  match convertNoteToPdf noteData with
  | Ok (pdf, s') =>
      MIN_NOTE_FILE_SIZE <= len
      /\ exists signature width height pageImages,
           getNoteInfo noteData
           = Ok (signature, Z.of_nat (length pageImages), width, height)
           /\ pdf = buildPDF pageImages width height
           /\ ((width, height) = (A5X_WIDTH, A5X_HEIGHT)
               \/ (width, height) = (A5X2_WIDTH, A5X2_HEIGHT))
           /\ Forall (fun image => length image = (Z.to_nat (width * height) * 3)%nat)
                     pageImages
  | Throw e =>
      e = FileEmpty
      \/ e = FileTooSmall len
      \/ e = DownloadedHTML
      \/ (exists signature, e = InvalidSignature signature)
      \/ e = ReadU32OutOfBounds NaN len
      \/ (exists pageNo cause, e = FailedToRenderPage pageNo cause /\ 1 <= pageNo)
  end.
Proof.
  intros len. unfold convertNoteToPdf, getNoteInfo, convertNoteToPdfM.
  set (s0 := initialState noteData).
  unfold bind at 1 4.
  rewrite (validateNoteFile_run s0). cbv zeta.
  change (data (reader s0)) with noteData. fold len.
  destruct (Z.eqb_spec len 0); [by left|].
  destruct (Z.ltb_spec len MIN_NOTE_FILE_SIZE) as [|Hbig]; [by right; left|].
  destruct (existsb _ VALID_SIGNATURE_PREFIXES).
  2:{ destruct (_ || _); [by right; right; left|].
      right; right; right; left. by eexists. }
  unfold MIN_NOTE_FILE_SIZE in Hbig.
  assert (Hlen24 : 24 <= fileLength (reader (moveTo s0 (Int 24)))).
  { rewrite fileLength_moveTo. unfold fileLength. simpl. fold len. lia. }
  pose proof (parseNotebook_run (moveTo s0 (Int 24)) Hlen24) as Hparse.
  unfold bind at 1.
  destruct (parseNotebook (moveTo s0 (Int 24))) as [[notebook s1]|e].
  2:{ right; right; right; right; left. rewrite Hparse. reflexivity. }
  destruct Hparse as (Hdims & _ & _).
  unfold bind at 1.
  pose proof (renderPages_run (width notebook) (height notebook) (pages notebook) 0 s1)
    as Hrender.
  destruct (renderPages (width notebook) (height notebook) 0 (pages notebook) s1)
    as [[pageImages s2]|e].
  - destruct Hrender as (Hcount & Hall & _). simpl.
    split; [unfold MIN_NOTE_FILE_SIZE; lia|].
    exists (signature notebook), (width notebook), (height notebook), pageImages.
    rewrite Hcount. repeat split; auto.
  - destruct Hrender as (pageNo & cause & -> & Hrange).
    right; right; right; right; right. exists pageNo, cause. split; [reflexivity|lia].
Qed.

(** X27. The errors of [convertNoteToPdf] are the four validation errors,
    the read at the position [NaN] of a layer address that is not a
    number, and render errors wrapped with their page number; no other
    reader error escapes. *)
Theorem convertNoteToPdf_errors `{Host} (noteData : list byte) (e : Error) :
  convertNoteToPdf noteData = Throw e ->
  e = FileEmpty
  \/ e = FileTooSmall (Z.of_nat (length noteData))
  \/ e = DownloadedHTML
  \/ (exists signature, e = InvalidSignature signature)
  \/ e = ReadU32OutOfBounds NaN (Z.of_nat (length noteData))
  \/ (exists pageNo cause, e = FailedToRenderPage pageNo cause /\ 1 <= pageNo).
Proof.
  intros Hrun. pose proof (convertNoteToPdfM_run noteData) as Hspec.
  by rewrite Hrun in Hspec.
Qed.

(** X28. When [convertNoteToPdf] returns, the file had at least 100
    bytes, [getNoteInfo] returns for it too, and the PDF is [buildPDF] of
    as many page images as [getNoteInfo] counts pages, each of
    [width * height * 3] bytes, at one of the two device sizes. *)
Theorem convertNoteToPdf_result `{Host} (noteData pdf : list byte) (s' : State) :
  convertNoteToPdf noteData = Ok (pdf, s') ->
  100 <= Z.of_nat (length noteData)
  /\ exists signature width height pageImages,
       getNoteInfo noteData
       = Ok (signature, Z.of_nat (length pageImages), width, height)
       /\ pdf = buildPDF pageImages width height
       /\ ((width, height) = (1404, 1872) \/ (width, height) = (1920, 2560))
       /\ Forall (fun image => length image = (Z.to_nat (width * height) * 3)%nat)
                 pageImages.
Proof.
  intros Hrun. pose proof (convertNoteToPdfM_run noteData) as Hspec.
  by rewrite Hrun in Hspec.
Qed.

Lemma parseLayers_follows_order_witness :
  sublist (map key [absentLayer]) defaultLayerOrder
  /\ (length [absentLayer] <= length defaultLayerOrder)%nat
  /\ Forall (fun layer => exists text,
                 mapGet [("BGLAYER", "0")]%string (key layer) = Some text
                 /\ truthy text = true) [absentLayer].
Proof.
  apply (@parseLayers_follows_order sampleHost [("BGLAYER", "0")]%string
           defaultLayerOrder (initialState sampleBuffer) (initialState sampleBuffer)
           [absentLayer]).
  vm_compute. reflexivity.
Defined.

Lemma parseNotebook_only_error_witness :
  ReadU32OutOfBounds NaN 100
  = ReadU32OutOfBounds NaN (fileLength (reader (initialState noteWithBadLayerAddress))).
Proof.
  apply (@parseNotebook_only_error sampleHost (initialState noteWithBadLayerAddress)).
  - vm_compute. discriminate.
  - vm_compute. reflexivity.
Defined.

Lemma empty_RLE_layer_draws_nothing_witness :
  @renderLayer sampleHost 1 1 [x01; x02; x03; xff] emptyLayer
    (initialState emptyBlockBuffer)
  = Ok ([x01; x02; x03; xff], moveTo (initialState emptyBlockBuffer) (Int 5)).
Proof.
  apply (@empty_RLE_layer_draws_nothing sampleHost 1 1 [x01; x02; x03; xff]
           emptyLayer (initialState emptyBlockBuffer)
           (moveTo (initialState emptyBlockBuffer) (Int 5)));
    try lia; reflexivity.
Defined.

Lemma page_without_bitmaps_is_white_witness :
  @renderPage sampleHost {| addr := Int 24; layers := [absentLayer] |} 1 2
    (initialState sampleBuffer)
  = Ok (replicate (Z.to_nat (1 * 2) * 4) xff, initialState sampleBuffer).
Proof.
  apply (@page_without_bitmaps_is_white sampleHost
           {| addr := Int 24; layers := [absentLayer] |} 1 2
           (initialState sampleBuffer)); try lia.
  constructor; [reflexivity|constructor].
Defined.

Lemma rgbaToRgb_drops_alpha_witness :
  exists rgb,
    rgbaToRgb [x01; x02; x03; xff] 1 1 = Ok rgb
    /\ length rgb = (Z.to_nat (1 * 1) * 3)%nat
    /\ forall i k, (i < Z.to_nat (1 * 1))%nat -> (k < 3)%nat ->
         rgb !! (i * 3 + k)%nat = [x01; x02; x03; xff] !! (i * 4 + k)%nat.
Proof.
  apply (rgbaToRgb_drops_alpha [x01; x02; x03; xff] 1 1); [lia|reflexivity].
Defined.

Lemma page_objects_numbered_witness :
  let out := @buildPDF sampleHost [[x01; x02; x03]] 1 1 in
  let offsets := xrefOffsets (@emitObjects sampleHost [[x01; x02; x03]] 1 1) in
  let n := Z.of_nat 0 * 3 in
  let page := encode (pageObject (n + 3) (n + 4) (n + 5) (toPoints 1) (toPoints 1)) in
  let contents := encode (contentsObject (n + 4)
                            (pageContents (toPoints 1) (toPoints 1))) in
  let image := encode (imageObjectHead (n + 5) 1 1
                         (Z.of_nat (length (@deflate sampleHost [x01; x02; x03]))))
               ++ @deflate sampleHost [x01; x02; x03] ++ encode imageObjectTail in
  exists front back,
    out = front ++ page ++ contents ++ image ++ back
    /\ offsets !! (3 * 0 + 2)%nat = Some (Z.of_nat (length front))
    /\ offsets !! (3 * 0 + 3)%nat = Some (Z.of_nat (length (front ++ page)))
    /\ offsets !! (3 * 0 + 4)%nat
       = Some (Z.of_nat (length (front ++ page ++ contents))).
Proof.
  apply (@page_objects_numbered sampleHost [[x01; x02; x03]] 1 1 0 [x01; x02; x03]).
  reflexivity.
Defined.

Lemma renderPages_reports_page_witness :
  exists pageNo cause,
    FailedToRenderPage 1 (SeekOutOfBounds (Int 1000) 7)
    = FailedToRenderPage pageNo cause
    /\ 0 < pageNo <= 0 + Z.of_nat (length [{| addr := Int 0; layers := [staleLayer] |}]).
Proof.
  apply (@renderPages_reports_page sampleHost 1 1 0
           [{| addr := Int 0; layers := [staleLayer] |}] (initialState sampleBuffer)).
  reflexivity.
Defined.

Lemma convertNoteToPdf_errors_witness :
  ReadU32OutOfBounds NaN 100 = FileEmpty
  \/ ReadU32OutOfBounds NaN 100
     = FileTooSmall (Z.of_nat (length noteWithBadLayerAddress))
  \/ ReadU32OutOfBounds NaN 100 = DownloadedHTML
  \/ (exists signature, ReadU32OutOfBounds NaN 100 = InvalidSignature signature)
  \/ ReadU32OutOfBounds NaN 100
     = ReadU32OutOfBounds NaN (Z.of_nat (length noteWithBadLayerAddress))
  \/ (exists pageNo cause,
        ReadU32OutOfBounds NaN 100 = FailedToRenderPage pageNo cause /\ 1 <= pageNo).
Proof.
  apply (@convertNoteToPdf_errors sampleHost noteWithBadLayerAddress).
  vm_compute. reflexivity.
Defined.

Lemma convertNoteToPdf_result_witness :
  100 <= Z.of_nat (length noteWithoutPages)
  /\ exists signature width height pageImages,
       @getNoteInfo sampleHost noteWithoutPages
       = Ok (signature, Z.of_nat (length pageImages), width, height)
       /\ @buildPDF sampleHost [] 1404 1872 = @buildPDF sampleHost pageImages width height
       /\ ((width, height) = (1404, 1872) \/ (width, height) = (1920, 2560))
       /\ Forall (fun image => length image = (Z.to_nat (width * height) * 3)%nat)
                 pageImages.
Proof.
  apply (@convertNoteToPdf_result sampleHost noteWithoutPages
           (@buildPDF sampleHost [] 1404 1872)
           (moveTo (initialState noteWithoutPages) (Int 39))).
  vm_compute. reflexivity.
Defined.
